(** * notebook_ex_neural_network_pdb: a shallow embedding of the notebook's code

    The notebook loads a gzip-compressed, newline-delimited JSON file,
    extracts two feature matrices from it (Problem 1 and Problem 2), splits
    the rows into a training and a test set and trains a multilayer
    perceptron on them.  This file embeds the cells of the notebook as Rocq
    functions and proves properties of them.

    Conventions of the embedding.
    - A Python [str] is a [string] of 8-bit code points (U+0000..U+00FF); the
      character classes are those of the Unicode database on that range.
    - A Python [int] is a [Z].
    - A float (Python's [float] and numpy's [float64]) is a binary64
      number of IEEE 754, the [spec_float] of the Standard Library with
      its operations: they round to the nearest double, ties to even.
    - A Python exception is the [Raise] outcome of the [result] monad.
    - What the notebook delegates to a library and does not fix itself
      (json.loads, numpy's sum, numpy's conversion of a non-numeric object,
      the seeded permutation, the torch primitives) is an operation of a
      type class. *)

From Stdlib Require Import ZArith SpecFloat String Ascii Lia.
From stdpp Require Import numbers strings gmap sorting list.

Set Warnings "-register-all".
Set Default Proof Using "Type".

Open Scope Z_scope.

(* ===================================================================== *)
(** * Part I: the embedding                                               *)
(* ===================================================================== *)

(** ** Outcomes: a value or a raised exception *)

Inductive exn :=
  | KeyError | IndexError | TypeError | ValueError | AttributeError
  | ZeroDivisionError | OverflowError | JSONDecodeError.

Inductive result (A : Type) :=
  | Ok (a : A)
  | Raise (e : exn).
Arguments Ok {A} a.
Arguments Raise {A} e.

Global Instance exn_eq_dec : EqDecision exn.
Proof. solve_decision. Defined.

Global Instance result_eq_dec {A} `{EqDecision A} : EqDecision (result A).
Proof. solve_decision. Defined.

Global Instance result_ret : MRet result := λ A, Ok.
Global Instance result_bind : MBind result := λ A B f m,
  match m with
  | Ok a => f a
  | Raise e => Raise e
  end.

Global Instance result_fmap : FMap result := λ A B f m,
  match m with
  | Ok a => Ok (f a)
  | Raise e => Raise e
  end.

Definition raises {A} (r : result A) : Prop := ∃ e, r = Raise e.
Definition returns {A} (r : result A) : Prop := ∃ a, r = Ok a.

(** [for x in xs: st = body(st, x)], stopping at the first exception. *)
Fixpoint for_each {St X} (body : St → X → result St) (xs : list X) (st : St)
    : result St :=
  match xs with
  | [] => Ok st
  | x :: xs' => st' ← body st x; for_each body xs' st'
  end.

(** [range(n)] *)
Definition range (n : nat) : list nat := seq 0 n.

(** ** Floats

    Python's [float] and numpy's [float64] are the binary64 numbers of
    IEEE 754, here the [spec_float] of the Standard Library with a
    mantissa of 53 bits: a signed zero, a signed infinity, NaN, or
    [S754_finite s m e] for the number [(-1)^s * m * 2^e].  The
    operations round to the nearest double, ties to even. *)

Definition float64 : Type := spec_float.
Definition prec : Z := 53.
Definition emax : Z := 1024.

Global Instance float64_eq_dec : EqDecision float64.
Proof. unfold float64. solve_decision. Defined.

Definition NaN : float64 := S754_nan.
Definition PInf : float64 := S754_infinity false.
Definition NInf : float64 := S754_infinity true.

(** [0.0] *)
Definition fzero : float64 := S754_zero false.

Definition fneg (x : float64) : float64 := SFopp x.
Definition fadd (x y : float64) : float64 := SFadd prec emax x y.
Definition fdiv (x y : float64) : float64 := SFdiv prec emax x y.

(** The double nearest to the integer [z]; an infinity when [z] is beyond
    the doubles. *)
Definition float_of_int (z : Z) : float64 := binary_normalize prec emax z 0 false.

(** [float(z)] for an [int] [z], which is also how numpy converts an
    [int] that is stored in a [float64] array: OverflowError when [z] is
    beyond the doubles. *)
Definition py_float_of_int (z : Z) : result float64 :=
  match float_of_int z with
  | S754_infinity _ => Raise OverflowError
  | x => Ok x
  end.

(** The double nearest to [digits * 10 ^ e10], for [digits] that are not
    negative, with the sign [neg]: the value [float] gives a decimal
    numeral.  The quotient by a power of ten is rounded once. *)
Definition float_of_decimal (neg : bool) (digits e10 : Z) : float64 :=
  match digits with
  | Zpos p =>
      if decide (0 ≤ e10) then
        binary_normalize prec emax (cond_Zopp neg (Zpos p * 10 ^ e10)) 0 false
      else
        let '(m, e, l) :=
          SFdiv_core_binary prec emax (Zpos p) 0 (10 ^ (- e10)) 0 in
        binary_round_aux prec emax neg m e l
  | _ => S754_zero neg
  end.

(** Python's [x / n] for a float [x] and an int [n]. *)
Definition py_truediv (x : float64) (n : Z) : result float64 :=
  if decide (n = 0) then Raise ZeroDivisionError
  else y ← py_float_of_int n; Ok (fdiv x y).

(** numpy's [x / n] for a [np.float64] [x] and the length [n] of a list:
    with numpy's default error state a division by zero is a warning and
    the result is an infinity or NaN, no exception. *)
Definition np_truediv (x : float64) (n : nat) : float64 :=
  fdiv x (float_of_int (Z.of_nat n)).

(** ** Strings *)

Definition code (c : ascii) : Z := Z.of_N (N_of_ascii c).

Definition in_range (lo hi : Z) (c : ascii) : bool :=
  (lo <=? code c) && (code c <=? hi).

(** The characters [str.split()] splits on and [str.isspace()] accepts. *)
Definition isspace_char (c : ascii) : bool :=
  in_range 9 13 c || in_range 28 32 c || (code c =? 133) || (code c =? 160).

(** The characters of the Unicode letter categories. *)
Definition isalpha_char (c : ascii) : bool :=
  in_range 65 90 c || in_range 97 122 c
  || (code c =? 170) || (code c =? 181) || (code c =? 186)
  || in_range 192 214 c || in_range 216 246 c || in_range 248 255 c.

Definition isdigit_char (c : ascii) : bool := in_range 48 57 c.

Fixpoint forall_chars (p : ascii → bool) (s : string) : bool :=
  match s with
  | EmptyString => true
  | String c s' => p c && forall_chars p s'
  end.

(** [s.isalpha()]: every character is a letter and there is at least one. *)
Definition isalpha (s : string) : bool :=
  match s with
  | EmptyString => false
  | _ => forall_chars isalpha_char s
  end.

(** [s.split()]: the maximal runs of characters that are not whitespace. *)
Fixpoint split (s : string) : list string :=
  match s with
  | EmptyString => []
  | String c s' =>
      if isspace_char c then split s'
      else match s' with
           | EmptyString => [String c EmptyString]
           | String c' _ =>
               if isspace_char c' then String c EmptyString :: split s'
               else match split s' with
                    | t :: ts => String c t :: ts
                    | [] => [String c EmptyString]
                    end
           end
  end.

(** [ord(s)]: the code point of a string of length one, TypeError otherwise. *)
Definition ord (s : string) : result Z :=
  match s with
  | String c EmptyString => Ok (code c)
  | _ => Raise TypeError
  end.

(** ** [float(s)] on a string

    CPython checks the underscores (one may stand between two digits only),
    removes them, strips the surrounding whitespace and then reads
    [[sign] (digits [. digits] | . digits) [(e|E) [sign] digits]],
    [[sign] inf], [[sign] infinity] or [[sign] nan] (letters in either
    case); the whole string has to be consumed. *)

Definition underscore : ascii := "_"%char.
Definition nul : ascii := "000"%char.

Fixpoint strip_underscores (prev : ascii) (s : string) : option string :=
  match s with
  | EmptyString => if decide (prev = underscore) then None else Some EmptyString
  | String c s' =>
      if decide (c = underscore) then
        if isdigit_char prev then strip_underscores c s' else None
      else if bool_decide (prev = underscore) && negb (isdigit_char c) then None
      else String c <$> strip_underscores c s'
  end.

(** The whitespace [float] strips: C's [isspace], and the two whitespace
    characters above U+007F, which [float] first turns into a space. *)
Definition float_space (c : ascii) : bool :=
  in_range 9 13 c || (code c =? 32) || (code c =? 133) || (code c =? 160).

Fixpoint lstrip (s : string) : string :=
  match s with
  | EmptyString => EmptyString
  | String c s' => if float_space c then lstrip s' else s
  end.

Fixpoint rstrip (s : string) : string :=
  match s with
  | EmptyString => EmptyString
  | String c s' =>
      match rstrip s' with
      | EmptyString => if float_space c then EmptyString else String c EmptyString
      | t => String c t
      end
  end.

Definition lower_char (c : ascii) : ascii :=
  if in_range 65 90 c then ascii_of_N (N_of_ascii c + 32) else c.

Fixpoint lower (s : string) : string :=
  match s with
  | EmptyString => EmptyString
  | String c s' => String (lower_char c) (lower s')
  end.

(** An optional sign: whether it is a minus, and the rest. *)
Definition parse_sign (s : string) : bool * string :=
  match s with
  | String "-" r => (true, r)
  | String "+" r => (false, r)
  | _ => (false, s)
  end.

(** The longest prefix of digits, and the rest. *)
Fixpoint span_digits (s : string) : string * string :=
  match s with
  | EmptyString => (EmptyString, EmptyString)
  | String c s' =>
      if isdigit_char c then
        let '(ds, r) := span_digits s' in (String c ds, r)
      else (EmptyString, s)
  end.

Fixpoint digits_value_from (acc : Z) (ds : string) : Z :=
  match ds with
  | EmptyString => acc
  | String c ds' => digits_value_from (10 * acc + (code c - 48)) ds'
  end.

Definition digits_value (ds : string) : Z := digits_value_from 0 ds.

Definition parse_exponent (s : string) : option Z :=
  match s with
  | EmptyString => Some 0
  | String c r =>
      if decide (lower_char c = "e"%char) then
        let '(neg, r1) := parse_sign r in
        let '(ds, rest) := span_digits r1 in
        match ds, rest with
        | String _ _, EmptyString =>
            Some (if neg then - digits_value ds else digits_value ds)
        | _, _ => None
        end
      else None
  end.

Definition parse_float (s : string) : option float64 :=
  let '(neg, r) := parse_sign s in
  let sgn x := if neg then fneg x else x in
  let lr := lower r in
  if decide (lr = "inf" ∨ lr = "infinity") then Some (sgn PInf)
  else if decide (lr = "nan") then Some NaN
  else
    let '(ip, r1) := span_digits r in
    let '(fp, r2) :=
      match r1 with
      | String "." r' => span_digits r'
      | _ => (EmptyString, r1)
      end in
    match (ip +:+ fp)%string with
    | EmptyString => None
    | ds =>
        e ← parse_exponent r2;
        Some (float_of_decimal neg (digits_value ds)
                (e - Z.of_nat (String.length fp)))
    end.

Definition float_of_str (s : string) : result float64 :=
  match strip_underscores nul s with
  | None => Raise ValueError
  | Some s' =>
      match parse_float (rstrip (lstrip s')) with
      | Some x => Ok x
      | None => Raise ValueError
      end
  end.

(** ** JSON values, as [json.loads] builds them

    An object is a [dict] with string keys, an array a [list]; a number is
    an [int] or a [float]. *)

Inductive json :=
  | JNull
  | JBool (b : bool)
  | JInt (z : Z)
  | JFloat (x : float64)
  | JStr (s : string)
  | JArr (l : list json)
  | JObj (m : gmap string json).

(** [needle in hay] for two strings: [needle] occurs in [hay]. *)
Fixpoint contains (needle hay : string) : bool :=
  String.prefix needle hay
  || match hay with
     | EmptyString => false
     | String _ hay' => contains needle hay'
     end.

Definition is_jstr (k : string) (v : json) : bool :=
  match v with
  | JStr s => bool_decide (s = k)
  | _ => false
  end.

(** [k in v] for a string [k]. *)
Definition py_in (k : string) (v : json) : result bool :=
  match v with
  | JObj m => Ok (bool_decide (is_Some (m !! k)))
  | JArr l => Ok (existsb (is_jstr k) l)
  | JStr s => Ok (contains k s)
  | JNull | JBool _ | JInt _ | JFloat _ => Raise TypeError
  end.

(** [v[k]] for a string [k]. *)
Definition getitem_str (v : json) (k : string) : result json :=
  match v with
  | JObj m => match m !! k with
              | Some x => Ok x
              | None => Raise KeyError
              end
  | _ => Raise TypeError
  end.

(** [v[i]] for an index [i] that is not negative. *)
Definition getitem_int (v : json) (i : nat) : result json :=
  match v with
  | JArr l => match l !! i with
              | Some x => Ok x
              | None => Raise IndexError
              end
  | JStr s => match String.get i s with
              | Some c => Ok (JStr (String c EmptyString))
              | None => Raise IndexError
              end
  | JObj _ => Raise KeyError
  | JNull | JBool _ | JInt _ | JFloat _ => Raise TypeError
  end.

(** [len(v)] *)
Definition py_len (v : json) : result nat :=
  match v with
  | JArr l => Ok (length l)
  | JStr s => Ok (String.length s)
  | JObj m => Ok (size m)
  | JNull | JBool _ | JInt _ | JFloat _ => Raise TypeError
  end.

Definition int_of_bool (b : bool) : Z := if b then 1 else 0.

(** [float(v)] *)
Definition py_float (v : json) : result float64 :=
  match v with
  | JInt z => py_float_of_int z
  | JFloat x => Ok x
  | JBool b => Ok (float_of_int (int_of_bool b))
  | JStr s => float_of_str s
  | JNull | JArr _ | JObj _ => Raise TypeError
  end.

(** [a and b]: [b] is evaluated only when [a] is true. *)
Definition py_and (a b : result bool) : result bool :=
  x ← a; if x : bool then b else Ok false.

(** ** numpy *)

Class Numpy := {
  (** [np.sum(xs)] for a list [xs] of floats: numpy chooses the order of
      the additions; the sum of no number is [0.0]. *)
  np_sum_floats : list float64 → float64;
  np_sum_floats_nil : np_sum_floats [] = fzero;
  (** The float that [a[i] = v] stores in a row of width one, for an object
      [v] that is not a number (a str, a list, a dict, None), or the
      exception it raises. *)
  np_row_of_object : json → result float64;
  (** The same for [a[i, k] = v]. *)
  np_cell_of_object : json → result float64;
  (** [np.random.permutation(n)] right after [np.random.seed(42)]. *)
  np_permutation : nat → list nat;
  np_permutation_perm : ∀ n, np_permutation n ≡ₚ seq 0 n;
}.

(** ** [char_to_float]

<<
def char_to_float(s):
    parts = s.split()
    for i in range(len(parts)):
        if parts[i].isalpha():
            parts[i] = float(ord(parts[i]))/100
        else:
            parts[i] = float(parts[i])
    return np.sum(parts)/len(parts)
>>
    The list [parts] holds strings at first and is overwritten in place,
    one element per iteration, by floats. *)

Inductive cell :=
  | CStr (s : string)
  | CFloat (x : float64).

(** One iteration of the loop, at index [i]. *)
Definition ctf_body (parts : list cell) (i : nat) : result (list cell) :=
  match parts !! i with
  | None => Raise IndexError
  | Some (CFloat _) => Raise AttributeError
  | Some (CStr t) =>
      if isalpha t then
        c ← ord t;
        y ← py_float_of_int c;
        x ← py_truediv y 100;
        Ok (<[i := CFloat x]> parts)
      else
        x ← float_of_str t;
        Ok (<[i := CFloat x]> parts)
  end.

(** The floats of a list that holds floats only. *)
Fixpoint floats_of (parts : list cell) : option (list float64) :=
  match parts with
  | [] => Some []
  | CFloat x :: rest => cons x <$> floats_of rest
  | CStr _ :: _ => None
  end.

Section CharToFloat.
Context `{Numpy}.

(** [np.sum(parts)] on a list of floats; numpy refuses to add up strings. *)
Definition np_sum (parts : list cell) : result float64 :=
  match floats_of parts with
  | Some xs => Ok (np_sum_floats xs)
  | None => Raise TypeError
  end.

Definition char_to_float (s : string) : result float64 :=
  let parts := CStr <$> split s in
  parts ← for_each ctf_body (range (length parts)) parts;
  total ← np_sum parts;
  Ok (np_truediv total (length parts)).

(** [char_to_float(v)]: only a [str] has a [split] method. *)
Definition char_to_float_of (v : json) : result float64 :=
  match v with
  | JStr s => char_to_float s
  | _ => Raise AttributeError
  end.
End CharToFloat.

(** A two-dimensional [float64] array: the list of its rows. *)
Abbreviation ndarray := (list (list float64)).

Definition np_zeros (rows cols : nat) : ndarray :=
  replicate rows (replicate cols fzero).

(** The float a JSON value is stored as; [other] converts what is not a
    number. *)
Definition np_float (other : json → result float64) (v : json)
    : result float64 :=
  match v with
  | JInt z => py_float_of_int z
  | JFloat x => Ok x
  | JBool b => Ok (float_of_int (int_of_bool b))
  | _ => other v
  end.

(** [a[i] = x]: every cell of row [i] becomes [x]. *)
Definition set_row (a : ndarray) (i : nat) (x : float64) : result ndarray :=
  match a !! i with
  | Some row => Ok (<[i := replicate (length row) x]> a)
  | None => Raise IndexError
  end.

(** [a[i, k] = x] *)
Definition set_cell (a : ndarray) (i k : nat) (x : float64) : result ndarray :=
  match a !! i with
  | Some row =>
      if decide (k < length row)%nat then Ok (<[i := <[k := x]> row]> a)
      else Raise IndexError
  | None => Raise IndexError
  end.

(** [a[idx]] for a list of row indices. *)
Fixpoint take_rows (a : ndarray) (idx : list nat) : result ndarray :=
  match idx with
  | [] => Ok []
  | j :: idx' =>
      match a !! j with
      | Some row => rows ← take_rows a idx'; Ok (row :: rows)
      | None => Raise IndexError
      end
  end.

(** ** The extraction loops

    The state of either loop: the two arrays and the list [indices]. *)

Record extraction := {
  all_inputs : ndarray;
  all_targets : ndarray;
  indices : list nat;
}.

Section Extraction.
Context `{Numpy}.

(** [entry['exptl_crystal'][0]] *)
Definition first_crystal (entry : json) : result json :=
  xc ← getitem_str entry "exptl_crystal"; getitem_int xc 0.

(** Problem 1:
<<
for i in range(len(data)):
    entry = data[i]['entry']
    if 'exptl_crystal' in entry and 'density_matthews' in entry['exptl_crystal'][0] and 'density_percent_sol' in entry['exptl_crystal'][0]:
        all_inputs[i] = entry['exptl_crystal'][0]['density_matthews']
        all_targets[i] = entry['exptl_crystal'][0]['density_percent_sol']
        indices.append(i)
>> *)
Definition problem1_cond (entry : json) : result bool :=
  py_and (py_in "exptl_crystal" entry)
    (py_and (c ← first_crystal entry; py_in "density_matthews" c)
            (c ← first_crystal entry; py_in "density_percent_sol" c)).

Definition problem1_body (data : json) (st : extraction) (i : nat)
    : result extraction :=
  rec ← getitem_int data i;
  entry ← getitem_str rec "entry";
  cond ← problem1_cond entry;
  if cond : bool then
    c ← first_crystal entry;
    v ← getitem_str c "density_matthews";
    x ← np_float np_row_of_object v;
    inputs ← set_row (all_inputs st) i x;
    c ← first_crystal entry;
    v ← getitem_str c "density_percent_sol";
    y ← np_float np_row_of_object v;
    targets ← set_row (all_targets st) i y;
    Ok {| all_inputs := inputs; all_targets := targets;
          indices := indices st ++ [i] |}
  else Ok st.

Definition problem1_loop (data : json) : result extraction :=
  n ← py_len data;
  for_each (problem1_body data) (range n)
    {| all_inputs := np_zeros n 1; all_targets := np_zeros n 1;
       indices := [] |}.

(** [all_inputs = all_inputs[indices]; all_targets = all_targets[indices]] *)
Definition select (st : extraction) : result (ndarray * ndarray) :=
  X ← take_rows (all_inputs st) (indices st);
  Y ← take_rows (all_targets st) (indices st);
  Ok (X, Y).

Definition problem1 (data : json) : result (ndarray * ndarray) :=
  st ← problem1_loop data; select st.

(** Problem 2:
<<
for i in range(len(data)):
    entry = data[i]['entry']
    if 'cell' in entry and 'density_matthews' in entry['exptl_crystal'][0]:
        all_inputs[i, 0] = entry['cell']['angle_alpha']
        all_inputs[i, 1] = entry['cell']['angle_beta']
        all_inputs[i, 2] = entry['cell']['angle_gamma']
        all_inputs[i, 3] = entry['cell']['length_a']
        all_inputs[i, 4] = entry['cell']['length_b']
        all_inputs[i, 5] = entry['cell']['length_c']
        all_inputs[i, 6] = char_to_float(entry['symmetry']['space_group_name_hm'])
        all_inputs[i, 7] = float(entry['symmetry']['int_tables_number'])
        all_inputs[i, 8] = len(entry['pdbx_seq_one_letter_code'])*110
        all_targets[i] = entry['exptl_crystal'][0]['density_matthews']
        indices.append(i)
>> *)
Definition problem2_cond (entry : json) : result bool :=
  py_and (py_in "cell" entry)
         (c ← first_crystal entry; py_in "density_matthews" c).

(** [all_inputs[i, k] = entry['cell'][field]] *)
Definition set_cell_field (entry : json) (field : string) (i k : nat)
    (a : ndarray) : result ndarray :=
  cell ← getitem_str entry "cell";
  v ← getitem_str cell field;
  x ← np_float np_cell_of_object v;
  set_cell a i k x.

Definition problem2_body (data : json) (st : extraction) (i : nat)
    : result extraction :=
  rec ← getitem_int data i;
  entry ← getitem_str rec "entry";
  cond ← problem2_cond entry;
  if cond : bool then
    a ← set_cell_field entry "angle_alpha" i 0 (all_inputs st);
    a ← set_cell_field entry "angle_beta" i 1 a;
    a ← set_cell_field entry "angle_gamma" i 2 a;
    a ← set_cell_field entry "length_a" i 3 a;
    a ← set_cell_field entry "length_b" i 4 a;
    a ← set_cell_field entry "length_c" i 5 a;
    sym ← getitem_str entry "symmetry";
    name ← getitem_str sym "space_group_name_hm";
    x ← char_to_float_of name;
    a ← set_cell a i 6 x;
    sym ← getitem_str entry "symmetry";
    num ← getitem_str sym "int_tables_number";
    x ← py_float num;
    a ← set_cell a i 7 x;
    seq ← getitem_str entry "pdbx_seq_one_letter_code";
    n ← py_len seq;
    x ← py_float_of_int (Z.of_nat n * 110);
    a ← set_cell a i 8 x;
    c ← first_crystal entry;
    v ← getitem_str c "density_matthews";
    y ← np_float np_row_of_object v;
    targets ← set_row (all_targets st) i y;
    Ok {| all_inputs := a; all_targets := targets;
          indices := indices st ++ [i] |}
  else Ok st.

Definition problem2_loop (data : json) : result extraction :=
  n ← py_len data;
  for_each (problem2_body data) (range n)
    {| all_inputs := np_zeros n 9; all_targets := np_zeros n 1;
       indices := [] |}.

Definition problem2 (data : json) : result (ndarray * ndarray) :=
  st ← problem2_loop data; select st.

(** The train/test split:
<<
indices = np.random.permutation(len(all_inputs))
train_indices = indices[:5 * len(all_inputs) // 6]
test_indices = indices[5 * len(all_inputs) // 6:]
inputs_training = all_inputs[train_indices]
targets_training = all_targets[train_indices]
inputs_testing = all_inputs[test_indices]
targets_testing = all_targets[test_indices]
>> *)
Definition split_point (n : nat) : nat := (5 * n / 6)%nat.

Definition train_indices (n : nat) : list nat :=
  take (split_point n) (np_permutation n).

Definition test_indices (n : nat) : list nat :=
  drop (split_point n) (np_permutation n).

Record datasets := {
  inputs_training : ndarray;
  targets_training : ndarray;
  inputs_testing : ndarray;
  targets_testing : ndarray;
}.

Definition train_test_split (X Y : ndarray) : result datasets :=
  let n := length X in
  xtr ← take_rows X (train_indices n);
  ytr ← take_rows Y (train_indices n);
  xte ← take_rows X (test_indices n);
  yte ← take_rows Y (test_indices n);
  Ok {| inputs_training := xtr; targets_training := ytr;
        inputs_testing := xte; targets_testing := yte |}.
End Extraction.

(** ** Loading the dataset

<<
jsons = []
with gzip.open('../../../supplemental_material/pdb/dataset_6000.gz', 'r') as file:
    for line in file:
        jsons.append(json.loads(line))
data = jsons[0]
print(str(len(data)) + " entries")
>>
    The file is given by its decompressed content. *)

Class JsonLib := {
  (** [json.loads(line)]: the value, or JSONDecodeError. *)
  json_loads : string → result json;
}.

Definition newline : ascii := "010"%char.

(** The lines a file object iterates over: each one ends with its newline,
    the last one may lack it. *)
Fixpoint file_lines (content : string) : list string :=
  match content with
  | EmptyString => []
  | String c rest =>
      if decide (c = newline) then String c EmptyString :: file_lines rest
      else match file_lines rest with
           | line :: lines => String c line :: lines
           | [] => [String c EmptyString]
           end
  end.

Section Loading.
Context `{JsonLib}.

Definition append_json (jsons : list json) (line : string)
    : result (list json) :=
  v ← json_loads line; Ok (jsons ++ [v]).

Definition load_jsons (content : string) : result (list json) :=
  for_each append_json (file_lines content) [].

Definition first_json (jsons : list json) : result json :=
  match jsons !! 0%nat with
  | Some d => Ok d
  | None => Raise IndexError
  end.

(** The variable [data] after the first three cells. *)
Definition load_data (content : string) : result json :=
  jsons ← load_jsons content;
  data ← first_json jsons;
  _ ← py_len data;
  Ok data.
End Loading.

(** The cells that build both problems' datasets, from the variable [data]
    on and from the file on. *)
Section Notebook.
Context `{Numpy} `{JsonLib}.

Definition datasets_of (data : json) : result (datasets * datasets) :=
  '(X1, Y1) ← problem1 data;
  d1 ← train_test_split X1 Y1;
  '(X2, Y2) ← problem2 data;
  d2 ← train_test_split X2 Y2;
  Ok (d1, d2).

Definition notebook (content : string) : result (datasets * datasets) :=
  data ← load_data content; datasets_of data.
End Notebook.

(** ** The training loop

<<
num_epochs = 1000
losses = []
data_loader = DataLoader(TensorDataset(input_tensor,target_tensor), batch_size=64)
for epoch in range(num_epochs):
    epoch_loss = 0.0
    for i, dataset in enumerate(data_loader):
        inputs, targets = dataset
        optimizer.zero_grad()
        outputs = model(inputs)
        loss = criterion(outputs, targets)
        loss.backward()
        optimizer.step()
        epoch_loss += loss.item()
    losses.append(epoch_loss)
    print(f'Epoch {epoch:5d}, loss {epoch_loss:.3f}')
    scheduler.step()
>>
    The torch primitives are operations on an abstract state [net]: the
    parameters of the model with their gradients, and the state of the
    optimizer and of the scheduler. *)

Class Torch := {
  net : Type;
  tensor : Type;
  zero_grad : net → net;
  forward : net → ndarray → tensor;
  mse_loss : tensor → ndarray → tensor;
  backward : net → tensor → net;
  adam_step : net → net;
  loss_item : tensor → float64;
  scheduler_step : net → net;
}.

(** The calls the loop makes, in the order it makes them. *)
Inductive event :=
  | EvZeroGrad
  | EvForward (inputs : ndarray)
  | EvLoss (value : float64)
  | EvBackward
  | EvStep
  | EvAppend (epoch_loss : float64)
  | EvPrint (epoch : nat)
  | EvScheduler.

Definition num_epochs : nat := 1000.
Definition batch_size : nat := 64.

(** [l] cut into runs of [k] elements, the last one shorter when [k] does
    not divide the length. *)
Fixpoint chunks_fuel {A} (fuel k : nat) (l : list A) : list (list A) :=
  match fuel with
  | O => []
  | S fuel' =>
      match l with
      | [] => []
      | _ => take k l :: chunks_fuel fuel' k (drop k l)
      end
  end.

Definition chunks {A} (k : nat) (l : list A) : list (list A) :=
  chunks_fuel (length l) k l.

(** The batches of [DataLoader(TensorDataset(X, Y), batch_size=64)], for
    [X] and [Y] with as many rows: the rows in order, 64 at a time. *)
Definition data_loader (X Y : ndarray) : list (ndarray * ndarray) :=
  (λ b, (b.*1, b.*2)) <$> chunks batch_size (zip X Y).

Section Training.
Context `{Torch}.

(** The state of the training: the net, the list [losses] and the calls
    made so far. *)
Record training := {
  tr_net : net;
  tr_losses : list float64;
  tr_trace : list event;
}.

(** A call of a torch primitive: it acts on the net and is recorded. *)
Definition call (ev : event) (f : net → net) (st : training) : training :=
  {| tr_net := f (tr_net st); tr_losses := tr_losses st;
     tr_trace := tr_trace st ++ [ev] |}.

(** The body of the inner loop; [epoch_loss] goes with the state. *)
Definition train_batch (acc : training * float64) (b : ndarray * ndarray)
    : training * float64 :=
  let '(st, epoch_loss) := acc in
  let '(inputs, targets) := b in
  let st := call EvZeroGrad zero_grad st in
  let outputs := forward (tr_net st) inputs in
  let st := call (EvForward inputs) id st in
  let loss := mse_loss outputs targets in
  let st := call (EvLoss (loss_item loss)) id st in
  let st := call EvBackward (λ m, backward m loss) st in
  let st := call EvStep adam_step st in
  (st, fadd epoch_loss (loss_item loss)).

(** The body of the outer loop. *)
Definition train_epoch (batches : list (ndarray * ndarray))
    (st : training) (epoch : nat) : training :=
  let '(st, epoch_loss) := fold_left train_batch batches (st, fzero) in
  let st := {| tr_net := tr_net st;
               tr_losses := tr_losses st ++ [epoch_loss];
               tr_trace := tr_trace st ++ [EvAppend epoch_loss] |} in
  let st := call (EvPrint epoch) id st in
  call EvScheduler scheduler_step st.

Definition train_for (epochs : nat) (m : net) (X Y : ndarray) : training :=
  fold_left (train_epoch (data_loader X Y)) (range epochs)
    {| tr_net := m; tr_losses := []; tr_trace := [] |}.

Definition train (m : net) (X Y : ndarray) : training :=
  train_for num_epochs m X Y.
End Training.

(** ** [char_to_float] as a transition system

    The same function, statement by statement, over the variables it can
    see: its local list [parts] and loop counter, and the notebook's global
    variables, which are live when the Problem-2 loop calls it. *)

Record globals := {
  g_jsons : list json;
  g_data : json;
  g_loop : extraction;
}.

Inductive control :=
  | Loop (i n : nat) (parts : list cell)
      (** before iteration [i] of [for i in range(n)] *)
  | Done (r : result float64)
      (** returned, or raised *).

Definition ctf_init (s : string) : control :=
  let parts := CStr <$> split s in Loop 0 (length parts) parts.

Section CharToFloatSteps.
Context `{Numpy}.

Inductive ctf_step : globals * control → globals * control → Prop :=
  | step_alpha g i n parts t c y x :
      (i < n)%nat →
      parts !! i = Some (CStr t) →
      isalpha t = true →
      ord t = Ok c →
      py_float_of_int c = Ok y →
      py_truediv y 100 = Ok x →
      ctf_step (g, Loop i n parts) (g, Loop (S i) n (<[i := CFloat x]> parts))
  | step_alpha_raise g i n parts t e :
      (i < n)%nat →
      parts !! i = Some (CStr t) →
      isalpha t = true →
      ord t = Raise e →
      ctf_step (g, Loop i n parts) (g, Done (Raise e))
  | step_alpha_float_raise g i n parts t c e :
      (i < n)%nat →
      parts !! i = Some (CStr t) →
      isalpha t = true →
      ord t = Ok c →
      py_float_of_int c = Raise e →
      ctf_step (g, Loop i n parts) (g, Done (Raise e))
  | step_alpha_div_raise g i n parts t c y e :
      (i < n)%nat →
      parts !! i = Some (CStr t) →
      isalpha t = true →
      ord t = Ok c →
      py_float_of_int c = Ok y →
      py_truediv y 100 = Raise e →
      ctf_step (g, Loop i n parts) (g, Done (Raise e))
  | step_float g i n parts t x :
      (i < n)%nat →
      parts !! i = Some (CStr t) →
      isalpha t = false →
      float_of_str t = Ok x →
      ctf_step (g, Loop i n parts) (g, Loop (S i) n (<[i := CFloat x]> parts))
  | step_float_raise g i n parts t e :
      (i < n)%nat →
      parts !! i = Some (CStr t) →
      isalpha t = false →
      float_of_str t = Raise e →
      ctf_step (g, Loop i n parts) (g, Done (Raise e))
  | step_not_str g i n parts x :
      (i < n)%nat →
      parts !! i = Some (CFloat x) →
      ctf_step (g, Loop i n parts) (g, Done (Raise AttributeError))
  | step_no_item g i n parts :
      (i < n)%nat →
      parts !! i = None →
      ctf_step (g, Loop i n parts) (g, Done (Raise IndexError))
  | step_return g i n parts total :
      (n ≤ i)%nat →
      np_sum parts = Ok total →
      ctf_step (g, Loop i n parts)
               (g, Done (Ok (np_truediv total (length parts))))
  | step_return_raise g i n parts e :
      (n ≤ i)%nat →
      np_sum parts = Raise e →
      ctf_step (g, Loop i n parts) (g, Done (Raise e)).

(** A call of [char_to_float(s)] with globals [g] ends with outcome [r] and
    globals [g']. *)
Definition ctf_call (g : globals) (s : string) (g' : globals)
    (r : result float64) : Prop :=
  rtc ctf_step (g, ctf_init s) (g', Done r).
End CharToFloatSteps.

(* ===================================================================== *)
(** * Part II: the words of the properties                                *)
(* ===================================================================== *)

(** ** Tokens of a space-group name *)

(** A single alphabetic character. *)
Definition single_alpha (t : string) : bool :=
  match t with
  | String c EmptyString => isalpha_char c
  | _ => false
  end.

(** The text before the first point, and the text after it when there is
    one. *)
Fixpoint cut_at_point (s : string) : string * option string :=
  match s with
  | EmptyString => (EmptyString, None)
  | String c s' =>
      if decide (c = "."%char) then (EmptyString, Some s')
      else let '(a, b) := cut_at_point s' in (String c a, b)
  end.

Definition all_digits (s : string) : bool := forall_chars isdigit_char s.

(** A decimal numeral: an optional sign, then digits with at most one
    point among them, and at least one digit.  Its parts: whether it is
    negative, the digits before the point and the digits after it. *)
Definition numeral_parts (t : string) : option (bool * string * string) :=
  let '(neg, r) := parse_sign t in
  let '(ip, fp) := cut_at_point r in
  let fp := default EmptyString fp in
  if all_digits ip && all_digits fp
     && negb (bool_decide ((ip +:+ fp)%string = EmptyString))
  then Some (neg, ip, fp) else None.

Definition is_numeral (t : string) : bool :=
  bool_decide (is_Some (numeral_parts t)).

(** The double a decimal numeral denotes: the nearest to its value. *)
Definition numeral_float (t : string) : float64 :=
  match numeral_parts t with
  | Some (neg, ip, fp) =>
      float_of_decimal neg (digits_value (ip +:+ fp))
        (- Z.of_nat (String.length fp))
  | None => NaN
  end.

(** The value of a token: the character code over 100, divided as
    doubles, for an alphabetic token; the double it denotes for a numeric
    one. *)
Definition token_float (t : string) : float64 :=
  match t with
  | String c EmptyString =>
      if isalpha_char c then fdiv (float_of_int (code c)) (float_of_int 100)
      else numeral_float t
  | _ => numeral_float t
  end.

(** A token the specification speaks of: a single alphabetic character or
    a decimal numeral. *)
Definition simple_token (t : string) : bool := single_alpha t || is_numeral t.

(** A token [char_to_float] can convert: a single alphabetic character, or
    a token that is not alphabetic and that [float] accepts. *)
Definition convertible (t : string) : Prop :=
  single_alpha t = true ∨ (isalpha t = false ∧ returns (float_of_str t)).

(** What one iteration of [char_to_float]'s loop stores for a token. *)
Definition convert (t : string) : result float64 :=
  if isalpha t then
    c ← ord t; y ← py_float_of_int c; py_truediv y 100
  else float_of_str t.

Fixpoint convert_all (ts : list string) : result (list float64) :=
  match ts with
  | [] => Ok []
  | t :: ts' => x ← convert t; xs ← convert_all ts'; Ok (x :: xs)
  end.

(** The characters a decimal numeral is written with. *)
Definition numeral_char (c : ascii) : bool :=
  isdigit_char c || bool_decide (c = "+"%char) || bool_decide (c = "-"%char)
  || bool_decide (c = "."%char).

Definition starts_with_digit (s : string) : bool :=
  match s with
  | String c _ => isdigit_char c
  | EmptyString => false
  end.

Arguments isdigit_char : simpl never.
Arguments isalpha_char : simpl never.
Arguments isspace_char : simpl never.
Arguments float_space : simpl never.
Arguments lower_char : simpl never.
Arguments numeral_char : simpl never.
Arguments String.append : simpl nomatch.
Arguments float_of_int : simpl never.
Arguments float_of_decimal : simpl never.
Arguments py_float_of_int : simpl never.
Arguments fadd : simpl never.
Arguments fdiv : simpl never.

(** ** The training, in the words of the loop *)

(** A sum of floats from left to right, starting from [0.0]: the value of
    [epoch_loss] after the batches. *)
Definition fsum (xs : list float64) : float64 := fold_left fadd xs fzero.

(** The calls of one minibatch whose loss is [l], and the calls of one
    epoch whose batches have the losses [ls]: the batches in order, then
    one [losses.append] of the sum of the batch losses, the [print] and one
    step of the scheduler. *)
Definition batch_events (b : ndarray * ndarray) (l : float64) : list event :=
  [EvZeroGrad; EvForward b.1; EvLoss l; EvBackward; EvStep].

Definition epoch_events (batches : list (ndarray * ndarray))
    (epoch : nat) (ls : list float64) : list event :=
  concat (zip_with batch_events batches ls)
  ++ [EvAppend (fsum ls); EvPrint epoch; EvScheduler].

Section TrainingRuns.
Context `{Torch}.

(** One epoch that starts with the net [m]: for every minibatch in order,
    the gradients are zeroed, the model is applied to the inputs, the
    loss is taken against the targets, the gradients are computed from
    it and the optimizer steps.  The result: the losses of the batches
    and the net after the last one. *)
Fixpoint epoch_run (m : net) (batches : list (ndarray * ndarray))
    : list float64 * net :=
  match batches with
  | [] => ([], m)
  | (inputs, targets) :: rest =>
      let m1 := zero_grad m in
      let loss := mse_loss (forward m1 inputs) targets in
      let '(ls, m') := epoch_run (adam_step (backward m1 loss)) rest in
      (loss_item loss :: ls, m')
  end.

(** [k] epochs, the scheduler stepping once after each: the batch losses
    of every epoch, and the net after the last. *)
Fixpoint epochs_run (batches : list (ndarray * ndarray)) (k : nat) (m : net)
    : list (list float64) * net :=
  match k with
  | O => ([], m)
  | S k' =>
      let '(lss, m') := epochs_run batches k' m in
      let '(ls, m'') := epoch_run m' batches in
      (lss ++ [ls], scheduler_step m'')
  end.
End TrainingRuns.

(** A torch that counts the steps of the optimizer on the side of another
    one. *)
Definition counting (T : Torch) : Torch :=
  {| net := @net T * nat;
     tensor := @tensor T;
     zero_grad := λ mc, (zero_grad mc.1, mc.2);
     forward := λ mc inputs, forward mc.1 inputs;
     mse_loss := mse_loss;
     backward := λ mc loss, (backward mc.1 loss, mc.2);
     adam_step := λ mc, (adam_step mc.1, S mc.2);
     loss_item := loss_item;
     scheduler_step := λ mc, (scheduler_step mc.1, mc.2) |}.

(** ** Records and their fields *)

Definition is_ok {A} (r : result A) : bool :=
  match r with
  | Ok _ => true
  | Raise _ => false
  end.

(** A JSON number that a double can hold, and its float. *)
Definition is_number (v : json) : bool :=
  match v with
  | JInt z => is_ok (py_float_of_int z)
  | JFloat _ => true
  | _ => false
  end.

Definition number_value (v : json) : float64 :=
  match v with
  | JInt z => float_of_int z
  | JFloat x => x
  | _ => NaN
  end.

(** The ['entry'] mapping of a record, and the mapping that is the first
    element of its ['exptl_crystal'] list. *)
Definition entry_of (rec : json) : option (gmap string json) :=
  match rec with
  | JObj r => match r !! "entry" with
              | Some (JObj e) => Some e
              | _ => None
              end
  | _ => None
  end.

Definition crystal_of (e : gmap string json) : option (gmap string json) :=
  match e !! "exptl_crystal" with
  | Some (JArr (JObj c :: _)) => Some c
  | _ => None
  end.

(** The Matthews coefficient and the solvent content of a record whose
    entry has ['exptl_crystal'] and whose first crystal has both. *)
Definition densities (rec : json) : option (json * json) :=
  e ← entry_of rec;
  c ← crystal_of e;
  dm ← c !! "density_matthews";
  ds ← c !! "density_percent_sol";
  Some (dm, ds).

(** The Matthews coefficient of a record whose entry has ['cell'] and
    ['exptl_crystal'] and whose first crystal has it. *)
Definition cell_and_density (rec : json) : option json :=
  e ← entry_of rec;
  _ ← e !! "cell";
  c ← crystal_of e;
  c !! "density_matthews".

(** The records Problem 1 expects: a mapping with an ['entry'] mapping;
    ['exptl_crystal'], when present, is a list that starts with a mapping;
    the two densities, when both are present, are numbers. *)
Definition wf_record1 (rec : json) : bool :=
  match entry_of rec with
  | None => false
  | Some e =>
      match e !! "exptl_crystal" with
      | None => true
      | Some (JArr (JObj c :: _)) =>
          match c !! "density_matthews", c !! "density_percent_sol" with
          | Some dm, Some ds => is_number dm && is_number ds
          | _, _ => true
          end
      | Some _ => false
      end
  end.

Definition has_number (m : gmap string json) (k : string) : bool :=
  match m !! k with
  | Some v => is_number v
  | None => false
  end.

Definition cell_fields : list string :=
  ["angle_alpha"; "angle_beta"; "angle_gamma";
   "length_a"; "length_b"; "length_c"].

Definition wf_cell (e : gmap string json) : bool :=
  match e !! "cell" with
  | Some (JObj cell) => forallb (has_number cell) cell_fields
  | _ => false
  end.

Definition wf_sequence (e : gmap string json) : bool :=
  match e !! "pdbx_seq_one_letter_code" with
  | Some (JStr s) => is_ok (py_float_of_int (Z.of_nat (String.length s) * 110))
  | _ => false
  end.

Definition wf_crystal2 (e : gmap string json) : bool :=
  match crystal_of e with
  | Some c => has_number c "density_matthews"
  | None => false
  end.

(** A record that lacks the keys [K]: they are removed from its ['entry']
    mapping and from the first mapping of its ['exptl_crystal'] list. *)
Definition drop_keys (K : list string) (m : gmap string json)
    : gmap string json :=
  foldr delete m K.

Definition lacking_entry (K : list string) (e : gmap string json)
    : gmap string json :=
  let e' := drop_keys K e in
  match e' !! "exptl_crystal" with
  | Some (JArr (JObj c :: rest)) =>
      <["exptl_crystal" := JArr (JObj (drop_keys K c) :: rest)]> e'
  | _ => e'
  end.

Definition lacking (K : list string) (rec : json) : json :=
  match rec with
  | JObj r =>
      match r !! "entry" with
      | Some (JObj e) => JObj (<["entry" := JObj (lacking_entry K e)]> r)
      | _ => rec
      end
  | _ => rec
  end.

(** The indices Problem 1 keeps, in ascending order: the records with both
    densities. *)
Definition kept1 (recs : list json) : list nat :=
  filter (λ i, is_Some (recs !! i ≫= densities)) (seq 0 (length recs)).

(** The indices Problem 2 keeps, in ascending order: the records with
    ['cell'] and a Matthews coefficient. *)
Definition kept2 (recs : list json) : list nat :=
  filter (λ i, is_Some (recs !! i ≫= cell_and_density)) (seq 0 (length recs)).

(** The rows an extraction returns from what its iterations read: the
    values of the kept records, in their order. *)
Definition kept {R} (rs : list (option R)) : list R := omap id rs.

Section Records.
Context `{Numpy}.

Definition wf_symmetry (e : gmap string json) : bool :=
  match e !! "symmetry" with
  | Some (JObj sym) =>
      match sym !! "space_group_name_hm", sym !! "int_tables_number" with
      | Some (JStr name), Some num =>
          is_ok (char_to_float name) && is_ok (py_float num)
      | _, _ => false
      end
  | _ => false
  end.

(** The records Problem 2 keeps without an exception: the entry has a
    ['cell'] mapping with its six numbers, a ['symmetry'] mapping with a
    space-group name [char_to_float] converts and a table number [float]
    converts, a string ['pdbx_seq_one_letter_code'], and an
    ['exptl_crystal'] list whose first mapping has a number
    ['density_matthews']. *)
Definition wf_record2 (rec : json) : bool :=
  match entry_of rec with
  | Some e => wf_cell e && wf_symmetry e && wf_sequence e && wf_crystal2 e
  | None => false
  end.

(** What the loops read from one record, apart from the arrays they write
    to.  [entry['exptl_crystal'][0][key]] as the float numpy stores in a
    row: *)
Definition density (key : string) (entry : json) : result float64 :=
  c ← first_crystal entry;
  v ← getitem_str c key;
  np_float np_row_of_object v.

(** [entry['cell'][field]] as the float numpy stores in a cell: *)
Definition cell_field (entry : json) (field : string) : result float64 :=
  cell ← getitem_str entry "cell";
  v ← getitem_str cell field;
  np_float np_cell_of_object v.

(** [char_to_float(entry['symmetry']['space_group_name_hm'])],
    [float(entry['symmetry']['int_tables_number'])] and
    [len(entry['pdbx_seq_one_letter_code'])*110]: *)
Definition group_feature (entry : json) : result float64 :=
  sym ← getitem_str entry "symmetry";
  name ← getitem_str sym "space_group_name_hm";
  char_to_float_of name.

Definition table_feature (entry : json) : result float64 :=
  sym ← getitem_str entry "symmetry";
  num ← getitem_str sym "int_tables_number";
  py_float num.

Definition mass_feature (entry : json) : result float64 :=
  seq ← getitem_str entry "pdbx_seq_one_letter_code";
  n ← py_len seq;
  py_float_of_int (Z.of_nat n * 110).

(** The nine features of an entry, read in the order of the loop. *)
Definition features2 (entry : json) : result (list float64) :=
  x0 ← cell_field entry "angle_alpha";
  x1 ← cell_field entry "angle_beta";
  x2 ← cell_field entry "angle_gamma";
  x3 ← cell_field entry "length_a";
  x4 ← cell_field entry "length_b";
  x5 ← cell_field entry "length_c";
  x6 ← group_feature entry;
  x7 ← table_feature entry;
  x8 ← mass_feature entry;
  Ok [x0; x1; x2; x3; x4; x5; x6; x7; x8].

(** One record in Problem 1: nothing when the test fails, else the input
    and the target; an exception when one of the accesses raises. *)
Definition record1 (rec : json) : result (option (float64 * float64)) :=
  entry ← getitem_str rec "entry";
  cond ← problem1_cond entry;
  if cond : bool then
    x ← density "density_matthews" entry;
    y ← density "density_percent_sol" entry;
    Ok (Some (x, y))
  else Ok None.

(** One record in Problem 2: nothing when the test fails, else the nine
    features and the target. *)
Definition record2 (rec : json) : result (option (list float64 * float64)) :=
  entry ← getitem_str rec "entry";
  cond ← problem2_cond entry;
  if cond : bool then
    xs ← features2 entry;
    y ← density "density_matthews" entry;
    Ok (Some (xs, y))
  else Ok None.

(** The two arrays of Problem 1 and of Problem 2, from what the
    iterations read. *)
Definition rows1 (rs : list (option (float64 * float64))) : ndarray * ndarray :=
  ((λ p, [p.1]) <$> kept rs, (λ p, [p.2]) <$> kept rs).

Definition rows2 (rs : list (option (list float64 * float64)))
    : ndarray * ndarray :=
  ((λ p, p.1) <$> kept rs, (λ p, [p.2]) <$> kept rs).
End Records.

(** ** Auxiliary definitions of the proofs *)

(** The state of an extraction loop over [n] records whose arrays have
    the widths [w] and 1, after the iterations that read [rs]. *)
Definition state_after {R} (w n : nat) (rowX rowY : R → list float64)
    (rs : list (option R)) : extraction :=
  {| all_inputs :=
       (λ i, match rs !! i with
             | Some (Some v) => rowX v
             | _ => replicate w fzero
             end) <$> seq 0 n;
     all_targets :=
       (λ i, match rs !! i with
             | Some (Some v) => rowY v
             | _ => [fzero]
             end) <$> seq 0 n;
     indices := filter (λ i, is_Some (rs !! i ≫= id)) (seq 0 (length rs)) |}.

(** What an iteration that read [r] at index [k] does to the state. *)
Definition written {R} (rowX rowY : R → list float64) (st : extraction)
    (k : nat) (r : option R) : extraction :=
  match r with
  | Some v =>
      {| all_inputs := <[k := rowX v]> (all_inputs st);
         all_targets := <[k := rowY v]> (all_targets st);
         indices := indices st ++ [k] |}
  | None => st
  end.

(** Every row of an array has [w] cells. *)
Definition widths (w : nat) (a : ndarray) : Prop :=
  Forall (λ row, length row = w) a.

(** The shape of the two arrays, an invariant of either loop. *)
Definition shaped (w : nat) (st : extraction) : Prop :=
  widths w (all_inputs st) ∧ widths 1 (all_targets st).

(** ** Sample data of the examples *)

(** Two states of the notebook's globals. *)
Definition globals_a : globals :=
  {| g_jsons := []; g_data := JNull;
     g_loop := {| all_inputs := []; all_targets := []; indices := [] |} |}.

Definition globals_b : globals :=
  {| g_jsons := [JArr []]; g_data := JArr [];
     g_loop := {| all_inputs := np_zeros 2 9; all_targets := np_zeros 2 1;
                  indices := [0%nat] |} |}.

Definition obj (fields : list (string * json)) : json := JObj (list_to_map fields).

(** The double of the decimal [digits * 10 ^ e10], and the JSON float with
    this value. *)
Definition dbl (digits e10 : Z) : float64 :=
  float_of_decimal (bool_decide (digits < 0)) (Z.abs digits) e10.

Definition dec (digits e10 : Z) : json := JFloat (dbl digits e10).

Definition sample_cell : json :=
  obj [("angle_alpha", JInt 90); ("angle_beta", dec 1005 (-1));
       ("angle_gamma", JInt 90); ("length_a", dec 5012 (-2));
       ("length_b", dec 623 (-1)); ("length_c", dec 7845 (-2))].

Definition sample_symmetry : json :=
  obj [("space_group_name_hm", JStr "P 1 21 1"); ("int_tables_number", JInt 4)].

Definition sample_crystal : json :=
  obj [("density_matthews", dec 231 (-2)); ("density_percent_sol", dec 4675 (-2))].

(** An entry with every field. *)
Definition entry_full : gmap string json :=
  list_to_map [("cell", sample_cell); ("symmetry", sample_symmetry);
               ("pdbx_seq_one_letter_code", JStr "MKVLA");
               ("exptl_crystal", JArr [sample_crystal])].

(** Entries that lack ['cell'], ['symmetry'], ['exptl_crystal'], and whose
    crystal lacks ['density_matthews']. *)
Definition entry_no_cell : gmap string json := delete "cell" entry_full.
Definition entry_no_symmetry : gmap string json := delete "symmetry" entry_full.
Definition entry_no_crystal : gmap string json := delete "exptl_crystal" entry_full.
Definition entry_no_density : gmap string json :=
  <["exptl_crystal" := JArr [obj [("density_percent_sol", dec 4675 (-2))]]]> entry_full.

(** An entry whose angle is an integer no double can hold. *)
Definition entry_huge : gmap string json :=
  <["cell" := obj [("angle_alpha", JInt (10 ^ 400))]]> entry_full.

(** An entry whose ['exptl_crystal'] list is empty. *)
Definition entry_empty_crystal : gmap string json :=
  <["exptl_crystal" := JArr []]> entry_full.

Definition record (e : gmap string json) : json := JObj {[ "entry" := JObj e ]}.

(** The state of a loop over [n] records before its first iteration. *)
Definition state0 (n w : nat) : extraction :=
  {| all_inputs := np_zeros n w; all_targets := np_zeros n 1; indices := [] |}.

Definition sample_records : list json :=
  [record entry_full; record entry_no_cell; record entry_no_density].

Definition sample_records1 : list json :=
  [record entry_full; record entry_no_crystal; record entry_no_cell;
   record entry_no_density].

(** A numpy whose sum adds the numbers from left to right, starting from
    [0.0], that refuses every object that is not a number and whose
    permutation is the reversal. *)
Definition sample_numpy : Numpy :=
  {| np_sum_floats := fsum;
     np_sum_floats_nil := eq_refl;
     np_row_of_object := λ _, Raise TypeError;
     np_cell_of_object := λ _, Raise TypeError;
     np_permutation := λ n, reverse (seq 0 n);
     np_permutation_perm := λ n, reverse_Permutation (seq 0 n) |}.

(** A decoder of the lines [[]] and of the natural numbers. *)
Definition sample_json_loads (line : string) : result json :=
  let text := rstrip line in
  if decide (text = "[]") then Ok (JArr [])
  else if all_digits text && negb (bool_decide (text = EmptyString))
  then Ok (JInt (digits_value text))
  else Raise JSONDecodeError.

Definition sample_json : JsonLib := {| json_loads := sample_json_loads |}.

Definition sample_content (last : string) : string :=
  ("[]" +:+ String newline ("7" +:+ String newline last))%string.

(** A torch whose net counts the optimizer steps and whose loss is the
    batch size. *)
Definition sample_torch : Torch :=
  {| net := nat;
     tensor := float64;
     zero_grad := λ m, m;
     forward := λ _ inputs, float_of_int (Z.of_nat (length inputs));
     mse_loss := λ outputs _, outputs;
     backward := λ m _, m;
     adam_step := S;
     loss_item := λ loss, loss;
     scheduler_step := λ m, m |}.

(** The input and the target of Problem 1 on the samples. *)
Definition sample_X1 : ndarray := [[dbl 231 (-2)]; [dbl 231 (-2)]].

Definition sample_Y1 : ndarray := [[dbl 4675 (-2)]; [dbl 4675 (-2)]].

(** The feature matrix and the target of Problem 2 on the sample. *)
Definition sample_X2 : ndarray :=
  [[float_of_int 90; dbl 1005 (-1); float_of_int 90;
    dbl 5012 (-2); dbl 623 (-1); dbl 7845 (-2);
    dbl 595 (-2); float_of_int 4; float_of_int 550]].

Definition sample_Y2 : ndarray := [[dbl 231 (-2)]].

(** Three rows and their targets. *)
Definition sample_X : ndarray :=
  [[float_of_int 1]; [float_of_int 2]; [float_of_int 3]].

Definition sample_Y : ndarray :=
  [[float_of_int 10]; [float_of_int 20]; [float_of_int 30]].

(* ===================================================================== *)
(** * Part III: properties                                                *)
(* ===================================================================== *)

(** ** The result monad and [for_each] *)

Lemma bind_Ok {A B} (f : A → result B) (a : A) : (Ok a ≫= f) = f a.
Proof. reflexivity. Qed.

Lemma bind_Raise {A B} (f : A → result B) (e : exn) : (Raise e ≫= f) = Raise e.
Proof. reflexivity. Qed.

Lemma bind_Ok_inv {A B} (f : A → result B) (m : result A) (b : B) :
  (m ≫= f) = Ok b → ∃ a, m = Ok a ∧ f a = Ok b.
Proof. destruct m as [a|e]; [eauto | discriminate]. Qed.

Lemma returns_Ok {A} (a : A) : returns (Ok a).
Proof. by exists a. Qed.

Lemma raises_Raise {A} (e : exn) : raises (@Raise A e).
Proof. by exists e. Qed.

Lemma returns_not_raises {A} (r : result A) : returns r ↔ ¬ raises r.
Proof.
  split.
  - intros [a ->] [e He]. discriminate.
  - destruct r as [a|e]; [intros _; apply returns_Ok |].
    intros Hn. destruct Hn. apply raises_Raise.
Qed.

Lemma for_each_app {St X} (body : St → X → result St) (xs ys : list X)
    (st : St) :
  for_each body (xs ++ ys) st = (for_each body xs st ≫= for_each body ys).
Proof.
  revert st. induction xs as [|x xs IH]; intros st; [done|].
  simpl. destruct (body st x) as [st'|e]; simpl; [apply IH | done].
Qed.

Lemma for_each_snoc {St X} (body : St → X → result St) (xs : list X) (x : X)
    (st : St) :
  for_each body (xs ++ [x]) st = (st' ← for_each body xs st; body st' x).
Proof.
  rewrite for_each_app. destruct (for_each body xs st) as [st'|e]; simpl; [|done].
  by destruct (body st' x).
Qed.

Lemma is_ok_returns {A} (r : result A) : is_ok r = true ↔ returns r.
Proof.
  destruct r as [a|e]; cbn; split; try done.
  - intros _. apply returns_Ok.
  - by intros [? ?].
Qed.

(** ** [char_to_float]: the loop converts the tokens one by one *)

Lemma ctf_body_at (pre post : list cell) (t : string) :
  ctf_body (pre ++ CStr t :: post) (length pre)
  = (x ← convert t; Ok (pre ++ CFloat x :: post)).
Proof.
  unfold ctf_body, convert.
  rewrite list_lookup_middle by done.
  assert (Hins : ∀ x, <[length pre := CFloat x]> (pre ++ CStr t :: post)
                      = pre ++ CFloat x :: post).
  { intros x. rewrite insert_app_r_alt by lia.
    by replace (length pre - length pre)%nat with 0%nat by lia. }
  destruct (isalpha t).
  - destruct (ord t) as [c|e]; cbn; [|done].
    destruct (py_float_of_int c) as [y|e]; cbn; [|done].
    destruct (py_truediv y 100) as [x|e]; cbn; [|done].
    by rewrite Hins.
  - destruct (float_of_str t) as [x|e]; cbn; [|done]. by rewrite Hins.
Qed.

Lemma ctf_loop_from (done : list float64) (ts : list string) :
  for_each ctf_body (seq (length done) (length ts))
           ((CFloat <$> done) ++ (CStr <$> ts))
  = (xs ← convert_all ts; Ok (CFloat <$> (done ++ xs))).
Proof.
  revert done. induction ts as [|t ts IH]; intros done.
  - simpl. by rewrite !app_nil_r.
  - cbn [length seq for_each fmap list_fmap convert_all].
    pose proof (ctf_body_at (CFloat <$> done) (CStr <$> ts) t) as Hb.
    rewrite length_fmap in Hb. rewrite Hb. clear Hb.
    destruct (convert t) as [x|e]; cbn; [|done].
    specialize (IH (done ++ [x])).
    rewrite length_app, fmap_app, <- app_assoc in IH. cbn in IH.
    replace (length done + 1)%nat with (S (length done)) in IH by lia.
    rewrite IH. destruct (convert_all ts) as [xs|e]; cbn; [|done].
    by rewrite <- app_assoc.
Qed.

Lemma floats_of_floats (xs : list float64) : floats_of (CFloat <$> xs) = Some xs.
Proof. induction xs as [|x xs IH]; cbn; [done|]. by rewrite IH. Qed.

(** ** When a token is converted and when it raises *)

Lemma py_float_of_int_100 : py_float_of_int 100 = Ok (float_of_int 100).
Proof. reflexivity. Qed.

Lemma py_truediv_100_eq (x : float64) :
  py_truediv x 100 = Ok (fdiv x (float_of_int 100)).
Proof.
  unfold py_truediv. rewrite decide_False by lia.
  by rewrite py_float_of_int_100.
Qed.

Lemma py_truediv_100 (x : float64) : returns (py_truediv x 100).
Proof. rewrite py_truediv_100_eq. apply returns_Ok. Qed.

(** The code of a character is a small integer. *)
Lemma py_float_of_int_code (c : ascii) :
  py_float_of_int (code c) = Ok (float_of_int (code c)).
Proof.
  destruct c as [b0 b1 b2 b3 b4 b5 b6 b7].
  destruct b0, b1, b2, b3, b4, b5, b6, b7; reflexivity.
Qed.

Lemma single_alpha_isalpha (t : string) :
  single_alpha t = true ↔ isalpha t = true ∧ String.length t = 1%nat.
Proof.
  destruct t as [|c [|c' t]]; cbn.
  - split; [done | intros [? ?]; done].
  - rewrite andb_true_r. split; [done | by intros [? _]].
  - split; [done | intros [_ ?]; done].
Qed.

Lemma ord_returns (t : string) : returns (ord t) ↔ String.length t = 1%nat.
Proof.
  destruct t as [|c [|c' t]]; cbn.
  - split; [intros [? ?]; done | done].
  - split; [done | intros _; apply returns_Ok].
  - split; [intros [? ?]; done | done].
Qed.

Lemma ord_raises_TypeError (t : string) (e : exn) : ord t = Raise e → e = TypeError.
Proof. destruct t as [|c [|c' t]]; cbn; congruence. Qed.

Lemma float_of_str_raises_ValueError (t : string) (e : exn) :
  float_of_str t = Raise e → e = ValueError.
Proof.
  unfold float_of_str. destruct (strip_underscores nul t); [|congruence].
  destruct (parse_float _); congruence.
Qed.

Lemma convert_returns (t : string) : returns (convert t) ↔ convertible t.
Proof.
  unfold convert, convertible. rewrite single_alpha_isalpha.
  destruct (isalpha t) eqn:Ha.
  - rewrite <- ord_returns. split.
    + intros [x Hx]. left. split; [done|].
      destruct (ord t) as [c|e]; [apply returns_Ok | discriminate].
    + intros [[_ Hlen%ord_returns] | [? _]]; [|done].
      destruct t as [|c [|c' t]]; try done. cbn.
      rewrite py_float_of_int_code. cbn. apply py_truediv_100.
  - split; [by right | intros [[? _] | [_ ?]]; done].
Qed.

Lemma convert_raises (t : string) (e : exn) :
  convert t = Raise e → e = TypeError ∨ e = ValueError.
Proof.
  unfold convert. destruct (isalpha t).
  - destruct t as [|c [|c' t]]; cbn; try (intros [= <-]; by left).
    rewrite py_float_of_int_code. cbn.
    destruct (py_truediv_100 (float_of_int (code c))) as [x ->]. discriminate.
  - intros He. right. by eapply float_of_str_raises_ValueError.
Qed.

Lemma convert_all_returns (ts : list string) :
  returns (convert_all ts) ↔ Forall convertible ts.
Proof.
  induction ts as [|t ts IH]; cbn.
  - split; [constructor | intros _; apply returns_Ok].
  - rewrite Forall_cons_iff, <- IH, <- convert_returns. split.
    + intros [xs Hxs]. destruct (convert t) as [x|e]; [|discriminate].
      cbn in Hxs. destruct (convert_all ts) as [xs'|e]; [|discriminate].
      split; apply returns_Ok.
    + intros [[x ->] [xs ->]]. apply returns_Ok.
Qed.

Lemma convert_all_raises (ts : list string) (e : exn) :
  convert_all ts = Raise e → e = TypeError ∨ e = ValueError.
Proof.
  induction ts as [|t ts IH]; cbn; [done|].
  destruct (convert t) as [x|e'] eqn:Hc; cbn.
  - destruct (convert_all ts) as [xs|e'']; cbn; [done|].
    intros [= <-]. by apply IH.
  - intros [= <-]. by eapply convert_raises.
Qed.

(** [split] yields no token exactly on the strings of whitespace. *)
Lemma split_nil_iff (s : string) :
  split s = [] ↔ forall_chars isspace_char s = true.
Proof.
  induction s as [|c s IH]; cbn; [done|].
  destruct (isspace_char c); cbn; [done|].
  split; [|done].
  destruct s as [|c' s']; [done|].
  destruct (isspace_char c'); [done|]. by destruct (split (String c' s')).
Qed.

Lemma not_convertible_alpha (t : string) :
  isalpha t = true → (1 < String.length t)%nat → ¬ convertible t.
Proof.
  intros Ha Hlen [Hs | [Hn _]]; [|congruence].
  apply single_alpha_isalpha in Hs as [_ ?]. lia.
Qed.

Lemma not_convertible_float (t : string) :
  isalpha t = false → raises (float_of_str t) → ¬ convertible t.
Proof.
  intros Ha Hr [Hs | [_ Hret]].
  - apply single_alpha_isalpha in Hs as [? _]. congruence.
  - by apply returns_not_raises in Hret.
Qed.

(** ** When [char_to_float] returns and when it raises *)

Section CharToFloatFacts.
Context `{Numpy}.

(** [char_to_float] in closed form: convert every token, add up, divide. *)
Lemma char_to_float_eq (s : string) :
  char_to_float s
  = (xs ← convert_all (split s);
     Ok (np_truediv (np_sum_floats xs) (length xs))).
Proof.
  unfold char_to_float. rewrite length_fmap.
  pose proof (ctf_loop_from [] (split s)) as Hloop. cbn in Hloop.
  unfold range. rewrite Hloop.
  destruct (convert_all (split s)) as [xs|e]; cbn; [|done].
  unfold np_sum. rewrite floats_of_floats. cbn. by rewrite length_fmap.
Qed.

Lemma char_to_float_returns (s : string) :
  returns (char_to_float s) ↔ Forall convertible (split s).
Proof.
  rewrite char_to_float_eq, <- convert_all_returns.
  destruct (convert_all (split s)) as [xs|e]; cbn.
  - split; intros _; apply returns_Ok.
  - split; intros [? ?]; done.
Qed.

Lemma char_to_float_no_tokens (s : string) :
  split s = [] → char_to_float s = Ok NaN.
Proof.
  intros Hs. rewrite char_to_float_eq, Hs. cbn.
  by rewrite np_sum_floats_nil.
Qed.

Lemma char_to_float_raises_of (s t : string) :
  t ∈ split s → ¬ convertible t → raises (char_to_float s).
Proof.
  intros Hin Hbad.
  destruct (char_to_float s) as [x|e] eqn:Hc; [|apply raises_Raise].
  assert (Hret : returns (char_to_float s)) by (rewrite Hc; apply returns_Ok).
  apply char_to_float_returns in Hret.
  rewrite list.Forall_forall in Hret. destruct Hbad. by apply Hret.
Qed.

(** C8 (as amended).  [char_to_float] is partial.  It raises on every input
    that has an alphabetic token of more than one character (TypeError from
    [ord]) or a token that is neither alphabetic nor accepted by [float]
    (ValueError), and TypeError and ValueError are the only exceptions it
    raises.  It returns exactly when every token is a single alphabetic
    character or a non-alphabetic token that [float] accepts.  On the empty
    string and on a string of whitespace only, where there is no token, it
    does not raise: the division by the zero token count is numpy's and
    yields NaN. *)
Theorem char_to_float_partial (s : string) :
  (∀ t, t ∈ split s → isalpha t = true → (1 < String.length t)%nat →
        raises (char_to_float s))
  ∧ (∀ t, t ∈ split s → isalpha t = false → raises (float_of_str t) →
          raises (char_to_float s))
  ∧ (∀ e, char_to_float s = Raise e → e = TypeError ∨ e = ValueError)
  ∧ (returns (char_to_float s) ↔ Forall convertible (split s))
  ∧ (forall_chars isspace_char s = true → char_to_float s = Ok NaN).
Proof.
  split_and!.
  - intros t Hin Ha Hlen.
    eapply char_to_float_raises_of; [done|]. by apply not_convertible_alpha.
  - intros t Hin Ha Hr.
    eapply char_to_float_raises_of; [done|]. by apply not_convertible_float.
  - intros e. rewrite char_to_float_eq.
    destruct (convert_all (split s)) as [xs|e'] eqn:Hc; cbn; [done|].
    intros [= <-]. by eapply convert_all_raises.
  - apply char_to_float_returns.
  - intros Hs. apply char_to_float_no_tokens. by apply split_nil_iff.
Qed.
End CharToFloatFacts.

(** ** Decimal numerals and [float] *)

Lemma numeral_char_facts (c : ascii) :
  numeral_char c = true →
  c ≠ underscore ∧ float_space c = false ∧ isalpha_char c = false
  ∧ lower_char c = c.
Proof.
  destruct c as [[] [] [] [] [] [] [] []]; vm_compute; intros H;
    first [discriminate H | split_and!; [intros [=] | done..]].
Qed.

Lemma isdigit_numeral_char (c : ascii) : isdigit_char c = true → numeral_char c = true.
Proof. unfold numeral_char. by intros ->. Qed.

Lemma parse_sign_inv (t r : string) (neg : bool) :
  parse_sign t = (neg, r) →
  (t = String "-" r ∧ neg = true) ∨ (t = String "+" r ∧ neg = false)
  ∨ (t = r ∧ neg = false).
Proof.
  destruct t as [|c t]; cbn.
  - intros [= <- <-]. by right; right.
  - destruct c as [[] [] [] [] [] [] [] []]; intros [= <- <-]; auto.
Qed.

Lemma parse_sign_unsigned (r : string) :
  starts_with_digit r = true ∨ (∃ r', r = String "." r') ∨ r = EmptyString →
  parse_sign r = (false, r).
Proof.
  intros [Hd | [[r' ->] | ->]]; [|done..].
  destruct r as [|c r]; [done|]. cbn in Hd.
  destruct c as [[] [] [] [] [] [] [] []]; try done; vm_compute in Hd; done.
Qed.

Lemma forall_chars_app (p : ascii → bool) (a b : string) :
  forall_chars p (a +:+ b) = forall_chars p a && forall_chars p b.
Proof.
  induction a as [|c a IH]; simpl; [done|].
  rewrite <- andb_assoc. f_equal. exact IH.
Qed.

Lemma forall_chars_impl (p q : ascii → bool) (s : string) :
  (∀ c, p c = true → q c = true) →
  forall_chars p s = true → forall_chars q s = true.
Proof.
  intros Hpq. induction s as [|c s IH]; cbn; [done|].
  intros [Hc Hs]%andb_true_iff. by rewrite (Hpq c Hc), IH.
Qed.

Lemma all_digits_numeral_chars (s : string) :
  all_digits s = true → forall_chars numeral_char s = true.
Proof. apply forall_chars_impl, isdigit_numeral_char. Qed.

Lemma cut_at_point_inv (r ip : string) (fp : option string) :
  cut_at_point r = (ip, fp) →
  match fp with
  | None => r = ip
  | Some fp => r = (ip +:+ String "." fp)%string
  end.
Proof.
  revert ip fp. induction r as [|c r IH]; intros ip fp; cbn.
  - by intros [= <- <-].
  - destruct (decide (c = "."%char)) as [->|Hc].
    + by intros [= <- <-].
    + destruct (cut_at_point r) as [a b] eqn:Hcut. intros [= <- <-].
      specialize (IH a b eq_refl). destruct b; cbn; by rewrite IH.
Qed.

Lemma span_digits_all (a b : string) :
  all_digits a = true → starts_with_digit b = false →
  span_digits (a +:+ b) = (a, b).
Proof.
  intros Ha Hb. induction a as [|c a IH]; cbn.
  - destruct b as [|c b]; [done|]. cbn in Hb. cbn. by rewrite Hb.
  - cbn in Ha. apply andb_true_iff in Ha as [Hc Ha].
    by rewrite Hc, IH.
Qed.

Lemma append_empty_r (a : string) : (a +:+ "")%string = a.
Proof. induction a as [|c a IH]; cbn; [done | by rewrite IH]. Qed.

Lemma strip_underscores_id (prev : ascii) (t : string) :
  prev ≠ underscore → forall_chars numeral_char t = true →
  strip_underscores prev t = Some t.
Proof.
  revert prev. induction t as [|c t IH]; intros prev Hprev; cbn.
  - by rewrite decide_False.
  - intros [Hc Ht]%andb_true_iff.
    apply numeral_char_facts in Hc as (Hu & _).
    rewrite decide_False by done. rewrite bool_decide_eq_false_2 by done.
    cbn. by rewrite IH.
Qed.

Lemma lstrip_id (t : string) :
  forall_chars numeral_char t = true → lstrip t = t.
Proof.
  destruct t as [|c t]; cbn; [done|].
  intros [Hc _]%andb_true_iff.
  apply numeral_char_facts in Hc as (_ & -> & _). done.
Qed.

Lemma rstrip_id (t : string) :
  forall_chars numeral_char t = true → rstrip t = t.
Proof.
  induction t as [|c t IH]; cbn; [done|].
  intros [Hc Ht]%andb_true_iff. rewrite IH by done.
  apply numeral_char_facts in Hc as (_ & -> & _). by destruct t.
Qed.

Lemma lower_id (t : string) :
  forall_chars numeral_char t = true → lower t = t.
Proof.
  induction t as [|c t IH]; cbn; [done|].
  intros [Hc Ht]%andb_true_iff. rewrite IH by done.
  by apply numeral_char_facts in Hc as (_ & _ & _ & ->).
Qed.

Lemma isalpha_numeral_chars (t : string) :
  forall_chars numeral_char t = true → isalpha t = false.
Proof.
  destruct t as [|c t]; cbn; [done|].
  intros [Hc _]%andb_true_iff.
  by apply numeral_char_facts in Hc as (_ & _ & -> & _).
Qed.

(** What [numeral_parts] says about the text of a numeral. *)
Lemma numeral_parts_inv (t ip fp : string) (neg : bool) :
  numeral_parts t = Some (neg, ip, fp) →
  ∃ r rest,
    parse_sign t = (neg, r) ∧ r = (ip +:+ rest)%string
    ∧ (rest = EmptyString ∧ fp = EmptyString ∨ rest = String "." fp)
    ∧ all_digits ip = true ∧ all_digits fp = true
    ∧ (ip +:+ fp)%string ≠ EmptyString.
Proof.
  unfold numeral_parts.
  destruct (parse_sign t) as [neg' r] eqn:Hsign.
  destruct (cut_at_point r) as [ip' ofp] eqn:Hcut.
  destruct (all_digits ip') eqn:Hip; [|done].
  destruct (all_digits (default EmptyString ofp)) eqn:Hfp; [|done].
  cbn. case_bool_decide as Hne; [done|]. cbn. intros [= <- <- <-].
  apply cut_at_point_inv in Hcut.
  destruct ofp as [fp|]; cbn in *.
  - exists r, (String "." fp). split_and!; auto.
  - exists r, EmptyString. rewrite append_empty_r in *. split_and!; auto.
Qed.

Lemma numeral_chars (t ip fp : string) (neg : bool) :
  numeral_parts t = Some (neg, ip, fp) →
  forall_chars numeral_char t = true ∧ t ≠ EmptyString.
Proof.
  intros (r & rest & Hsign & -> & Hrest & Hip & Hfp & Hne)%numeral_parts_inv.
  assert (Hr : forall_chars numeral_char (ip +:+ rest) = true
               ∧ (ip +:+ rest)%string ≠ EmptyString).
  { rewrite forall_chars_app, all_digits_numeral_chars by done.
    destruct Hrest as [[-> ->] | ->]; cbn.
    - split; [done|]. by rewrite append_empty_r in *.
    - rewrite all_digits_numeral_chars by done. split; [done|].
      by destruct ip. }
  destruct Hr as [Hr1 Hr2].
  apply parse_sign_inv in Hsign as [[-> _] | [[-> _] | [-> _]]]; cbn;
    by rewrite ?Hr1.
Qed.

Lemma parse_float_numeral (t ip fp rest : string) (neg : bool) :
  parse_sign t = (neg, (ip +:+ rest)%string) →
  all_digits ip = true → all_digits fp = true →
  (ip +:+ fp)%string ≠ EmptyString →
  (rest = EmptyString ∧ fp = EmptyString ∨ rest = String "." fp) →
  parse_float t
  = Some (float_of_decimal neg (digits_value (ip +:+ fp))
            (- Z.of_nat (String.length fp))).
Proof.
  intros Hsign Hip Hfp Hne Hrest. unfold parse_float. rewrite Hsign.
  assert (Hchars : forall_chars numeral_char (ip +:+ rest) = true).
  { rewrite forall_chars_app, all_digits_numeral_chars by done.
    destruct Hrest as [[-> _] | ->]; simpl; [done|].
    by rewrite all_digits_numeral_chars. }
  rewrite lower_id by done.
  rewrite decide_False.
  2:{ intros [Heq | Heq]; rewrite Heq in Hchars; vm_compute in Hchars; done. }
  rewrite decide_False.
  2:{ intros Heq; rewrite Heq in Hchars; vm_compute in Hchars; done. }
  rewrite span_digits_all; [|done|by destruct Hrest as [[-> _] | ->]].
  assert (Hspan : match rest with
                  | String "." r' => span_digits r'
                  | _ => (EmptyString, rest)
                  end = (fp, EmptyString)).
  { destruct Hrest as [[-> ->] | ->]; [done|].
    pose proof (span_digits_all fp EmptyString Hfp eq_refl) as Hsp.
    by rewrite append_empty_r in Hsp. }
  rewrite Hspan.
  destruct (ip +:+ fp)%string as [|a ds] eqn:Hds; [done|].
  lazy beta iota zeta. rewrite <- Hds.
  change (parse_exponent EmptyString) with (Some 0). cbn [mbind option_bind].
  by rewrite Z.sub_0_l.
Qed.

Lemma float_of_str_numeral (t : string) :
  is_numeral t = true →
  float_of_str t = Ok (numeral_float t) ∧ isalpha t = false.
Proof.
  unfold is_numeral, numeral_float. intros Hn%bool_decide_eq_true.
  destruct Hn as [[[neg ip] fp] Hparts]. rewrite Hparts.
  pose proof (numeral_chars _ _ _ _ Hparts) as [Hchars Hne].
  split; [|by apply isalpha_numeral_chars].
  apply numeral_parts_inv in Hparts
    as (r & rest & Hsign & -> & Hrest & Hip & Hfp & Hds).
  unfold float_of_str.
  rewrite strip_underscores_id by done.
  rewrite lstrip_id, rstrip_id by done.
  by erewrite parse_float_numeral.
Qed.

(** ** [char_to_float] on single letters and decimal numerals *)

Lemma convert_simple_token (t : string) :
  simple_token t = true → convert t = Ok (token_float t).
Proof.
  unfold simple_token. intros [Ha | Hn]%orb_true_iff.
  - destruct t as [|c [|c' t]]; try done. cbn in Ha.
    unfold convert, token_float. cbn [isalpha forall_chars].
    rewrite Ha. cbn [andb ord mbind result_bind].
    rewrite py_float_of_int_code. cbn [mbind result_bind].
    apply py_truediv_100_eq.
  - apply float_of_str_numeral in Hn as [Hf Ha].
    unfold convert. rewrite Ha, Hf. f_equal.
    unfold token_float. destruct t as [|c [|c' t]]; try done.
    cbn in Ha. rewrite andb_true_r in Ha. by rewrite Ha.
Qed.

Lemma convert_all_simple_tokens (ts : list string) :
  forallb simple_token ts = true →
  convert_all ts = Ok (token_float <$> ts).
Proof.
  induction ts as [|t ts IH]; [done|]. cbn [forallb convert_all].
  intros [Ht Hts]%andb_true_iff.
  by rewrite (convert_simple_token t Ht), (IH Hts).
Qed.

Section CharToFloatMean.
Context `{Numpy}.

End CharToFloatMean.

(** ** [char_to_float] as a transition system: determinism *)

Section Determinism.
Context `{Numpy}.

Lemma ctf_step_globals (g g' : globals) (c c' : control) :
  ctf_step (g, c) (g', c') → g' = g.
Proof. by inversion 1. Qed.

Lemma ctf_step_deterministic (x y1 y2 : globals * control) :
  ctf_step x y1 → ctf_step x y2 → y1 = y2.
Proof.
  intros H1 H2.
  inversion H1; subst; inversion H2; subst;
    try congruence; try lia; repeat f_equal; congruence.
Qed.

Lemma ctf_step_done (g : globals) (r : result float64) (y : globals * control) :
  ¬ ctf_step (g, Done r) y.
Proof. inversion 1. Qed.

Lemma ctf_rtc_done_unique (x : globals * control) (g1 g2 : globals)
    (r1 r2 : result float64) :
  rtc ctf_step x (g1, Done r1) → rtc ctf_step x (g2, Done r2) →
  g1 = g2 ∧ r1 = r2.
Proof.
  intros H1. revert g2 r2.
  remember (g1, Done r1) as final eqn:Hf.
  induction H1 as [x | x y z Hxy Hyz IH]; intros g2 r2 H2.
  - subst x. inversion H2 as [| ? y ? Hstep _]; subst; [done|].
    by apply ctf_step_done in Hstep.
  - inversion H2 as [| ? y' ? Hxy' Hy'z]; subst.
    + by apply ctf_step_done in Hxy.
    + rewrite <- (ctf_step_deterministic _ _ _ Hxy Hxy') in Hy'z.
      by apply IH.
Qed.

(** The transition system runs the loop as [ctf_body] does. *)
Lemma ctf_step_body (g : globals) (i n : nat) (parts : list cell) :
  (i < n)%nat →
  ctf_step (g, Loop i n parts)
    (g, match ctf_body parts i with
        | Ok parts' => Loop (S i) n parts'
        | Raise e => Done (Raise e)
        end).
Proof.
  intros Hi. unfold ctf_body.
  destruct (parts !! i) as [[t|x]|] eqn:Hl.
  - destruct (isalpha t) eqn:Ha.
    + destruct (ord t) as [c|e] eqn:Ho; cbn.
      * assert (Hc : py_float_of_int c = Ok (float_of_int c)).
        { destruct t as [|ch [|ch' t']]; try done.
          injection Ho as <-. apply py_float_of_int_code. }
        rewrite Hc. cbn. rewrite py_truediv_100_eq. cbn.
        eapply step_alpha; eauto using py_truediv_100_eq.
      * by eapply step_alpha_raise.
    + destruct (float_of_str t) as [x|e] eqn:Hf; cbn.
      * by eapply step_float.
      * by eapply step_float_raise.
  - by eapply step_not_str.
  - by eapply step_no_item.
Qed.

Lemma ctf_rtc_loop (g : globals) (n k : nat) (parts : list cell) :
  (k ≤ n)%nat →
  rtc ctf_step (g, Loop (n - k) n parts)
    (g, Done (parts' ← for_each ctf_body (seq (n - k) k) parts;
              total ← np_sum parts';
              Ok (np_truediv total (length parts')))).
Proof.
  revert parts. induction k as [|k IH]; intros parts Hk.
  - cbn. apply rtc_once.
    destruct (np_sum parts) as [total|e] eqn:Hsum; cbn.
    + apply step_return; [lia | done].
    + apply step_return_raise; [lia | done].
  - cbn [seq for_each].
    eapply rtc_l; [apply ctf_step_body; lia|].
    destruct (ctf_body parts (n - S k)) as [parts'|e]; cbn; [|done].
    replace (S (n - S k)) with (n - k)%nat by lia. apply IH. lia.
Qed.

(** Every call ends, with the outcome the function [char_to_float] gives
    and the globals it started with. *)
Lemma ctf_call_char_to_float (g : globals) (s : string) :
  ctf_call g s g (char_to_float s).
Proof.
  unfold ctf_call, ctf_init, char_to_float, range.
  pose proof (ctf_rtc_loop g (length (CStr <$> split s))
                (length (CStr <$> split s)) (CStr <$> split s)) as Hrun.
  rewrite Nat.sub_diag in Hrun. by apply Hrun.
Qed.

(** C7.  [char_to_float] is deterministic: two calls on the same string,
    whatever the notebook's global variables hold at either call, end with
    the same outcome (the same value, or the same exception), and neither
    call changes the globals.  The outcome is a function of the argument
    alone. *)
Theorem char_to_float_deterministic (g1 g1' g2 g2' : globals) (s : string)
    (r1 r2 : result float64) :
  ctf_call g1 s g1' r1 → ctf_call g2 s g2' r2 →
  r1 = r2 ∧ g1' = g1 ∧ g2' = g2.
Proof.
  intros H1 H2.
  destruct (ctf_rtc_done_unique _ _ _ _ _ H1 (ctf_call_char_to_float g1 s))
    as [-> ->].
  destruct (ctf_rtc_done_unique _ _ _ _ _ H2 (ctf_call_char_to_float g2 s))
    as [-> ->].
  done.
Qed.

End Determinism.

(** ** Arrays *)

Lemma set_row_Ok (a : ndarray) (i : nat) (x : float64) (row : list float64) :
  a !! i = Some row → set_row a i x = Ok (<[i := replicate (length row) x]> a).
Proof. unfold set_row. by intros ->. Qed.

Lemma set_row_inv (a a' : ndarray) (i : nat) (x : float64) :
  set_row a i x = Ok a' →
  ∃ row, a !! i = Some row ∧ a' = <[i := replicate (length row) x]> a.
Proof. unfold set_row. destruct (a !! i) as [row|]; [|done]. intros [= <-]. eauto. Qed.

Lemma set_cell_inv (a a' : ndarray) (i k : nat) (x : float64) :
  set_cell a i k x = Ok a' →
  ∃ row, a !! i = Some row ∧ (k < length row)%nat ∧ a' = <[i := <[k := x]> row]> a.
Proof.
  unfold set_cell. destruct (a !! i) as [row|]; [|done].
  case_decide; [|done]. intros [= <-]. eauto.
Qed.

Lemma take_rows_fmap (a : ndarray) (idx : list nat) (f : nat → list float64) :
  (∀ j, j ∈ idx → a !! j = Some (f j)) → take_rows a idx = Ok (f <$> idx).
Proof.
  induction idx as [|j idx IH]; intros Hl; [done|]. cbn.
  rewrite (Hl j) by left. rewrite IH; [done|].
  intros j' Hj'. apply Hl. by right.
Qed.

Lemma take_rows_inv (a X : ndarray) (idx : list nat) :
  take_rows a idx = Ok X → Forall2 (λ j row, a !! j = Some row) idx X.
Proof.
  revert X. induction idx as [|j idx IH]; intros X; cbn.
  - intros [= <-]. constructor.
  - destruct (a !! j) as [row|] eqn:Hj; [|done].
    destruct (take_rows a idx) as [rows|]; [|done]. cbn. intros [= <-].
    constructor; [done | by apply IH].
Qed.

Lemma take_rows_Forall (P : list float64 → Prop) (a X : ndarray) (idx : list nat) :
  Forall P a → take_rows a idx = Ok X → Forall P X.
Proof.
  intros Ha HX%take_rows_inv. rewrite list.Forall_forall in Ha.
  induction HX as [|j row idx X Hj _ IH]; constructor; [|done].
  apply Ha. by eapply list_elem_of_lookup_2.
Qed.

Lemma take_rows_length (a X : ndarray) (idx : list nat) :
  take_rows a idx = Ok X → length X = length idx.
Proof. intros HX%take_rows_inv. symmetry. by eapply Forall2_length. Qed.

(** ** [mapM] in the monad of outcomes *)

Lemma mapM_cons {A B} (f : A → result B) (a : A) (l : list A) :
  mapM f (a :: l) = (r ← f a; rs ← mapM f l; Ok (r :: rs)).
Proof. done. Qed.

Lemma mapM_result_app {A B} (f : A → result B) (l1 l2 : list A) :
  mapM f (l1 ++ l2) = (r1 ← mapM f l1; r2 ← mapM f l2; Ok (r1 ++ r2)).
Proof.
  induction l1 as [|a l1 IH].
  - cbn. by destruct (mapM f l2).
  - cbn [app]. rewrite !mapM_cons, IH.
    destruct (f a); cbn; [|done].
    destruct (mapM f l1); cbn; [|done].
    by destruct (mapM f l2).
Qed.

Lemma mapM_result_Ok {A B} (f : A → result B) (l : list A) (rs : list B) :
  mapM f l = Ok rs ↔ Forall2 (λ a r, f a = Ok r) l rs.
Proof.
  revert rs. induction l as [|a l IH]; intros rs.
  - cbn. split.
    + intros [= <-]. constructor.
    + intros ->%Forall2_nil_inv_l. done.
  - rewrite mapM_cons. split.
    + intros (r & Hr & (rs' & Hrs & [= <-])%bind_Ok_inv)%bind_Ok_inv.
      constructor; [done|]. by apply IH.
    + intros (r & rs' & Hr & Hrs & ->)%Forall2_cons_inv_l.
      apply IH in Hrs. by rewrite Hr, Hrs.
Qed.

Lemma mapM_result_length {A B} (f : A → result B) (l : list A) (rs : list B) :
  mapM f l = Ok rs → length rs = length l.
Proof. intros Hrs%mapM_result_Ok. symmetry. by eapply Forall2_length. Qed.

Lemma mapM_result_lookup {A B} (f : A → result B) (l : list A) (rs : list B)
    (i : nat) (a : A) :
  mapM f l = Ok rs → l !! i = Some a → ∃ r, rs !! i = Some r ∧ f a = Ok r.
Proof.
  intros Hrs%mapM_result_Ok Ha.
  destruct (Forall2_lookup_l _ _ _ _ _ Hrs Ha) as (r & ? & ?). eauto.
Qed.

Lemma mapM_result_returns {A B} (f : A → result B) (l : list A) :
  returns (mapM f l) ↔ Forall (λ a, returns (f a)) l.
Proof.
  induction l as [|a l IH].
  - split; [constructor | by eexists].
  - rewrite mapM_cons, Forall_cons, <- IH. split.
    + intros [rs (r & Hr & (rs' & Hrs & _)%bind_Ok_inv)%bind_Ok_inv].
      split; by eexists.
    + intros [[r Hr] [rs Hrs]]. rewrite Hr, Hrs. by eexists.
Qed.

(** [mapM f l] raises what the first element that does not return raises. *)
Lemma mapM_result_Raise {A B} (f : A → result B) (l : list A) (ex : exn) :
  mapM f l = Raise ex
  ↔ ∃ k a, l !! k = Some a ∧ Forall (λ a, returns (f a)) (take k l)
           ∧ f a = Raise ex.
Proof.
  induction l as [|a l IH].
  - split; [done|]. by intros (k & a & ? & _).
  - rewrite mapM_cons. destruct (f a) as [r|ex'] eqn:Hr; cbn.
    + split.
      * intros Hl. destruct (mapM f l) as [rs|ex''] eqn:Hrs; [done|].
        injection Hl as ->.
        destruct (proj1 IH eq_refl) as (k & a' & Hk & Hpre & Ha').
        exists (S k), a'. split_and!; [done| |done].
        cbn. constructor; [by eexists | done].
      * intros ([|k] & a' & Hk & Hpre & Ha').
        -- injection Hk as <-. congruence.
        -- cbn in Hk, Hpre. apply Forall_cons in Hpre as [_ Hpre].
           rewrite (proj2 IH); [done|]. eauto.
    + split.
      * intros [= ->]. exists 0%nat, a. split_and!; [done|constructor|done].
      * intros ([|k] & a' & Hk & Hpre & Ha').
        -- injection Hk as <-. congruence.
        -- cbn in Hpre. apply Forall_cons in Hpre as [[? ?] _]. congruence.
Qed.

(** ** The rows that are kept *)

Lemma filter_fmap_comp {A B} (f : A → B) (P : B → Prop)
    `{∀ x, Decision (P x)} (l : list A) :
  filter P (f <$> l) = f <$> filter (P ∘ f) l.
Proof.
  induction l as [|a l IH]; [done|].
  cbn [fmap list_fmap]. rewrite !filter_cons, IH. cbn.
  by destruct (decide (P (f a))).
Qed.

Lemma fmap_filter_omap {A B} (g : A → option B) (l : list A) (d : nat → B)
    (P : nat → Prop) `{∀ i, Decision (P i)} :
  (∀ i, P i ↔ is_Some (l !! i ≫= g)) →
  (∀ i a b, l !! i = Some a → g a = Some b → d i = b) →
  d <$> filter P (seq 0 (length l)) = omap g l.
Proof.
  revert d P H. induction l as [|a l IH]; intros d P HP Hiff Hd; [done|].
  cbn [length seq omap list_omap]. rewrite filter_cons.
  rewrite <- fmap_S_seq, filter_fmap_comp.
  assert (Htl : d <$> (S <$> filter (P ∘ S) (seq 0 (length l))) = omap g l).
  { rewrite <- list_fmap_compose. apply (IH (d ∘ S) (P ∘ S)).
    - intros i. cbn. by rewrite Hiff.
    - intros i a' b Hi Hg. cbn. by eapply Hd. }
  destruct (g a) as [b|] eqn:Hg.
  - rewrite decide_True by (apply Hiff; cbn; rewrite Hg; eauto).
    cbn [fmap list_fmap]. f_equal; [by eapply Hd | exact Htl].
  - rewrite decide_False; [exact Htl|]. rewrite Hiff. cbn. rewrite Hg.
    by intros [? ?].
Qed.

Lemma filter_ext_in {A} (P Q : A → Prop) `{∀ x, Decision (P x)}
    `{∀ x, Decision (Q x)} (l : list A) :
  (∀ x, x ∈ l → P x ↔ Q x) → filter P l = filter Q l.
Proof.
  induction l as [|a l IH]; intros Hext; [done|].
  rewrite !filter_cons, IH by (intros; apply Hext; by right).
  destruct (decide (P a)) as [HP|HP], (decide (Q a)) as [HQ|HQ]; try done.
  - destruct HQ. apply Hext; [left | done].
  - destruct HP. apply Hext; [left | done].
Qed.

Lemma filter_seq_ext (P Q : nat → Prop) `{∀ i, Decision (P i)}
    `{∀ i, Decision (Q i)} (n : nat) :
  (∀ i, (i < n)%nat → P i ↔ Q i) → filter P (seq 0 n) = filter Q (seq 0 n).
Proof.
  intros Hext. apply filter_ext_in.
  intros i [_ Hi]%elem_of_seq. apply Hext. lia.
Qed.

Lemma kept_fmap {R B} (f : R → B) (rs : list (option R)) :
  f <$> kept rs = omap (fmap f) rs.
Proof.
  unfold kept. induction rs as [|[r|] rs IH]; cbn; [done| |done].
  by rewrite IH.
Qed.

(** ** An extraction loop, iteration by iteration

    A loop whose iteration at index [k] reads a value from record [k] and
    writes it to row [k] of the two arrays is the reading of every record
    in order, followed by the writing. *)

Lemma is_Some_join_fmap {A B} (f : A → B) (o : option (option A)) :
  is_Some (o ≫= id) ↔ is_Some (o ≫= fmap f).
Proof.
  destruct o as [[a|]|]; cbn; rewrite <- ?not_eq_None_Some; split; done.
Qed.

Section Loop.
Context {R : Type}.
Variables (w : nat) (rowX rowY : R → list float64).
Variable read : json → result (option R).
Variable body : extraction → nat → result extraction.
Variable recs : list json.

Hypothesis body_read : ∀ st k rec,
  recs !! k = Some rec →
  all_inputs st !! k = Some (replicate w fzero) →
  all_targets st !! k = Some [fzero] →
  body st k = (r ← read rec; Ok (written rowX rowY st k r)).

Local Abbreviation n := (length recs).

Lemma state_after_nil :
  state_after w n rowX rowY []
  = {| all_inputs := np_zeros n w; all_targets := np_zeros n 1;
       indices := [] |}.
Proof using Type.
  unfold state_after, np_zeros. f_equal.
  - apply list_eq. intros i. rewrite list_lookup_fmap.
    destruct (decide (i < n)%nat).
    + by rewrite lookup_seq_lt, lookup_replicate_2 by done.
    + rewrite lookup_seq_ge by lia. cbn. symmetry.
      apply lookup_replicate_None. lia.
  - apply list_eq. intros i. rewrite list_lookup_fmap.
    destruct (decide (i < n)%nat).
    + by rewrite lookup_seq_lt, lookup_replicate_2 by done.
    + rewrite lookup_seq_ge by lia. cbn. symmetry.
      apply lookup_replicate_None. lia.
Qed.

Lemma state_after_inputs (rs : list (option R)) (k : nat) :
  (k < n)%nat → (length rs ≤ k)%nat →
  all_inputs (state_after w n rowX rowY rs) !! k = Some (replicate w fzero).
Proof using Type.
  intros Hk Hrs. cbn. rewrite list_lookup_fmap, lookup_seq_lt by done. cbn.
  by rewrite lookup_ge_None_2 by lia.
Qed.

Lemma state_after_targets (rs : list (option R)) (k : nat) :
  (k < n)%nat → (length rs ≤ k)%nat →
  all_targets (state_after w n rowX rowY rs) !! k = Some [fzero].
Proof using Type.
  intros Hk Hrs. cbn. rewrite list_lookup_fmap, lookup_seq_lt by done. cbn.
  by rewrite lookup_ge_None_2 by lia.
Qed.

Lemma insert_fmap_seq {B} (d d' : nat → B) (k : nat) (x : B) :
  (k < n)%nat → d' k = x → (∀ i, i ≠ k → d' i = d i) →
  <[k := x]> (d <$> seq 0 n) = d' <$> seq 0 n.
Proof using Type.
  intros Hk Hx Hd. apply list_eq. intros i.
  destruct (decide (i = k)) as [->|Hne].
  - rewrite list_lookup_insert_eq by (by rewrite length_fmap, length_seq).
    rewrite list_lookup_fmap, lookup_seq_lt by done. cbn. by rewrite Hx.
  - rewrite list_lookup_insert_ne by done.
    rewrite !list_lookup_fmap. destruct (seq 0 n !! i) as [j|] eqn:Hj; [|done].
    apply lookup_seq in Hj as [-> _]. cbn. by rewrite Hd.
Qed.

Lemma state_after_step (rs : list (option R)) (r : option R) :
  (length rs < n)%nat →
  written rowX rowY (state_after w n rowX rowY rs) (length rs) r
  = state_after w n rowX rowY (rs ++ [r]).
Proof using Type.
  intros Hk.
  assert (Hidx : filter (λ i, is_Some ((rs ++ [r]) !! i ≫= id))
                   (seq 0 (length (rs ++ [r])))
                 = filter (λ i, is_Some (rs !! i ≫= id)) (seq 0 (length rs))
                   ++ match r with Some _ => [length rs] | None => [] end).
  { rewrite length_app. cbn [length].
    replace (length rs + 1)%nat with (S (length rs)) by lia.
    rewrite seq_S, filter_app. cbn [plus]. f_equal.
    - apply filter_seq_ext. intros i Hi. by rewrite lookup_app_l.
    - rewrite filter_cons, filter_nil.
      rewrite list_lookup_middle by done. cbn.
      destruct r; [by rewrite decide_True | rewrite decide_False; [done|]].
      by intros [? ?]. }
  unfold state_after at 2. rewrite Hidx.
  destruct r as [v|]; cbn [written].
  - unfold state_after. cbn [all_inputs all_targets indices]. f_equal.
    + apply insert_fmap_seq; [done| |].
      * by rewrite list_lookup_middle.
      * intros i Hi. destruct (decide (i < length rs)%nat).
        -- by rewrite lookup_app_l.
        -- by rewrite !lookup_ge_None_2
             by (rewrite ?length_app; cbn [length]; lia).
    + apply insert_fmap_seq; [done| |].
      * by rewrite list_lookup_middle.
      * intros i Hi. destruct (decide (i < length rs)%nat).
        -- by rewrite lookup_app_l.
        -- by rewrite !lookup_ge_None_2
             by (rewrite ?length_app; cbn [length]; lia).
  - rewrite app_nil_r. unfold state_after. f_equal.
    + apply list_fmap_ext. intros _ i _.
      destruct (decide (i < length rs)%nat).
      * by rewrite lookup_app_l.
      * destruct (decide (i = length rs)) as [->|].
        -- rewrite list_lookup_middle by done.
           by rewrite lookup_ge_None_2 by lia.
        -- by rewrite !lookup_ge_None_2
             by (rewrite ?length_app; cbn [length]; lia).
    + apply list_fmap_ext. intros _ i _.
      destruct (decide (i < length rs)%nat).
      * by rewrite lookup_app_l.
      * destruct (decide (i = length rs)) as [->|].
        -- rewrite list_lookup_middle by done.
           by rewrite lookup_ge_None_2 by lia.
        -- by rewrite !lookup_ge_None_2
             by (rewrite ?length_app; cbn [length]; lia).
Qed.

(** The first [k] iterations read the first [k] records. *)
Lemma loop_prefix (k : nat) :
  (k ≤ n)%nat →
  for_each body (seq 0 k) (state_after w n rowX rowY [])
  = (rs ← mapM read (take k recs); Ok (state_after w n rowX rowY rs)).
Proof using body_read.
  induction k as [|k IH]; intros Hk; [done|].
  rewrite seq_S, for_each_snoc, IH by lia. cbn [plus].
  destruct (lookup_lt_is_Some_2 recs k) as [rec Hrec]; [done|].
  rewrite (take_S_r _ _ _ Hrec), mapM_result_app.
  destruct (mapM read (take k recs)) as [rs|ex] eqn:Hrs; cbn; [|done].
  assert (Hlen : length rs = k).
  { apply mapM_result_length in Hrs. rewrite Hrs, length_take. lia. }
  rewrite body_read with (rec := rec);
    [|done|apply state_after_inputs; lia|apply state_after_targets; lia].
  destruct (read rec) as [r|ex]; cbn; [|done].
  by rewrite <- Hlen, state_after_step by lia.
Qed.

Lemma loop_eq :
  for_each body (range n)
    {| all_inputs := np_zeros n w; all_targets := np_zeros n 1;
       indices := [] |}
  = (rs ← mapM read recs; Ok (state_after w n rowX rowY rs)).
Proof using body_read.
  rewrite <- state_after_nil. unfold range. rewrite loop_prefix by done.
  by rewrite firstn_all.
Qed.

(** The selection of the kept rows after the loop. *)
Lemma select_state_after (rs : list (option R)) :
  length rs = n →
  select (state_after w n rowX rowY rs)
  = Ok (rowX <$> kept rs, rowY <$> kept rs).
Proof using Type.
  intros Hlen. unfold select, state_after.
  cbn [all_inputs all_targets indices].
  assert (Hin : ∀ j, j ∈ filter (λ i, is_Some (rs !! i ≫= id))
                          (seq 0 (length rs)) → (j < n)%nat).
  { intros j [_ [_ Hj]%elem_of_seq]%list_elem_of_filter. lia. }
  set (idx := filter (λ i, is_Some (rs !! i ≫= id)) (seq 0 (length rs))) in *.
  set (fX := λ i, match rs !! i with
                  | Some (Some v) => rowX v
                  | _ => replicate w fzero
                  end).
  set (fY := λ i, match rs !! i with
                  | Some (Some v) => rowY v
                  | _ => [fzero]
                  end).
  assert (HX : take_rows (fX <$> seq 0 n) idx = Ok (fX <$> idx)).
  { apply take_rows_fmap. intros j Hj%Hin.
    by rewrite list_lookup_fmap, lookup_seq_lt. }
  assert (HY : take_rows (fY <$> seq 0 n) idx = Ok (fY <$> idx)).
  { apply take_rows_fmap. intros j Hj%Hin.
    by rewrite list_lookup_fmap, lookup_seq_lt. }
  rewrite HX. cbn [mbind result_bind]. rewrite HY. subst idx fX fY.
  cbn.
  rewrite !kept_fmap. do 2 f_equal.
  - apply fmap_filter_omap.
    + intros i. apply is_Some_join_fmap.
    + intros i [v|] b Hi; cbn; [|done]. intros [= <-]. by rewrite Hi.
  - apply fmap_filter_omap.
    + intros i. apply is_Some_join_fmap.
    + intros i [v|] b Hi; cbn; [|done]. intros [= <-]. by rewrite Hi.
Qed.
End Loop.

(** ** Records: what the accesses of the loops return *)

Lemma entry_of_inv (rec : json) (e : gmap string json) :
  entry_of rec = Some e → ∃ r, rec = JObj r ∧ r !! "entry" = Some (JObj e).
Proof.
  destruct rec as [| | | | | |r]; try done. cbn.
  destruct (r !! "entry") as [[| | | | | |e']|] eqn:Hr; try done.
  intros [= <-]. eauto.
Qed.

Lemma entry_of_getitem (rec : json) (e : gmap string json) :
  entry_of rec = Some e ↔ getitem_str rec "entry" = Ok (JObj e).
Proof.
  destruct rec as [| | | | | |r]; try done. cbn.
  destruct (r !! "entry") as [[| | | | | |e']|]; try done.
  split; by intros [= <-].
Qed.

Lemma crystal_of_inv (e c : gmap string json) :
  crystal_of e = Some c →
  ∃ rest, e !! "exptl_crystal" = Some (JArr (JObj c :: rest)).
Proof.
  unfold crystal_of.
  destruct (e !! "exptl_crystal") as [[| | | | |[|[| | | | | |c'] rest]|]|];
    try done.
  intros [= <-]. eauto.
Qed.

Lemma getitem_str_Ok (v : json) (k : string) (x : json) :
  getitem_str v k = Ok x ↔ ∃ m, v = JObj m ∧ m !! k = Some x.
Proof.
  split.
  - destruct v as [| | | | | |m]; try done. cbn.
    destruct (m !! k) eqn:Hk; [|done]. intros [= <-]. eauto.
  - intros (m & -> & Hk). cbn. by rewrite Hk.
Qed.

Lemma py_float_of_int_Ok (z : Z) (x : float64) :
  py_float_of_int z = Ok x → x = float_of_int z.
Proof. unfold py_float_of_int. by destruct (float_of_int z); intros [= <-]. Qed.

Lemma np_float_number (other : json → result float64) (v : json) :
  is_number v = true → np_float other v = Ok (number_value v).
Proof.
  destruct v; try done. cbn.
  destruct (py_float_of_int z) eqn:Hz; [|done].
  by apply py_float_of_int_Ok in Hz as ->.
Qed.

Ltac inv_bind :=
  repeat match goal with
  | H : (_ ≫= _) = Ok _ |- _ => apply bind_Ok_inv in H as (? & ? & H)
  end.

(** The computation at the head of a sequence of binds. *)
Ltac head_read t :=
  lazymatch t with
  | @mbind _ _ _ _ _ ?r => head_read r
  | _ => t
  end.

(** Both sides of the goal start with the same computation: its outcome
    decides; an exception is the outcome of both. *)
Ltac same_read :=
  lazymatch goal with
  | |- ?l = _ =>
      let r := head_read l in
      destruct r eqn:?; cbn [mbind result_bind]; try done
  end.

Section RecordFacts.
Context `{Numpy}.

Lemma first_crystal_Ok (e c : gmap string json) :
  crystal_of e = Some c → first_crystal (JObj e) = Ok (JObj c).
Proof.
  intros [rest He]%crystal_of_inv. unfold first_crystal. cbn. by rewrite He.
Qed.

Lemma first_crystal_JObj (entry : json) (c : gmap string json) :
  first_crystal entry = Ok (JObj c) →
  ∃ e, entry = JObj e ∧ crystal_of e = Some c.
Proof.
  unfold first_crystal.
  intros (xc & (e & -> & He)%getitem_str_Ok & Hxc)%bind_Ok_inv.
  exists e. split; [done|]. unfold crystal_of. rewrite He.
  destruct xc as [| | | |s|[|c0 rest]|]; try done.
  - cbn in Hxc. by destruct (String.get 0 s).
  - cbn in Hxc. by injection Hxc as ->.
Qed.

(** [entry['exptl_crystal'][0][key]] is read from the first crystal. *)
Lemma density_Ok (key : string) (entry : json) (x : float64) :
  density key entry = Ok x
  ↔ ∃ e c v, entry = JObj e ∧ crystal_of e = Some c ∧ c !! key = Some v
             ∧ np_float np_row_of_object v = Ok x.
Proof.
  unfold density. split.
  - intros (c' & Hc' & (v & (c & -> & Hv)%getitem_str_Ok & Hx)%bind_Ok_inv)
      %bind_Ok_inv.
    apply first_crystal_JObj in Hc' as (e & -> & Hc). eauto 10.
  - intros (e & c & v & -> & Hc & Hv & Hx).
    rewrite (first_crystal_Ok _ _ Hc). cbn. by rewrite Hv.
Qed.

Lemma density_eq (key : string) (e c : gmap string json) (v : json) :
  crystal_of e = Some c → c !! key = Some v →
  density key (JObj e) = np_float np_row_of_object v.
Proof.
  intros Hc Hv. unfold density. rewrite (first_crystal_Ok _ _ Hc). cbn.
  rewrite Hv. cbn. by destruct (np_float _ _).
Qed.

(** *** Problem 1 *)

Lemma densities_inv (rec dm ds : json) :
  densities rec = Some (dm, ds)
  ↔ ∃ e c, entry_of rec = Some e ∧ crystal_of e = Some c
           ∧ c !! "density_matthews" = Some dm
           ∧ c !! "density_percent_sol" = Some ds.
Proof.
  unfold densities. split.
  - destruct (entry_of rec) as [e|]; cbn; [|done].
    destruct (crystal_of e) as [c|] eqn:Hc; cbn; [|done].
    destruct (c !! "density_matthews") as [dm'|] eqn:Hdm; cbn; [|done].
    destruct (c !! "density_percent_sol") as [ds'|] eqn:Hds; cbn; [|done].
    intros [= <- <-]. eauto 10.
  - intros (e & c & -> & Hc & Hdm & Hds). cbn. rewrite Hc. cbn.
    rewrite Hdm. cbn. by rewrite Hds.
Qed.

Lemma problem1_cond_true (e c : gmap string json) (dm ds : json) :
  crystal_of e = Some c →
  c !! "density_matthews" = Some dm → c !! "density_percent_sol" = Some ds →
  problem1_cond (JObj e) = Ok true.
Proof.
  intros Hc Hdm Hds. unfold problem1_cond.
  rewrite (first_crystal_Ok _ _ Hc).
  destruct (crystal_of_inv _ _ Hc) as [rest He]. cbn.
  rewrite He, Hdm, Hds. cbn.
  by rewrite ?bool_decide_eq_true_2 by eauto.
Qed.

(** A record with both densities: the two values are read and
    converted. *)
Lemma record1_densities (rec dm ds : json) :
  densities rec = Some (dm, ds) →
  record1 rec = (x ← np_float np_row_of_object dm;
                 y ← np_float np_row_of_object ds;
                 Ok (Some (x, y))).
Proof.
  intros (e & c & He & Hc & Hdm & Hds)%densities_inv.
  unfold record1. apply entry_of_getitem in He. rewrite He.
  cbn [mbind result_bind].
  rewrite (problem1_cond_true _ _ _ _ Hc Hdm Hds). cbn [mbind result_bind].
  by rewrite (density_eq _ _ _ _ Hc Hdm), (density_eq _ _ _ _ Hc Hds).
Qed.

(** A record that gives a row has both densities; the row holds their
    conversions. *)
Lemma record1_Some (rec : json) (x y : float64) :
  record1 rec = Ok (Some (x, y))
  ↔ ∃ dm ds, densities rec = Some (dm, ds)
             ∧ np_float np_row_of_object dm = Ok x
             ∧ np_float np_row_of_object ds = Ok y.
Proof.
  split.
  - unfold record1.
    intros (entry & Hentry & (cond & Hcond & Hrec)%bind_Ok_inv)%bind_Ok_inv.
    destruct cond; [|done].
    apply bind_Ok_inv in Hrec as (x' & Hx & (y' & Hy & [= <- <-])%bind_Ok_inv).
    apply density_Ok in Hx as (e & c & dm & -> & Hc & Hdm & Hx).
    apply density_Ok in Hy as (e' & c' & ds & [= <-] & Hc' & Hds & Hy).
    assert (c' = c) as -> by congruence.
    exists dm, ds. split; [|done].
    apply densities_inv. exists e, c. by rewrite entry_of_getitem.
  - intros (dm & ds & Hd & Hx & Hy).
    by rewrite (record1_densities _ _ _ Hd), Hx, Hy.
Qed.

(** A record that is skipped lacks one of them. *)
Lemma record1_None (rec : json) :
  record1 rec = Ok None → densities rec = None.
Proof.
  intros Hrec. destruct (densities rec) as [[dm ds]|] eqn:Hd; [|done].
  rewrite (record1_densities _ _ _ Hd) in Hrec. by inv_bind.
Qed.

Lemma record1_is_Some (rec : json) (r : option (float64 * float64)) :
  record1 rec = Ok r → is_Some r ↔ is_Some (densities rec).
Proof.
  intros Hrec. destruct r as [[x y]|].
  - apply record1_Some in Hrec as (dm & ds & -> & _). split; eauto.
  - apply record1_None in Hrec as ->. done.
Qed.

(** One iteration of the loop reads the record and writes what it read. *)
Lemma problem1_body_read (recs : list json) (st : extraction) (k : nat)
    (rec : json) (row t : list float64) :
  recs !! k = Some rec →
  all_inputs st !! k = Some row → all_targets st !! k = Some t →
  problem1_body (JArr recs) st k
  = (r ← record1 rec;
     Ok (written (λ p, replicate (length row) p.1)
                 (λ p, replicate (length t) p.2) st k r)).
Proof.
  intros Hrec Hrow Ht.
  unfold problem1_body, record1, density. cbn [getitem_int].
  rewrite Hrec. cbn [mbind result_bind].
  same_read. same_read.
  match goal with |- context [if ?c then _ else _] => destruct c end; [|done].
  same_read. same_read. same_read.
  unfold set_row. rewrite Hrow. cbn [mbind result_bind].
  same_read. same_read.
  by rewrite Ht.
Qed.

Lemma problem1_loop_eq (recs : list json) :
  problem1_loop (JArr recs)
  = (rs ← mapM record1 recs;
     Ok (state_after 1 (length recs) (λ p, [p.1]) (λ p, [p.2]) rs)).
Proof.
  unfold problem1_loop. cbn [py_len mbind result_bind].
  apply loop_eq. intros st k rec Hrec Hrow Ht.
  by rewrite (problem1_body_read _ _ _ _ _ _ Hrec Hrow Ht).
Qed.

(** The extraction of Problem 1 is the reading of every record in order,
    and the rows are those of the kept records. *)
Lemma problem1_eq (recs : list json) :
  problem1 (JArr recs) = (rs ← mapM record1 recs; Ok (rows1 rs)).
Proof.
  unfold problem1. rewrite problem1_loop_eq.
  destruct (mapM record1 recs) as [rs|ex] eqn:Hrs;
    cbn [mbind result_bind]; [|done].
  rewrite select_state_after; [done|]. by eapply mapM_result_length.
Qed.

Lemma kept1_indices (recs : list json)
    (rs : list (option (float64 * float64))) :
  mapM record1 recs = Ok rs →
  filter (λ i, is_Some (rs !! i ≫= id)) (seq 0 (length rs)) = kept1 recs.
Proof.
  intros Hrs. unfold kept1. rewrite (mapM_result_length _ _ _ Hrs).
  apply filter_seq_ext. intros i Hi.
  destruct (lookup_lt_is_Some_2 recs i Hi) as [rec Hrec].
  destruct (mapM_result_lookup _ _ _ _ _ Hrs Hrec) as (r & Hr & Hread).
  rewrite Hr, Hrec. cbn. by apply record1_is_Some.
Qed.

(** *** Problem 2 *)

Lemma cell_and_density_inv (rec v : json) :
  cell_and_density rec = Some v
  ↔ ∃ e c, entry_of rec = Some e ∧ is_Some (e !! "cell")
           ∧ crystal_of e = Some c ∧ c !! "density_matthews" = Some v.
Proof.
  unfold cell_and_density. split.
  - destruct (entry_of rec) as [e|]; cbn; [|done].
    destruct (e !! "cell") as [cl|] eqn:Hcl; cbn; [|done].
    destruct (crystal_of e) as [c|] eqn:Hc; cbn; [|done].
    intros Hv. exists e, c. eauto.
  - intros (e & c & -> & [cl Hcl] & Hc & Hv). cbn. rewrite Hcl. cbn.
    by rewrite Hc.
Qed.

Lemma problem2_cond_true (e c : gmap string json) (v : json) :
  is_Some (e !! "cell") → crystal_of e = Some c →
  c !! "density_matthews" = Some v →
  problem2_cond (JObj e) = Ok true.
Proof.
  intros Hcl Hc Hv. unfold problem2_cond.
  rewrite (first_crystal_Ok _ _ Hc). cbn.
  rewrite Hv. cbn. by rewrite ?bool_decide_eq_true_2 by eauto.
Qed.

(** A record with ['cell'] and a Matthews coefficient: the nine features
    and the target are read. *)
Lemma record2_cell_and_density (rec v : json) :
  cell_and_density rec = Some v →
  ∃ e, entry_of rec = Some e
       ∧ record2 rec = (xs ← features2 (JObj e);
                        y ← np_float np_row_of_object v;
                        Ok (Some (xs, y))).
Proof.
  intros (e & c & He & Hcl & Hc & Hv)%cell_and_density_inv.
  exists e. split; [done|].
  unfold record2. apply entry_of_getitem in He. rewrite He.
  cbn [mbind result_bind].
  rewrite (problem2_cond_true _ _ _ Hcl Hc Hv). cbn [mbind result_bind].
  by rewrite (density_eq _ _ _ _ Hc Hv).
Qed.

Lemma features2_cell (entry : json) (xs : list float64) :
  features2 entry = Ok xs →
  ∃ e, entry = JObj e ∧ is_Some (e !! "cell").
Proof.
  unfold features2, cell_field. intros Hxs. inv_bind.
  match goal with
  | Hc : getitem_str entry "cell" = Ok _ |- _ =>
      apply getitem_str_Ok in Hc as (e & -> & He)
  end.
  eauto.
Qed.

Lemma record2_Some (rec : json) (xs : list float64) (y : float64) :
  record2 rec = Ok (Some (xs, y))
  ↔ ∃ e v, entry_of rec = Some e ∧ cell_and_density rec = Some v
           ∧ features2 (JObj e) = Ok xs
           ∧ np_float np_row_of_object v = Ok y.
Proof.
  split.
  - unfold record2.
    intros (entry & Hentry & (cond & Hcond & Hrec)%bind_Ok_inv)%bind_Ok_inv.
    destruct cond; [|done].
    apply bind_Ok_inv in Hrec as (xs' & Hxs & (y' & Hy & [= <- <-])%bind_Ok_inv).
    apply density_Ok in Hy as (e & c & v & -> & Hc & Hv & Hy).
    destruct (features2_cell _ _ Hxs) as (e' & [= <-] & Hcl).
    apply entry_of_getitem in Hentry.
    exists e, v. split_and!; try done.
    apply cell_and_density_inv. eauto 10.
  - intros (e & v & He & Hv & Hxs & Hy).
    destruct (record2_cell_and_density _ _ Hv) as (e' & He' & ->).
    assert (e' = e) as -> by congruence.
    by rewrite Hxs, Hy.
Qed.

Lemma record2_None (rec : json) :
  record2 rec = Ok None → cell_and_density rec = None.
Proof.
  intros Hrec. destruct (cell_and_density rec) as [v|] eqn:Hv; [|done].
  destruct (record2_cell_and_density _ _ Hv) as (e & _ & Heq).
  rewrite Heq in Hrec. by inv_bind.
Qed.

Lemma record2_is_Some (rec : json) (r : option (list float64 * float64)) :
  record2 rec = Ok r → is_Some r ↔ is_Some (cell_and_density rec).
Proof.
  intros Hrec. destruct r as [[xs y]|].
  - apply record2_Some in Hrec as (e & v & _ & -> & _). split; eauto.
  - apply record2_None in Hrec as ->. done.
Qed.

Lemma set_cell_at (a : ndarray) (i k : nat) (x : float64) (row : list float64) :
  a !! i = Some row → (k < length row)%nat →
  set_cell a i k x = Ok (<[i := <[k := x]> row]> a).
Proof. intros Hrow Hk. unfold set_cell. by rewrite Hrow, decide_True. Qed.

Lemma set_cell_insert (a : ndarray) (i k : nat) (x : float64)
    (row : list float64) :
  (i < length a)%nat → (k < length row)%nat →
  set_cell (<[i := row]> a) i k x = Ok (<[i := <[k := x]> row]> a).
Proof.
  intros Hi Hk.
  rewrite (set_cell_at _ _ _ _ row) by (by rewrite ?list_lookup_insert_eq).
  by rewrite list_insert_insert_eq.
Qed.

Lemma set_cell_field_eq (entry : json) (field : string) (i k : nat)
    (a : ndarray) :
  set_cell_field entry field i k a
  = (x ← cell_field entry field; set_cell a i k x).
Proof.
  unfold set_cell_field, cell_field.
  destruct (getitem_str entry "cell") as [cl|]; cbn; [|done].
  destruct (getitem_str cl field) as [v|]; cbn; [|done].
  by destruct (np_float np_cell_of_object v).
Qed.

Lemma problem2_body_read (recs : list json) (st : extraction) (k : nat)
    (rec : json) (row t : list float64) :
  recs !! k = Some rec →
  all_inputs st !! k = Some row → length row = 9%nat →
  all_targets st !! k = Some t → length t = 1%nat →
  problem2_body (JArr recs) st k
  = (r ← record2 rec; Ok (written fst (λ p, [p.2]) st k r)).
Proof.
  intros Hrec Hrow Hlrow Ht Hlt.
  assert (Hk : (k < length (all_inputs st))%nat) by (by eapply lookup_lt_Some).
  destruct row as [|r0 [|r1 [|r2 [|r3 [|r4 [|r5 [|r6 [|r7 [|r8 [|]]]]]]]]]];
    try done.
  unfold problem2_body, record2. cbn [getitem_int].
  rewrite Hrec. cbn [mbind result_bind].
  same_read. same_read.
  match goal with |- context [if ?c then _ else _] => destruct c end; [|done].
  unfold features2, group_feature, table_feature, mass_feature.
  rewrite set_cell_field_eq. same_read.
  rewrite (set_cell_at _ _ _ _ _ Hrow) by (cbn; lia).
  cbn [mbind result_bind].
  do 5 (rewrite set_cell_field_eq; same_read;
        rewrite set_cell_insert by (done || cbn; lia);
        cbn [mbind result_bind]).
  same_read. same_read. same_read.
  rewrite set_cell_insert by (done || cbn; lia).
  cbn [mbind result_bind].
  same_read. same_read.
  rewrite set_cell_insert by (done || cbn; lia).
  cbn [mbind result_bind].
  same_read. same_read. same_read.
  rewrite set_cell_insert by (done || cbn; lia).
  cbn [mbind result_bind].
  unfold density. same_read. same_read. same_read.
  unfold set_row. by rewrite Ht, Hlt.
Qed.

Lemma problem2_loop_eq (recs : list json) :
  problem2_loop (JArr recs)
  = (rs ← mapM record2 recs;
     Ok (state_after 9 (length recs) fst (λ p, [p.2]) rs)).
Proof.
  unfold problem2_loop. cbn [py_len mbind result_bind].
  apply loop_eq. intros st k rec Hrec Hrow Ht.
  by eapply problem2_body_read.
Qed.

(** The extraction of Problem 2 is the reading of every record in order,
    and the rows are those of the kept records. *)
Lemma problem2_eq (recs : list json) :
  problem2 (JArr recs) = (rs ← mapM record2 recs; Ok (rows2 rs)).
Proof.
  unfold problem2. rewrite problem2_loop_eq.
  destruct (mapM record2 recs) as [rs|ex] eqn:Hrs;
    cbn [mbind result_bind]; [|done].
  rewrite select_state_after; [done|]. by eapply mapM_result_length.
Qed.

Lemma kept2_indices (recs : list json)
    (rs : list (option (list float64 * float64))) :
  mapM record2 recs = Ok rs →
  filter (λ i, is_Some (rs !! i ≫= id)) (seq 0 (length rs)) = kept2 recs.
Proof.
  intros Hrs. unfold kept2. rewrite (mapM_result_length _ _ _ Hrs).
  apply filter_seq_ext. intros i Hi.
  destruct (lookup_lt_is_Some_2 recs i Hi) as [rec Hrec].
  destruct (mapM_result_lookup _ _ _ _ _ Hrs Hrec) as (r & Hr & Hread).
  rewrite Hr, Hrec. cbn. by apply record2_is_Some.
Qed.
End RecordFacts.

(** ** The rows of the kept records *)

Lemma lookup_fmap_seq {A} (f : nat → A) (n i : nat) :
  (i < n)%nat → (f <$> seq 0 n) !! i = Some (f i).
Proof. intros Hi. by rewrite list_lookup_fmap, lookup_seq_lt. Qed.

Lemma seq_sorted (start n : nat) : StronglySorted lt (seq start n).
Proof.
  revert start. induction n as [|n IH]; intros start; cbn; constructor.
  - apply IH.
  - apply list.Forall_forall. intros j Hj%elem_of_seq. lia.
Qed.

Lemma filter_sorted (P : nat → Prop) `{∀ i, Decision (P i)} (l : list nat) :
  StronglySorted lt l → StronglySorted lt (filter P l).
Proof.
  induction 1 as [|i l Hl IH Hi]; [constructor|].
  rewrite filter_cons. case_decide; [|done].
  constructor; [done|]. apply list.Forall_forall.
  intros j [_ Hj]%list_elem_of_filter.
  rewrite list.Forall_forall in Hi. by apply Hi.
Qed.

Lemma kept1_sorted (recs : list json) : StronglySorted lt (kept1 recs).
Proof. apply filter_sorted, seq_sorted. Qed.

Lemma kept2_sorted (recs : list json) : StronglySorted lt (kept2 recs).
Proof. apply filter_sorted, seq_sorted. Qed.

(** Row [j] of the selected arrays is the row of the [j]-th kept index,
    and holds what the iteration at that index read. *)
Lemma select_state_after_rows {R} (w n : nat) (rowX rowY : R → list float64)
    (rs : list (option R)) (X Y : ndarray) (j i : nat) :
  length rs = n →
  select (state_after w n rowX rowY rs) = Ok (X, Y) →
  indices (state_after w n rowX rowY rs) !! j = Some i →
  ∃ v, rs !! i = Some (Some v)
       ∧ X !! j = Some (rowX v) ∧ Y !! j = Some (rowY v).
Proof.
  intros Hlen Hsel Hj. unfold select in Hsel.
  apply bind_Ok_inv in Hsel as (X' & HX & (Y' & HY & [= <- <-])%bind_Ok_inv).
  apply take_rows_inv in HX, HY.
  destruct (Forall2_lookup_l _ _ _ _ _ HX Hj) as (row & HXj & Hrow).
  destruct (Forall2_lookup_l _ _ _ _ _ HY Hj) as (t & HYj & Ht).
  apply list_elem_of_lookup_2 in Hj.
  apply list_elem_of_filter in Hj as [Hi [_ Hlt]%elem_of_seq].
  cbn in Hrow, Ht.
  rewrite list_lookup_fmap, lookup_seq_lt in Hrow by lia.
  rewrite list_lookup_fmap, lookup_seq_lt in Ht by lia.
  cbn in Hrow, Ht.
  destruct (rs !! i) as [[v|]|]; cbn in Hi; try by destruct Hi.
  exists v. split_and!; congruence.
Qed.

Section Problem1.
Context `{Numpy}.

Lemma problem1_returns_iff (recs : list json) :
  returns (problem1 (JArr recs)) ↔ Forall (λ rec, returns (record1 rec)) recs.
Proof.
  rewrite problem1_eq, <- mapM_result_returns. split.
  - intros [XY (rs & Hrs & _)%bind_Ok_inv]. by eexists.
  - intros [rs Hrs]. rewrite Hrs. by eexists.
Qed.

Lemma problem1_kept_rows (recs : list json) :
  ∀ X Y, problem1 (JArr recs) = Ok (X, Y) →
      (indices <$> problem1_loop (JArr recs)) = Ok (kept1 recs)
      ∧ StronglySorted lt (kept1 recs)
      ∧ length X = length (kept1 recs)
      ∧ length Y = length (kept1 recs)
      ∧ (∀ i, i ∈ kept1 recs ↔
           ∃ rec e c dm ds,
             recs !! i = Some rec ∧ entry_of rec = Some e
             ∧ crystal_of e = Some c
             ∧ c !! "density_matthews" = Some dm
             ∧ c !! "density_percent_sol" = Some ds)
      ∧ (∀ j i, kept1 recs !! j = Some i →
           ∃ rec dm ds x y,
             recs !! i = Some rec ∧ densities rec = Some (dm, ds)
             ∧ np_float np_row_of_object dm = Ok x
             ∧ np_float np_row_of_object ds = Ok y
             ∧ (is_number dm = true → x = number_value dm)
             ∧ (is_number ds = true → y = number_value ds)
             ∧ X !! j = Some [x] ∧ Y !! j = Some [y]).
Proof.
  intros X Y HXY.
  assert (Hsel := HXY). unfold problem1 in Hsel.
  rewrite problem1_loop_eq in Hsel |- *.
  destruct (mapM record1 recs) as [rs|ex] eqn:Hrs; [|done].
  cbn [mbind result_bind] in Hsel. cbn [fmap result_fmap mbind result_bind].
  assert (Hlen := mapM_result_length _ _ _ Hrs).
  assert (Hidx := kept1_indices _ _ Hrs).
  assert (HX : length X = length (kept1 recs)
               ∧ length Y = length (kept1 recs)).
  { unfold select in Hsel.
    apply bind_Ok_inv in Hsel as (X' & HX & (Y' & HY & [= <- <-])%bind_Ok_inv).
    apply take_rows_length in HX, HY. cbn [indices state_after] in HX, HY.
    by rewrite <- Hidx. }
  destruct HX as [HXl HYl].
  split_and!; try done.
  - cbn [indices state_after]. by rewrite Hidx.
  - apply kept1_sorted.
  - intros i. unfold kept1. rewrite list_elem_of_filter, elem_of_seq. split.
    + intros [[[dm ds] Hd] [_ Hi]].
      destruct (recs !! i) as [rec|] eqn:Hrec; [|done]. cbn in Hd.
      apply densities_inv in Hd as (e & c & ?). exists rec, e, c, dm, ds.
      by split.
    + intros (rec & e & c & dm & ds & Hrec & Hd).
      split; [|split; [lia | by eapply lookup_lt_Some]].
      rewrite Hrec. cbn. exists (dm, ds). apply densities_inv. eauto.
  - intros j i Hj.
    destruct (select_state_after_rows 1 (length recs) (λ p, [p.1]) (λ p, [p.2])
                rs X Y j i Hlen Hsel) as ([x y] & Hr & HXj & HYj).
    { cbn [indices state_after]. by rewrite Hidx. }
    destruct (lookup_lt_is_Some_2 recs i) as [rec Hrec].
    { rewrite <- Hlen. by eapply lookup_lt_Some. }
    destruct (mapM_result_lookup _ _ _ _ _ Hrs Hrec) as (r & Hr' & Hread).
    assert (r = Some (x, y)) as -> by congruence.
    apply record1_Some in Hread as (dm & ds & Hd & Hx & Hy).
    exists rec, dm, ds, x, y. split_and!; try done.
    + intros Hn. rewrite (np_float_number _ _ Hn) in Hx. congruence.
    + intros Hn. rewrite (np_float_number _ _ Hn) in Hy. congruence.
Qed.

(** C3 (as amended).  The extraction of Problem 1 returns exactly when
    the reading of every record returns.  When it does, it has one input
    row and one target row per kept index, in the order of the indices.
    The kept indices are in ascending order, and an index is kept exactly
    when the ['entry'] mapping of its record has ['exptl_crystal'] and
    the first crystal has both ['density_matthews'] and
    ['density_percent_sol'].  The input row of a kept record is numpy's
    conversion of its Matthews coefficient to a float, the target row
    that of its solvent content: the number itself, when the value is a
    number.  No other record gives a row. *)
Theorem problem1_rows (recs : list json) :
  (returns (problem1 (JArr recs)) ↔ Forall (λ rec, returns (record1 rec)) recs)
  ∧ ∀ X Y, problem1 (JArr recs) = Ok (X, Y) →
      (indices <$> problem1_loop (JArr recs)) = Ok (kept1 recs)
      ∧ StronglySorted lt (kept1 recs)
      ∧ length X = length (kept1 recs)
      ∧ length Y = length (kept1 recs)
      ∧ (∀ i, i ∈ kept1 recs ↔
           ∃ rec e c dm ds,
             recs !! i = Some rec ∧ entry_of rec = Some e
             ∧ crystal_of e = Some c
             ∧ c !! "density_matthews" = Some dm
             ∧ c !! "density_percent_sol" = Some ds)
      ∧ (∀ j i, kept1 recs !! j = Some i →
           ∃ rec dm ds x y,
             recs !! i = Some rec ∧ densities rec = Some (dm, ds)
             ∧ np_float np_row_of_object dm = Ok x
             ∧ np_float np_row_of_object ds = Ok y
             ∧ (is_number dm = true → x = number_value dm)
             ∧ (is_number ds = true → y = number_value ds)
             ∧ X !! j = Some [x] ∧ Y !! j = Some [y]).
Proof.
  split; [apply problem1_returns_iff | apply problem1_kept_rows].
Qed.
End Problem1.

(** ** Loops over [range(n)] and the shape of the arrays *)

Lemma for_each_seq_invariant {St} (body : St → nat → result St)
    (P : nat → St → Prop) (n : nat) (st0 st : St) :
  P 0%nat st0 →
  (∀ k st st', (k < n)%nat → P k st → body st k = Ok st' → P (S k) st') →
  for_each body (seq 0 n) st0 = Ok st → P n st.
Proof.
  intros H0 Hstep. revert st.
  induction n as [|n IH]; intros st.
  - cbn. by intros [= <-].
  - rewrite seq_S, for_each_snoc. cbn [plus].
    intros (st1 & Hst1 & Hbody)%bind_Ok_inv.
    eapply Hstep; [|apply IH|]; eauto.
Qed.

Lemma widths_zeros (n w : nat) : widths w (np_zeros n w).
Proof.
  unfold widths, np_zeros. apply Forall_replicate, length_replicate.
Qed.

Lemma widths_lookup (w : nat) (a : ndarray) (i : nat) (row : list float64) :
  widths w a → a !! i = Some row → length row = w.
Proof.
  intros Ha Hi. unfold widths in Ha. rewrite Forall_lookup in Ha.
  by apply (Ha i row).
Qed.

Lemma widths_set_row (w : nat) (a a' : ndarray) (i : nat) (x : float64) :
  widths w a → set_row a i x = Ok a' → widths w a'.
Proof.
  intros Ha (row & Hrow & ->)%set_row_inv.
  apply Forall_insert; [done|]. rewrite length_replicate.
  by eapply widths_lookup.
Qed.

Lemma widths_set_cell (w : nat) (a a' : ndarray) (i k : nat) (x : float64) :
  widths w a → set_cell a i k x = Ok a' → widths w a'.
Proof.
  intros Ha (row & Hrow & _ & ->)%set_cell_inv.
  apply Forall_insert; [done|]. rewrite length_insert.
  by eapply widths_lookup.
Qed.

Create HintDb shapes.
#[local] Hint Resolve widths_zeros widths_set_row widths_set_cell : shapes.

Section Shapes.
Context `{Numpy}.

Lemma widths_set_cell_field (w : nat) (entry : json) (field : string)
    (i k : nat) (a a' : ndarray) :
  widths w a → set_cell_field entry field i k a = Ok a' → widths w a'.
Proof.
  intros Ha Hset. unfold set_cell_field in Hset. inv_bind.
  eauto with shapes.
Qed.

Hint Resolve widths_set_cell_field : shapes.

Lemma problem1_body_shaped (data : json) (st st' : extraction) (i : nat) :
  shaped 1 st → problem1_body data st i = Ok st' → shaped 1 st'.
Proof.
  intros [Hin Htg] Hbody. unfold problem1_body in Hbody. inv_bind.
  match goal with c : bool |- _ => destruct c end; [|by simplify_eq].
  inv_bind. simplify_eq. split; cbn; eauto with shapes.
Qed.

Lemma problem2_body_shaped (data : json) (st st' : extraction) (i : nat) :
  shaped 9 st → problem2_body data st i = Ok st' → shaped 9 st'.
Proof.
  intros [Hin Htg] Hbody. unfold problem2_body in Hbody. inv_bind.
  match goal with c : bool |- _ => destruct c end; [|by simplify_eq].
  inv_bind. simplify_eq. split; cbn; [|eauto with shapes].
  repeat match goal with
  | Hw : widths 9 ?a, Hs : set_cell_field _ _ _ _ ?a = Ok ?a' |- _ =>
      apply (widths_set_cell_field 9 _ _ _ _ a a' Hw) in Hs
  | Hw : widths 9 ?a, Hs : set_cell ?a _ _ _ = Ok ?a' |- _ =>
      apply (widths_set_cell 9 a a' _ _ _ Hw) in Hs
  end.
  done.
Qed.

Lemma problem1_loop_shaped (data : json) (st : extraction) :
  problem1_loop data = Ok st → shaped 1 st.
Proof.
  unfold problem1_loop. intros (n & _ & Hloop)%bind_Ok_inv.
  eapply (for_each_seq_invariant _ (λ _, shaped 1)); [| |exact Hloop].
  - split; apply widths_zeros.
  - intros k s s' _. apply problem1_body_shaped.
Qed.

Lemma problem2_loop_shaped (data : json) (st : extraction) :
  problem2_loop data = Ok st → shaped 9 st.
Proof.
  unfold problem2_loop. intros (n & _ & Hloop)%bind_Ok_inv.
  eapply (for_each_seq_invariant _ (λ _, shaped 9)); [| |exact Hloop].
  - split; apply widths_zeros.
  - intros k s s' _. apply problem2_body_shaped.
Qed.

Lemma select_shaped (w : nat) (st : extraction) (X Y : ndarray) :
  shaped w st → select st = Ok (X, Y) →
  widths w X ∧ widths 1 Y
  ∧ length X = length (indices st) ∧ length Y = length (indices st).
Proof.
  intros [Hin Htg] Hsel. unfold select in Hsel. inv_bind. simplify_eq.
  split_and!.
  - by eapply take_rows_Forall.
  - by eapply take_rows_Forall.
  - by eapply take_rows_length.
  - by eapply take_rows_length.
Qed.

(** C5.  Whenever an extraction returns, the feature matrix has exactly
    1 column in Problem 1 and exactly 9 columns in Problem 2, the target
    has exactly one column in both, and both have one row per kept
    entry. *)
Theorem feature_matrix_shapes (data : json) :
  (∀ X Y, problem1 data = Ok (X, Y) →
     ∃ st, problem1_loop data = Ok st
           ∧ Forall (λ row, length row = 1%nat) X
           ∧ Forall (λ row, length row = 1%nat) Y
           ∧ length X = length (indices st)
           ∧ length Y = length (indices st))
  ∧ (∀ X Y, problem2 data = Ok (X, Y) →
       ∃ st, problem2_loop data = Ok st
             ∧ Forall (λ row, length row = 9%nat) X
             ∧ Forall (λ row, length row = 1%nat) Y
             ∧ length X = length (indices st)
             ∧ length Y = length (indices st)).
Proof.
  split; intros X Y (st & Hloop & Hsel)%bind_Ok_inv; exists st;
    (split; [done|]).
  - eapply select_shaped; [|done]. by eapply problem1_loop_shaped.
  - eapply select_shaped; [|done]. by eapply problem2_loop_shaped.
Qed.
End Shapes.

(** ** The mass feature of Problem 2 *)

Section Problem2Mass.
Context `{Numpy}.

Lemma features2_mass (e : gmap string json) (xs : list float64) (s : string) :
  features2 (JObj e) = Ok xs →
  e !! "pdbx_seq_one_letter_code" = Some (JStr s) →
  xs !! 8%nat = Some (float_of_int (110 * Z.of_nat (String.length s))).
Proof.
  intros Hxs Hs. unfold features2 in Hxs.
  repeat (apply bind_Ok_inv in Hxs as (? & ? & Hxs)).
  injection Hxs as <-. cbn.
  match goal with
  | Hm : mass_feature _ = Ok _ |- _ => unfold mass_feature in Hm; cbn in Hm;
      rewrite Hs in Hm; cbn in Hm; apply py_float_of_int_Ok in Hm as ->
  end.
  by rewrite Z.mul_comm.
Qed.

(** C10.  For every entry kept by Problem 2 whose
    ['pdbx_seq_one_letter_code'] is a string, the ninth feature of its
    row (column index 8) is 110 times the number of characters of that
    string. *)
Theorem problem2_mass (recs : list json) (st : extraction) (X Y : ndarray) :
  problem2_loop (JArr recs) = Ok st → select st = Ok (X, Y) →
  ∀ j i rec e s,
    indices st !! j = Some i →
    recs !! i = Some rec → entry_of rec = Some e →
    e !! "pdbx_seq_one_letter_code" = Some (JStr s) →
    ∃ row, X !! j = Some row
           ∧ row !! 8%nat = Some (float_of_int (110 * Z.of_nat (String.length s))).
Proof.
  rewrite problem2_loop_eq.
  intros (rs & Hrs & [= <-])%bind_Ok_inv Hsel j i rec e s Hj Hrec He Hs.
  assert (Hlen := mapM_result_length _ _ _ Hrs).
  destruct (select_state_after_rows _ _ _ _ _ _ _ _ _ Hlen Hsel Hj)
    as ([xs y] & Hr & HXj & _).
  destruct (mapM_result_lookup _ _ _ _ _ Hrs Hrec) as (r & Hr' & Hread).
  assert (r = Some (xs, y)) as -> by congruence.
  apply record2_Some in Hread as (e' & v & He' & _ & Hxs & _).
  assert (e' = e) as -> by congruence.
  exists xs. split; [done|]. by eapply features2_mass.
Qed.
End Problem2Mass.

(** ** Missing fields *)

Section MissingFields.
Context `{Numpy}.

(** The record at index [k] is read through its ['entry'] mapping. *)
Lemma record1_entry (rec : json) (e : gmap string json) :
  entry_of rec = Some e →
  record1 rec
  = (cond ← problem1_cond (JObj e);
     if cond : bool then
       x ← density "density_matthews" (JObj e);
       y ← density "density_percent_sol" (JObj e);
       Ok (Some (x, y))
     else Ok None).
Proof. intros He%entry_of_getitem. unfold record1. by rewrite He. Qed.

Lemma record2_entry (rec : json) (e : gmap string json) :
  entry_of rec = Some e →
  record2 rec
  = (cond ← problem2_cond (JObj e);
     if cond : bool then
       xs ← features2 (JObj e);
       y ← density "density_matthews" (JObj e);
       Ok (Some (xs, y))
     else Ok None).
Proof. intros He%entry_of_getitem. unfold record2. by rewrite He. Qed.

(** An iteration whose test fails leaves the state as it is, and one whose
    test succeeds appends its index when it returns. *)
Lemma problem2_body_false (recs : list json) (st : extraction) (k : nat)
    (rec : json) (e : gmap string json) :
  recs !! k = Some rec → entry_of rec = Some e →
  problem2_cond (JObj e) = Ok false →
  problem2_body (JArr recs) st k = Ok st.
Proof.
  intros Hk He%entry_of_getitem Hc. unfold problem2_body. cbn [getitem_int].
  rewrite Hk. cbn [mbind result_bind]. rewrite He. cbn [mbind result_bind].
  by rewrite Hc.
Qed.

Lemma problem2_body_true (recs : list json) (st st' : extraction) (k : nat)
    (rec : json) (e : gmap string json) :
  recs !! k = Some rec → entry_of rec = Some e →
  problem2_cond (JObj e) = Ok true →
  problem2_body (JArr recs) st k = Ok st' →
  indices st' = indices st ++ [k].
Proof.
  intros Hk He%entry_of_getitem Hc. unfold problem2_body. cbn [getitem_int].
  rewrite Hk. cbn [mbind result_bind]. rewrite He. cbn [mbind result_bind].
  rewrite Hc. cbn [mbind result_bind]. intros Hbody.
  repeat (apply bind_Ok_inv in Hbody as (? & _ & Hbody)).
  by injection Hbody as <-.
Qed.

Lemma problem2_cond_no_cell (e : gmap string json) :
  e !! "cell" = None → problem2_cond (JObj e) = Ok false.
Proof.
  intros He. unfold problem2_cond, py_and. cbn [py_in mbind result_bind].
  by rewrite He, bool_decide_eq_false_2 by (by intros [? ?]).
Qed.

Lemma problem2_cond_crystal (e c : gmap string json) :
  is_Some (e !! "cell") → crystal_of e = Some c →
  problem2_cond (JObj e)
  = Ok (bool_decide (is_Some (c !! "density_matthews"))).
Proof.
  intros Hcell Hc. unfold problem2_cond, py_and.
  cbn [py_in mbind result_bind].
  rewrite bool_decide_eq_true_2 by done.
  by rewrite (first_crystal_Ok e c Hc).
Qed.

Lemma problem2_cond_no_crystal (e : gmap string json) :
  is_Some (e !! "cell") → e !! "exptl_crystal" = None →
  problem2_cond (JObj e) = Raise KeyError.
Proof.
  intros Hcell Hc. unfold problem2_cond, py_and, first_crystal.
  cbn [py_in getitem_str mbind result_bind].
  rewrite bool_decide_eq_true_2 by done. by rewrite Hc.
Qed.

(** What the Problem-2 loop misses and the Problem-1 loop has: the test
    ['exptl_crystal' in entry].  With ['cell'] and without
    ['exptl_crystal'] the test itself raises KeyError. *)
Lemma problem2_body_no_crystal (recs : list json) (st : extraction)
    (k : nat) (rec : json) (e : gmap string json) :
  recs !! k = Some rec → entry_of rec = Some e →
  is_Some (e !! "cell") → e !! "exptl_crystal" = None →
  problem2_body (JArr recs) st k = Raise KeyError.
Proof.
  intros Hk He%entry_of_getitem Hcell Hc. unfold problem2_body.
  cbn [getitem_int]. rewrite Hk. cbn [mbind result_bind].
  rewrite He. cbn [mbind result_bind].
  by rewrite problem2_cond_no_crystal.
Qed.

(** *** Records that are well formed *)

Lemma problem1_cond_no_crystal (e : gmap string json) :
  e !! "exptl_crystal" = None → problem1_cond (JObj e) = Ok false.
Proof.
  intros He. unfold problem1_cond, py_and. cbn [py_in mbind result_bind].
  by rewrite He, bool_decide_eq_false_2 by (by intros [? ?]).
Qed.

Lemma problem1_cond_crystal (e c : gmap string json) :
  crystal_of e = Some c →
  problem1_cond (JObj e)
  = Ok (bool_decide (is_Some (c !! "density_matthews"))
        && bool_decide (is_Some (c !! "density_percent_sol"))).
Proof.
  intros Hc. unfold problem1_cond, py_and.
  rewrite (first_crystal_Ok e c Hc).
  destruct (crystal_of_inv _ _ Hc) as [rest He].
  cbn [py_in mbind result_bind]. rewrite He.
  rewrite bool_decide_eq_true_2 by eauto.
  by destruct (bool_decide (is_Some (c !! "density_matthews"))).
Qed.

(** On a record Problem 1 expects, the reading returns: the two numbers
    when both are there, nothing otherwise. *)
Lemma record1_wf (rec : json) :
  wf_record1 rec = true →
  record1 rec
  = Ok (match densities rec with
        | Some (dm, ds) => Some (number_value dm, number_value ds)
        | None => None
        end).
Proof.
  unfold wf_record1. destruct (entry_of rec) as [e|] eqn:He; [|done].
  destruct (densities rec) as [[dm ds]|] eqn:Hd.
  - assert (Hd' := Hd).
    apply densities_inv in Hd' as (e' & c & He' & Hc & Hdm & Hds).
    assert (e' = e) as -> by congruence.
    destruct (crystal_of_inv _ _ Hc) as [rest Hx].
    rewrite Hx, Hdm, Hds. intros [Hn1 Hn2]%andb_true_iff.
    rewrite (record1_densities _ _ _ Hd).
    by rewrite !np_float_number by done.
  - intros Hwf. rewrite (record1_entry _ _ He).
    destruct (e !! "exptl_crystal") as [xc|] eqn:Hx.
    + destruct xc as [| | | | |[|[| | | | | |c] rest]|]; try done.
      assert (Hc : crystal_of e = Some c) by (unfold crystal_of; by rewrite Hx).
      rewrite (problem1_cond_crystal _ _ Hc).
      unfold densities in Hd. rewrite He in Hd. cbn in Hd.
      rewrite Hc in Hd. cbn in Hd.
      destruct (c !! "density_matthews") as [dm|]; cbn in Hd |- *; [|done].
      by destruct (c !! "density_percent_sol") as [ds|].
    + by rewrite problem1_cond_no_crystal.
Qed.

Lemma problem1_body_wf (recs : list json) (st : extraction) (k : nat)
    (rec : json) :
  recs !! k = Some rec → wf_record1 rec = true →
  (k < length (all_inputs st))%nat → (k < length (all_targets st))%nat →
  returns (problem1_body (JArr recs) st k)
  ∧ (densities rec = None → problem1_body (JArr recs) st k = Ok st).
Proof.
  intros Hk Hwf Hli Hlt.
  destruct (lookup_lt_is_Some_2 _ _ Hli) as [row Hrow].
  destruct (lookup_lt_is_Some_2 _ _ Hlt) as [t Ht].
  rewrite (problem1_body_read _ _ _ _ _ _ Hk Hrow Ht), (record1_wf _ Hwf).
  cbn [mbind result_bind]. split; [by eexists|]. by intros ->.
Qed.

Lemma cell_field_number (e cell : gmap string json) (field : string) :
  e !! "cell" = Some (JObj cell) → has_number cell field = true →
  returns (cell_field (JObj e) field).
Proof.
  intros He Hn. unfold cell_field, has_number in *. cbn [getitem_str].
  rewrite He. cbn [mbind result_bind getitem_str].
  destruct (cell !! field) as [v|]; [|done]. cbn [mbind result_bind].
  rewrite np_float_number by done. by eexists.
Qed.

(** With the six numbers of the cell, the features are read up to the
    space group. *)
Lemma features2_wf_cell (e : gmap string json) :
  wf_cell e = true →
  ∃ x0 x1 x2 x3 x4 x5,
    features2 (JObj e)
    = (x6 ← group_feature (JObj e);
       x7 ← table_feature (JObj e);
       x8 ← mass_feature (JObj e);
       Ok [x0; x1; x2; x3; x4; x5; x6; x7; x8]).
Proof.
  unfold wf_cell. destruct (e !! "cell") as [[| | | | | |cell]|] eqn:He;
    try done.
  cbn [forallb cell_fields]. rewrite !andb_true_iff.
  intros (H0 & H1 & H2 & H3 & H4 & H5 & _).
  destruct (cell_field_number e cell _ He H0) as [x0 E0].
  destruct (cell_field_number e cell _ He H1) as [x1 E1].
  destruct (cell_field_number e cell _ He H2) as [x2 E2].
  destruct (cell_field_number e cell _ He H3) as [x3 E3].
  destruct (cell_field_number e cell _ He H4) as [x4 E4].
  destruct (cell_field_number e cell _ He H5) as [x5 E5].
  exists x0, x1, x2, x3, x4, x5. unfold features2.
  by rewrite E0, E1, E2, E3, E4, E5.
Qed.

Lemma group_feature_no_symmetry (e : gmap string json) :
  e !! "symmetry" = None → group_feature (JObj e) = Raise KeyError.
Proof. intros He. unfold group_feature. cbn [getitem_str]. by rewrite He. Qed.

Lemma symmetry_features_wf (e : gmap string json) :
  wf_symmetry e = true →
  returns (group_feature (JObj e)) ∧ returns (table_feature (JObj e)).
Proof.
  unfold wf_symmetry, group_feature, table_feature.
  destruct (e !! "symmetry") as [[| | | | | |sym]|] eqn:Hs; try done.
  destruct (sym !! "space_group_name_hm") as [[| | | |name| |]|] eqn:Hname;
    try done.
  destruct (sym !! "int_tables_number") as [num|] eqn:Hnm; [|done].
  intros [Hx6%is_ok_returns Hx7%is_ok_returns]%andb_true_iff.
  cbn [getitem_str]. rewrite Hs. cbn [mbind result_bind getitem_str].
  by rewrite Hname, Hnm.
Qed.

Lemma mass_feature_no_sequence (e : gmap string json) :
  e !! "pdbx_seq_one_letter_code" = None →
  mass_feature (JObj e) = Raise KeyError.
Proof. intros He. unfold mass_feature. cbn [getitem_str]. by rewrite He. Qed.

Lemma mass_feature_wf (e : gmap string json) :
  wf_sequence e = true → returns (mass_feature (JObj e)).
Proof.
  unfold wf_sequence, mass_feature.
  destruct (e !! "pdbx_seq_one_letter_code") as [[| | | |s| |]|] eqn:Hq;
    try done.
  intros Hok%is_ok_returns. cbn [getitem_str]. rewrite Hq.
  by cbn [mbind result_bind py_len].
Qed.

Lemma wf_crystal2_density (e : gmap string json) :
  wf_cell e = true → wf_crystal2 e = true →
  problem2_cond (JObj e) = Ok true
  ∧ returns (density "density_matthews" (JObj e)).
Proof.
  unfold wf_cell, wf_crystal2, has_number. intros Hcell Hc.
  destruct (crystal_of e) as [c|] eqn:Hcr; [|done].
  destruct (c !! "density_matthews") as [v|] eqn:Hv; [|done].
  rewrite (problem2_cond_crystal e c), Hv; [| |done].
  - rewrite bool_decide_eq_true_2 by eauto. split; [done|].
    rewrite (density_eq _ _ _ _ Hcr Hv), np_float_number by done.
    by eexists.
  - by destruct (e !! "cell").
Qed.

(** On a record Problem 2 expects, the reading returns a row. *)
Lemma record2_wf (rec : json) :
  wf_record2 rec = true → ∃ xs y, record2 rec = Ok (Some (xs, y)).
Proof.
  unfold wf_record2. destruct (entry_of rec) as [e|] eqn:He; [|done].
  rewrite !andb_true_iff. intros [[[Hcell Hsym] Hseq] Hcr].
  rewrite (record2_entry _ _ He).
  destruct (wf_crystal2_density e Hcell Hcr) as [-> [y ->]].
  destruct (features2_wf_cell e Hcell) as (x0 & x1 & x2 & x3 & x4 & x5 & ->).
  destruct (symmetry_features_wf e Hsym) as [[x6 ->] [x7 ->]].
  destruct (mass_feature_wf e Hseq) as [x8 ->].
  cbn [mbind result_bind]. eauto.
Qed.

(** A record that passes the test and has no ['symmetry'], or no
    ['pdbx_seq_one_letter_code']: the access raises KeyError. *)
Lemma record2_no_symmetry (rec : json) (e : gmap string json) :
  entry_of rec = Some e → problem2_cond (JObj e) = Ok true →
  wf_cell e = true → e !! "symmetry" = None →
  record2 rec = Raise KeyError.
Proof.
  intros He Hc Hcell Hs. rewrite (record2_entry _ _ He), Hc.
  destruct (features2_wf_cell e Hcell) as (x0 & x1 & x2 & x3 & x4 & x5 & ->).
  by rewrite group_feature_no_symmetry.
Qed.

Lemma record2_no_sequence (rec : json) (e : gmap string json) :
  entry_of rec = Some e → problem2_cond (JObj e) = Ok true →
  wf_cell e = true → wf_symmetry e = true →
  e !! "pdbx_seq_one_letter_code" = None →
  record2 rec = Raise KeyError.
Proof.
  intros He Hc Hcell Hsym Hq. rewrite (record2_entry _ _ He), Hc.
  destruct (features2_wf_cell e Hcell) as (x0 & x1 & x2 & x3 & x4 & x5 & ->).
  destruct (symmetry_features_wf e Hsym) as [[x6 ->] [x7 ->]].
  by rewrite mass_feature_no_sequence.
Qed.

(** *** Records that lack keys *)

Lemma lookup_drop_keys_in (K : list string) (m : gmap string json) (k : string) :
  k ∈ K → drop_keys K m !! k = None.
Proof.
  unfold drop_keys. induction K as [|k' K IH]; [by intros ?%elem_of_nil|].
  intros Hk. cbn. destruct (decide (k' = k)) as [->|Hne].
  - apply lookup_delete_eq.
  - rewrite lookup_delete_ne by done. apply IH.
    by apply elem_of_cons in Hk as [->|Hk].
Qed.

Lemma lookup_drop_keys_notin (K : list string) (m : gmap string json)
    (k : string) :
  k ∉ K → drop_keys K m !! k = m !! k.
Proof.
  unfold drop_keys. induction K as [|k' K IH]; [done|].
  intros [Hne Hk]%not_elem_of_cons. cbn.
  rewrite lookup_delete_ne by done. by apply IH.
Qed.

Lemma lookup_drop_keys (K : list string) (m : gmap string json) (k : string) :
  drop_keys K m !! k = None ∨ drop_keys K m !! k = m !! k.
Proof.
  destruct (decide (k ∈ K)).
  - left. by apply lookup_drop_keys_in.
  - right. by apply lookup_drop_keys_notin.
Qed.

Lemma entry_of_lacking (K : list string) (rec : json) (e : gmap string json) :
  entry_of rec = Some e → entry_of (lacking K rec) = Some (lacking_entry K e).
Proof.
  intros (r & -> & Hr)%entry_of_inv. cbn. rewrite Hr. cbn.
  by rewrite lookup_insert_eq.
Qed.

Lemma lacking_entry_cell (K : list string) (e : gmap string json) :
  "cell" ∈ K → lacking_entry K e !! "cell" = None.
Proof.
  intros HK. unfold lacking_entry.
  destruct (drop_keys K e !! "exptl_crystal")
    as [[| | | | |[|[| | | | | |c] rest]|]|];
    rewrite ?lookup_insert_ne by done; by apply lookup_drop_keys_in.
Qed.

Lemma lacking_entry_crystal (K : list string) (e : gmap string json) :
  lacking_entry K e !! "exptl_crystal" = None
  ∨ (∃ c rest, e !! "exptl_crystal" = Some (JArr (JObj c :: rest))
       ∧ lacking_entry K e !! "exptl_crystal"
         = Some (JArr (JObj (drop_keys K c) :: rest)))
  ∨ lacking_entry K e !! "exptl_crystal" = e !! "exptl_crystal".
Proof.
  unfold lacking_entry.
  destruct (lookup_drop_keys K e "exptl_crystal") as [Hx | Hx].
  { left. by rewrite Hx. }
  destruct (drop_keys K e !! "exptl_crystal")
    as [[| | | | |[|[| | | | | |c] rest]|]|] eqn:Hd;
    try (by right; right; rewrite Hd).
  right. left. exists c, rest. split; [done|]. apply lookup_insert_eq.
Qed.

(** Removing keys from a well-formed record leaves it well formed for
    Problem 1. *)
Lemma wf_record1_lacking (K : list string) (rec : json) :
  wf_record1 rec = true → wf_record1 (lacking K rec) = true.
Proof.
  unfold wf_record1. destruct (entry_of rec) as [e|] eqn:He; [|done].
  rewrite (entry_of_lacking K rec e He). intros Hwf.
  destruct (lacking_entry_crystal K e)
    as [-> | [(c & rest & Hc & ->) | ->]]; [done | | done].
  rewrite Hc in Hwf.
  destruct (lookup_drop_keys K c "density_matthews") as [-> | ->]; [done|].
  destruct (lookup_drop_keys K c "density_percent_sol") as [-> | ->]; [|done].
  by destruct (c !! "density_matthews").
Qed.

(** C2 (as amended).  In the Problem-1 loop a record whose present
    fields are well formed raises nothing, whichever of the keys it
    lacks, and is skipped unless it has ['exptl_crystal'] and both
    densities.  In the Problem-2 loop the membership tests are for
    ['cell'] and, in the first crystal, for ['density_matthews']: an
    entry without ['cell'] is skipped, whatever else it lacks; an entry
    with ['cell'] and an ['exptl_crystal'] list whose first crystal lacks
    ['density_matthews'] is skipped; an entry that has every field, well
    formed, is kept.  ['symmetry'] and ['pdbx_seq_one_letter_code'] are
    read without a membership test.  An entry on which the two tests
    succeed is never skipped: the iteration keeps it or raises.  When
    moreover its cell has the six numbers and the rows have their nine
    cells, the iteration raises KeyError if the entry has no
    ['symmetry'], and also if its symmetry is well formed and it has no
    ['pdbx_seq_one_letter_code']. *)
Theorem missing_fields (recs : list json) (st : extraction) (k : nat)
    (rec : json) (e : gmap string json) :
  recs !! k = Some rec → entry_of rec = Some e →
  (k < length (all_inputs st))%nat → (k < length (all_targets st))%nat →
  (wf_record1 rec = true →
     returns (problem1_body (JArr recs) st k)
     ∧ (densities rec = None → problem1_body (JArr recs) st k = Ok st)
     ∧ (∀ K, returns (problem1_body (JArr (<[k := lacking K rec]> recs)) st k)))
  ∧ (e !! "cell" = None → problem2_body (JArr recs) st k = Ok st)
  ∧ (∀ K, "cell" ∈ K →
          problem2_body (JArr (<[k := lacking K rec]> recs)) st k = Ok st)
  ∧ (∀ c, is_Some (e !! "cell") → crystal_of e = Some c →
          c !! "density_matthews" = None →
          problem2_body (JArr recs) st k = Ok st)
  ∧ (wf_record2 rec = true →
     widths 9 (all_inputs st) → widths 1 (all_targets st) →
     ∃ st', problem2_body (JArr recs) st k = Ok st'
            ∧ indices st' = indices st ++ [k])
  ∧ (problem2_cond (JObj e) = Ok true →
     (∀ st', problem2_body (JArr recs) st k = Ok st' →
             indices st' = indices st ++ [k])
     ∧ (wf_cell e = true →
        widths 9 (all_inputs st) → widths 1 (all_targets st) →
        (e !! "symmetry" = None →
           problem2_body (JArr recs) st k = Raise KeyError)
        ∧ (wf_symmetry e = true → e !! "pdbx_seq_one_letter_code" = None →
           problem2_body (JArr recs) st k = Raise KeyError))).
Proof.
  intros Hk He Hli Hlt.
  assert (Hlack : ∀ K, <[k := lacking K rec]> recs !! k = Some (lacking K rec)).
  { intros K. apply list_lookup_insert_eq. by eapply lookup_lt_Some. }
  assert (Hread : widths 9 (all_inputs st) → widths 1 (all_targets st) →
            problem2_body (JArr recs) st k
            = (r ← record2 rec; Ok (written fst (λ p, [p.2]) st k r))).
  { intros Hwi Hwt.
    destruct (lookup_lt_is_Some_2 _ _ Hli) as [row Hrow].
    destruct (lookup_lt_is_Some_2 _ _ Hlt) as [t Ht].
    eapply problem2_body_read; [done..|by eapply widths_lookup|done|].
    by eapply widths_lookup. }
  split_and!.
  - intros Hwf. split_and!.
    + by apply (problem1_body_wf recs st k rec).
    + by apply (problem1_body_wf recs st k rec).
    + intros K. apply (problem1_body_wf _ st k (lacking K rec)); [done| |done..].
      by apply wf_record1_lacking.
  - intros Hcell. apply (problem2_body_false recs st k rec e Hk He).
    by apply problem2_cond_no_cell.
  - intros K HK.
    apply (problem2_body_false _ st k _ _ (Hlack K) (entry_of_lacking K rec e He)).
    by apply problem2_cond_no_cell, lacking_entry_cell.
  - intros c Hcell Hc Hdm.
    apply (problem2_body_false recs st k rec e Hk He).
    rewrite (problem2_cond_crystal e c Hcell Hc), Hdm.
    by rewrite bool_decide_eq_false_2 by (by intros [? ?]).
  - intros Hwf Hwi Hwt. rewrite (Hread Hwi Hwt).
    destruct (record2_wf rec Hwf) as (xs & y & ->).
    cbn [mbind result_bind written]. eauto.
  - intros Hc. split.
    + intros st'. by apply (problem2_body_true recs st st' k rec e).
    + intros Hcell Hwi Hwt. rewrite (Hread Hwi Hwt). split.
      * intros Hs. by rewrite (record2_no_symmetry rec e).
      * intros Hsym Hq. by rewrite (record2_no_sequence rec e).
Qed.
End MissingFields.

(** ** Loading *)

Lemma file_lines_concat (content : string) :
  foldr String.append EmptyString (file_lines content) = content.
Proof.
  induction content as [|c rest IH]; [done|]. cbn [file_lines].
  case_decide.
  - cbn. by rewrite IH.
  - destruct (file_lines rest) as [|line lines]; cbn in *; by rewrite <- IH.
Qed.

Section LoadingFacts.
Context `{JsonLib}.

Lemma append_json_eq (acc : list json) (line : string) :
  append_json acc line = (v ← json_loads line; Ok (acc ++ [v])).
Proof. reflexivity. Qed.

Lemma load_lines_inv (lines : list string) (acc jsons : list json) :
  for_each append_json lines acc = Ok jsons ↔
  ∃ vs, Forall2 (λ line v, json_loads line = Ok v) lines vs
        ∧ jsons = acc ++ vs.
Proof.
  revert acc. induction lines as [|line lines IH]; intros acc;
    cbn [for_each].
  - split.
    + intros [= <-]. exists []. by rewrite app_nil_r.
    + intros (vs & Hvs & ->). apply Forall2_nil_inv_l in Hvs as ->.
      by rewrite app_nil_r.
  - rewrite append_json_eq. split.
    + destruct (json_loads line) as [v|e] eqn:Hv; cbn [mbind result_bind].
      * intros (vs & Hvs & ->)%IH. exists (v :: vs).
        split; [by constructor | by rewrite <- app_assoc].
      * intros [=].
    + intros (vs & Hvs & ->).
      apply Forall2_cons_inv_l in Hvs as (v & vs' & Hv & Hvs' & ->).
      rewrite Hv. cbn [mbind result_bind]. apply IH. exists vs'.
      split; [done | by rewrite <- app_assoc].
Qed.

Lemma load_jsons_iff (content : string) (jsons : list json) :
  load_jsons content = Ok jsons ↔
  Forall2 (λ line v, json_loads line = Ok v) (file_lines content) jsons.
Proof.
  unfold load_jsons. rewrite load_lines_inv. split.
  - by intros (vs & Hvs & ->).
  - intros Hvs. by exists jsons.
Qed.
End LoadingFacts.

Section NotebookFacts.
Context `{Numpy} `{JsonLib}.

(** C6.  The loader parses every line of the file, in order, as one
    JSON value: it returns exactly when [json.loads] accepts every line,
    and then [jsons] holds the parsed values line by line.  What follows
    uses the first of them only: the variable [data] and the datasets of
    both problems are determined by the value parsed from the first
    line. *)
Theorem loader_first_line (content : string) :
  foldr String.append EmptyString (file_lines content) = content
  ∧ (∀ jsons, load_jsons content = Ok jsons ↔
       Forall2 (λ line v, json_loads line = Ok v) (file_lines content) jsons)
  ∧ (∀ d rest, load_jsons content = Ok (d :: rest) →
       load_data content = (_ ← py_len d; Ok d)
       ∧ notebook content = (_ ← py_len d; datasets_of d))
  ∧ (∀ content' d rest rest',
       load_jsons content = Ok (d :: rest) →
       load_jsons content' = Ok (d :: rest') →
       load_data content = load_data content'
       ∧ notebook content = notebook content').
Proof.
  assert (Hfirst : ∀ c d rest, load_jsons c = Ok (d :: rest) →
            load_data c = (_ ← py_len d; Ok d)
            ∧ notebook c = (_ ← py_len d; datasets_of d)).
  { intros c d rest Hload. unfold notebook, load_data. rewrite Hload.
    cbn [mbind result_bind first_json lookup list_lookup].
    by destruct (py_len d). }
  split_and!.
  - apply file_lines_concat.
  - apply load_jsons_iff.
  - apply Hfirst.
  - intros content' d rest rest' H1 H2.
    destruct (Hfirst _ _ _ H1) as [-> ->].
    by destruct (Hfirst _ _ _ H2) as [-> ->].
Qed.
End NotebookFacts.

(** ** The train/test split *)

Lemma split_point_le (n : nat) : (5 * n / 6 ≤ n)%nat.
Proof. apply Nat.Div0.div_le_upper_bound. lia. Qed.

Lemma take_rows_returns (a : ndarray) (idx : list nat) :
  Forall (λ j, j < length a)%nat idx →
  take_rows a idx = Ok ((λ j, default [] (a !! j)) <$> idx).
Proof.
  intros Hidx. apply take_rows_fmap. intros j Hj.
  rewrite list.Forall_forall in Hidx.
  destruct (lookup_lt_is_Some_2 a j (Hidx j Hj)) as [row ->]. done.
Qed.

Lemma rows_of_seq (a : ndarray) :
  (λ j, default [] (a !! j)) <$> seq 0 (length a) = a.
Proof.
  apply list_eq. intros i. rewrite list_lookup_fmap.
  destruct (decide (i < length a)%nat) as [Hi|Hi].
  - rewrite lookup_seq_lt by done. cbn.
    by destruct (lookup_lt_is_Some_2 a i Hi) as [row ->].
  - rewrite lookup_seq_ge by lia. symmetry. apply lookup_ge_None_2. lia.
Qed.

Section Split.
Context `{Numpy}.

Lemma train_test_app (n : nat) :
  train_indices n ++ test_indices n = np_permutation n.
Proof. apply take_drop. Qed.

Lemma np_permutation_length (n : nat) : length (np_permutation n) = n.
Proof. by rewrite (np_permutation_perm n), length_seq. Qed.

Lemma np_permutation_lt (n : nat) :
  Forall (λ j, j < n)%nat (np_permutation n).
Proof.
  rewrite (np_permutation_perm n). apply list.Forall_forall.
  intros j Hj%elem_of_seq. lia.
Qed.

(** C9.  The split partitions the rows.  The two index lists are
    disjoint, together they are a permutation of [0..n-1], the training
    list has [5n // 6] indices and the test list the other
    [n - 5n // 6], and every row index is in exactly one of the two.
    The split itself returns, with as many training and test rows, and
    the rows of the two sets together are the rows of [X]. *)
Theorem train_test_partition (n : nat) :
  train_indices n ++ test_indices n ≡ₚ seq 0 n
  ∧ NoDup (train_indices n ++ test_indices n)
  ∧ (∀ i, i ∈ train_indices n → i ∈ test_indices n → False)
  ∧ length (train_indices n) = (5 * n / 6)%nat
  ∧ length (test_indices n) = (n - 5 * n / 6)%nat
  ∧ (∀ i, (i < n)%nat →
       (i ∈ train_indices n ∧ ¬ i ∈ test_indices n)
       ∨ (¬ i ∈ train_indices n ∧ i ∈ test_indices n))
  ∧ (∀ X Y, length X = n → length Y = n →
       ∃ d, train_test_split X Y = Ok d
            ∧ length (inputs_training d) = (5 * n / 6)%nat
            ∧ length (targets_training d) = (5 * n / 6)%nat
            ∧ length (inputs_testing d) = (n - 5 * n / 6)%nat
            ∧ length (targets_testing d) = (n - 5 * n / 6)%nat
            ∧ inputs_training d ++ inputs_testing d ≡ₚ X
            ∧ targets_training d ++ targets_testing d ≡ₚ Y).
Proof.
  pose proof (split_point_le n) as Hle.
  assert (Hperm : train_indices n ++ test_indices n ≡ₚ seq 0 n).
  { rewrite train_test_app. apply np_permutation_perm. }
  assert (Hnodup : NoDup (train_indices n ++ test_indices n)).
  { rewrite Hperm. apply NoDup_seq. }
  assert (Hltr : length (train_indices n) = (5 * n / 6)%nat).
  { unfold train_indices, split_point.
    rewrite length_take, np_permutation_length. lia. }
  assert (Hlte : length (test_indices n) = (n - 5 * n / 6)%nat).
  { unfold test_indices, split_point.
    by rewrite length_drop, np_permutation_length. }
  apply NoDup_app in Hnodup as Hparts. destruct Hparts as (_ & Hdisj & _).
  split_and!; try done.
  - intros i Hi. assert (Hin : i ∈ train_indices n ++ test_indices n).
    { rewrite Hperm. apply elem_of_seq. lia. }
    apply elem_of_app in Hin as [Hin | Hin].
    + left. split; [done|]. by apply Hdisj.
    + right. split; [|done]. intros Hin'. by apply (Hdisj i).
  - intros X Y HX HY. unfold train_test_split. rewrite HX.
    assert (Hlt : Forall (λ j, j < n)%nat (train_indices n)
                  ∧ Forall (λ j, j < n)%nat (test_indices n)).
    { apply Forall_app. rewrite train_test_app. apply np_permutation_lt. }
    destruct Hlt as [Htr Hte].
    rewrite !take_rows_returns by (by rewrite ?HX, ?HY).
    cbn [mbind result_bind]. eexists. split; [done|].
    cbn [inputs_training targets_training inputs_testing targets_testing].
    rewrite !length_fmap, <- !fmap_app, Hperm.
    pose proof (rows_of_seq X) as HXs. rewrite HX in HXs.
    pose proof (rows_of_seq Y) as HYs. rewrite HY in HYs.
    by rewrite HXs, HYs.
Qed.
End Split.

(** ** The training loop *)

Lemma chunks_fuel_concat {A} (fuel k : nat) (l : list A) :
  (0 < k)%nat → (length l ≤ fuel)%nat → concat (chunks_fuel fuel k l) = l.
Proof.
  intros Hk. revert l. induction fuel as [|fuel IH]; intros l Hl.
  - destruct l; [done | cbn in Hl; lia].
  - destruct l as [|x l]; [done|]. cbn [chunks_fuel concat].
    rewrite IH; [apply take_drop|].
    rewrite length_drop. cbn [length] in *. lia.
Qed.

Lemma concat_fmap_fmap {A B} (f : A → B) (bs : list (list A)) :
  concat ((λ b : list A, f <$> b) <$> bs) = f <$> concat bs.
Proof.
  induction bs as [|b bs IH]; [done|].
  rewrite fmap_cons, !concat_cons, fmap_app. by f_equal.
Qed.

Lemma data_loader_concat (X Y : ndarray) :
  length X = length Y →
  concat ((data_loader X Y).*1) = X ∧ concat ((data_loader X Y).*2) = Y.
Proof.
  intros Hlen. unfold data_loader, chunks.
  assert (Hzip : concat (chunks_fuel (length (zip X Y)) batch_size (zip X Y))
                 = zip X Y).
  { apply chunks_fuel_concat; [unfold batch_size; lia | done]. }
  rewrite <- !list_fmap_compose. unfold compose. cbn [fst snd].
  rewrite !concat_fmap_fmap, Hzip.
  split; [apply fst_zip | apply snd_zip]; lia.
Qed.

Section TrainingFacts.
Context `{Torch}.

Lemma epoch_run_length (m : net) (batches : list (ndarray * ndarray)) :
  length (epoch_run m batches).1 = length batches.
Proof.
  revert m. induction batches as [|[inputs targets] rest IH]; intros m;
    [done|].
  cbn [epoch_run].
  specialize (IH (adam_step (backward (zero_grad m)
    (mse_loss (forward (zero_grad m) inputs) targets)))).
  destruct (epoch_run _ rest) as [ls m']. cbn in *. by rewrite IH.
Qed.

Lemma fold_train_batch (batches : list (ndarray * ndarray)) (st : training)
    (acc : float64) :
  fold_left train_batch batches (st, acc)
  = ({| tr_net := (epoch_run (tr_net st) batches).2;
        tr_losses := tr_losses st;
        tr_trace := tr_trace st
          ++ concat (zip_with batch_events batches
                       (epoch_run (tr_net st) batches).1) |},
     fold_left fadd (epoch_run (tr_net st) batches).1 acc).
Proof.
  revert st acc.
  induction batches as [|[inputs targets] rest IH]; intros st acc.
  - cbn. rewrite app_nil_r. by destruct st.
  - cbn [fold_left train_batch epoch_run]. rewrite IH.
    unfold call. cbn [tr_net tr_losses tr_trace].
    destruct (epoch_run _ rest) as [ls m']. cbn.
    by rewrite <- !app_assoc.
Qed.

Lemma train_epoch_eq (batches : list (ndarray * ndarray)) (st : training)
    (epoch : nat) :
  train_epoch batches st epoch
  = {| tr_net := scheduler_step (epoch_run (tr_net st) batches).2;
       tr_losses := tr_losses st ++ [fsum (epoch_run (tr_net st) batches).1];
       tr_trace := tr_trace st
         ++ epoch_events batches epoch (epoch_run (tr_net st) batches).1 |}.
Proof.
  unfold train_epoch. rewrite fold_train_batch. unfold epoch_events, fsum, call.
  cbn [tr_net tr_losses tr_trace]. by rewrite <- !app_assoc.
Qed.

Lemma epochs_run_length (batches : list (ndarray * ndarray)) (k : nat)
    (m : net) :
  length (epochs_run batches k m).1 = k
  ∧ Forall (λ ls, length ls = length batches) (epochs_run batches k m).1.
Proof.
  induction k as [|k [IHl IHf]]; [by split|]. cbn [epochs_run].
  destruct (epochs_run batches k m) as [lss m'].
  pose proof (epoch_run_length m' batches) as Hlen.
  destruct (epoch_run m' batches) as [ls m'']. cbn in *. split.
  - rewrite length_app. cbn. lia.
  - apply Forall_app. split; [done|]. by constructor.
Qed.

Lemma train_for_eq (k : nat) (m : net) (X Y : ndarray) :
  train_for k m X Y
  = {| tr_net := (epochs_run (data_loader X Y) k m).2;
       tr_losses := fsum <$> (epochs_run (data_loader X Y) k m).1;
       tr_trace := concat (imap (epoch_events (data_loader X Y))
                             (epochs_run (data_loader X Y) k m).1) |}.
Proof.
  unfold train_for, range. induction k as [|k IH]; [done|].
  rewrite seq_S, fold_left_app, IH. cbn [fold_left plus epochs_run].
  rewrite train_epoch_eq. cbn [tr_net tr_losses tr_trace].
  destruct (epochs_run_length (data_loader X Y) k m) as [Hlen _].
  destruct (epochs_run (data_loader X Y) k m) as [lss m'].
  cbn [fst snd] in *.
  destruct (epoch_run m' (data_loader X Y)) as [ls m'']. cbn [fst snd] in *.
  f_equal.
  - by rewrite fmap_app.
  - rewrite imap_app, concat_app. cbn [imap concat].
    by rewrite Hlen, Nat.add_0_r, app_nil_r.
Qed.

(** C4.  The training loop runs [num_epochs = 1000] epochs, none more
    and none less.  Every epoch goes through all minibatches in order
    and, for each one, zeroes the gradients, applies the model to the
    inputs, takes the loss against the targets, computes the gradients
    from it and steps the optimizer, in this order; after the batches it
    appends one value to [losses], the sum of the epoch's batch losses,
    and steps the scheduler once.  So [losses] has [num_epochs] elements,
    and the net, the losses and the calls of the training are those of
    [num_epochs] such epochs. *)
Theorem training_loop (m : net) (X Y : ndarray) :
  num_epochs = 1000%nat
  ∧ length (tr_losses (train m X Y)) = num_epochs
  ∧ (length X = length Y →
       concat ((data_loader X Y).*1) = X ∧ concat ((data_loader X Y).*2) = Y)
  ∧ length (epochs_run (data_loader X Y) num_epochs m).1 = num_epochs
  ∧ Forall (λ ls, length ls = length (data_loader X Y))
      (epochs_run (data_loader X Y) num_epochs m).1
  ∧ tr_net (train m X Y) = (epochs_run (data_loader X Y) num_epochs m).2
  ∧ tr_trace (train m X Y)
    = concat (imap (epoch_events (data_loader X Y))
                (epochs_run (data_loader X Y) num_epochs m).1)
  ∧ tr_losses (train m X Y)
    = fsum <$> (epochs_run (data_loader X Y) num_epochs m).1.
Proof.
  unfold train. rewrite train_for_eq. cbn [tr_net tr_losses tr_trace].
  destruct (epochs_run_length (data_loader X Y) num_epochs m) as [Hlen Hall].
  split_and!; try done.
  - by rewrite length_fmap.
  - apply data_loader_concat.
Qed.
End TrainingFacts.

(* ===================================================================== *)
(** * Part IV: further properties                                         *)
(* ===================================================================== *)

(** ** The exception of [char_to_float] *)

Lemma convert_not_convertible (t : string) :
  ¬ convertible t →
  convert t = Raise (if isalpha t then TypeError else ValueError).
Proof.
  intros Hbad. destruct (convert t) as [x|e] eqn:Hc.
  { destruct Hbad. apply convert_returns. rewrite Hc. apply returns_Ok. }
  f_equal. unfold convert in Hc. destruct (isalpha t).
  - destruct t as [|c [|c' t]]; cbn in Hc; try (by injection Hc as <-).
    rewrite py_float_of_int_code in Hc. cbn in Hc.
    destruct (py_truediv_100 (float_of_int (code c))) as [x Hx]. congruence.
  - by eapply float_of_str_raises_ValueError.
Qed.

Lemma convert_all_first_failure (ts ts' : list string) (t : string) :
  Forall convertible ts → ¬ convertible t →
  convert_all (ts ++ t :: ts')
  = Raise (if isalpha t then TypeError else ValueError).
Proof.
  intros Hts Hbad. induction Hts as [|t0 ts [x Hx]%convert_returns _ IH]; cbn.
  - by rewrite (convert_not_convertible t Hbad).
  - by rewrite Hx, IH.
Qed.

Lemma convert_all_raise_inv (l : list string) (ex : exn) :
  convert_all l = Raise ex →
  ∃ ts t ts', l = ts ++ t :: ts' ∧ Forall convertible ts ∧ ¬ convertible t
              ∧ ex = if isalpha t then TypeError else ValueError.
Proof.
  induction l as [|t0 l IH]; cbn; [done|]. intros Hc.
  destruct (convert t0) as [x|e] eqn:Ht0.
  - cbn in Hc. destruct (convert_all l) as [xs|e] eqn:Hl; [done|].
    cbn in Hc. injection Hc as ->.
    destruct (IH eq_refl) as (ts & t & ts' & -> & Hts & Hbad & Hex).
    exists (t0 :: ts), t, ts'. split_and!; [done | | done | done].
    constructor; [|done]. apply convert_returns. rewrite Ht0. apply returns_Ok.
  - cbn in Hc. injection Hc as ->.
    assert (Hbad : ¬ convertible t0).
    { intros [x Hx]%convert_returns. congruence. }
    exists [], t0, l. split_and!; [done | constructor | done |].
    rewrite (convert_not_convertible t0 Hbad) in Ht0. congruence.
Qed.

Section FirstFailure.
Context `{Numpy}.

(** X4.  The exception of [char_to_float] is the one of the first token
    it cannot convert, the tokens after it are not looked at: TypeError
    (from [ord]) when that token is alphabetic, so has two letters or
    more, ValueError (from [float]) when it is not alphabetic. *)
Theorem char_to_float_first_failure (s : string) (ex : exn) :
  char_to_float s = Raise ex ↔
  ∃ ts t ts', split s = ts ++ t :: ts' ∧ Forall convertible ts
              ∧ ¬ convertible t
              ∧ ex = if isalpha t then TypeError else ValueError.
Proof.
  rewrite char_to_float_eq. split.
  - intros Hc. apply convert_all_raise_inv.
    destruct (convert_all (split s)); [done|]. cbn in Hc. congruence.
  - intros (ts & t & ts' & -> & Hts & Hbad & ->).
    by rewrite convert_all_first_failure.
Qed.
End FirstFailure.

(** ** Whitespace in a space-group name *)

Lemma split_cons_space (c : ascii) (s : string) :
  isspace_char c = true → split (String c s) = split s.
Proof. intros Hc. cbn [split]. by rewrite Hc. Qed.

Lemma split_cons_token (c : ascii) (s : string) :
  isspace_char c = false → split (String c s) ≠ [].
Proof.
  intros Hc. cbn [split]. rewrite Hc.
  destruct s as [|c' s']; [done|].
  destruct (isspace_char c'); [done|]. by destruct (split (String c' s')).
Qed.

Lemma split_app_space (s1 s2 : string) (c : ascii) :
  isspace_char c = true →
  split (s1 +:+ String c s2) = split s1 ++ split s2.
Proof.
  intros Hc. induction s1 as [|a s1 IH].
  - by apply split_cons_space.
  - change (String a s1 +:+ String c s2)
      with (String a (s1 +:+ String c s2)).
    destruct (isspace_char a) eqn:Ha.
    { by rewrite !(split_cons_space a) by done. }
    destruct s1 as [|b s1].
    + change (EmptyString +:+ String c s2) with (String c s2) in *.
      cbn [split]. by rewrite Ha, Hc.
    + change (String b s1 +:+ String c s2)
        with (String b (s1 +:+ String c s2)) in *.
      cbn [split] in *. rewrite Ha.
      destruct (isspace_char b) eqn:Hb.
      * by rewrite IH.
      * rewrite IH.
        pose proof (split_cons_token b s1 Hb) as Hne. cbn [split] in Hne.
        rewrite Hb in Hne.
        by destruct (match s1 with
                     | EmptyString => [String b EmptyString]
                     | String c' _ =>
                         if isspace_char c' then String b EmptyString :: split s1
                         else match split s1 with
                              | [] => [String b EmptyString]
                              | t :: ts => String b t :: ts
                              end
                     end).
Qed.

Section Whitespace.
Context `{Numpy}.

(** X5.  [char_to_float] reads the tokens of the name only: whitespace
    before the first or after the last token, the whitespace character
    that separates two tokens, and a second whitespace character after
    it make no difference to the value or to the exception. *)
Theorem char_to_float_whitespace (s1 s2 : string) (c c' : ascii) :
  isspace_char c = true → isspace_char c' = true →
  char_to_float (String c s1) = char_to_float s1
  ∧ char_to_float (s1 +:+ String c EmptyString) = char_to_float s1
  ∧ char_to_float (s1 +:+ String c' s2) = char_to_float (s1 +:+ String c s2)
  ∧ char_to_float (s1 +:+ String c (String c' s2))
    = char_to_float (s1 +:+ String c s2).
Proof.
  intros Hc Hc'. rewrite !char_to_float_eq.
  rewrite (split_cons_space c s1 Hc), !(split_app_space s1 _ c Hc),
    (split_app_space s1 _ c' Hc'), (split_cons_space c' s2 Hc').
  cbn [split]. by rewrite app_nil_r.
Qed.

End Whitespace.

(** ** What the loader does on an empty file and on a line that is not JSON *)

Lemma file_lines_nil (content : string) :
  file_lines content = [] ↔ content = EmptyString.
Proof.
  split; [|by intros ->]. destruct content as [|c rest]; [done|].
  cbn [file_lines]. case_decide; [done|]. by destruct (file_lines rest).
Qed.

Section LoaderErrors.
Context `{Numpy} `{JsonLib}.

Lemma load_lines_raise (ls ls' : list string) (l : string) (acc vs : list json)
    (ex : exn) :
  Forall2 (λ line v, json_loads line = Ok v) ls vs →
  json_loads l = Raise ex →
  for_each append_json (ls ++ l :: ls') acc = Raise ex.
Proof.
  intros Hls Hl. rewrite for_each_app.
  assert (Hpre : for_each append_json ls acc = Ok (acc ++ vs)).
  { apply load_lines_inv. by exists vs. }
  rewrite Hpre. cbn [mbind result_bind for_each].
  rewrite append_json_eq, Hl. reflexivity.
Qed.

(** X6.  The loader decodes every line before the notebook takes the
    first value.  An empty file gives an empty list [jsons], and
    [jsons[0]] raises IndexError.  The first line [json.loads] refuses
    ends the loading with its exception, also when it is not the first
    line of the file, the only one the notebook uses.  When the first
    value is not a list, a string or a mapping, [len(data)] raises
    TypeError. *)
Theorem loader_errors (content : string) :
  (load_jsons content = Ok [] ↔ content = EmptyString)
  ∧ (content = EmptyString →
       load_data content = Raise IndexError
       ∧ notebook content = Raise IndexError)
  ∧ (∀ ls l ls' vs ex,
       file_lines content = ls ++ l :: ls' →
       Forall2 (λ line v, json_loads line = Ok v) ls vs →
       json_loads l = Raise ex →
       load_jsons content = Raise ex ∧ load_data content = Raise ex
       ∧ notebook content = Raise ex)
  ∧ (∀ d rest, load_jsons content = Ok (d :: rest) →
       load_data content
       = match d with
         | JArr _ | JStr _ | JObj _ => Ok d
         | JNull | JBool _ | JInt _ | JFloat _ => Raise TypeError
         end).
Proof.
  split_and!.
  - rewrite load_jsons_iff, <- file_lines_nil. split.
    + intros Hl. by inversion Hl.
    + intros ->. constructor.
  - intros ->. done.
  - intros ls l ls' vs ex Hlines Hls Hl.
    assert (Hload : load_jsons content = Raise ex).
    { unfold load_jsons. rewrite Hlines. by eapply load_lines_raise. }
    unfold notebook, load_data. by rewrite Hload.
  - intros d rest Hload. unfold load_data. rewrite Hload.
    cbn [mbind result_bind first_json lookup list_lookup]. by destruct d.
Qed.
End LoaderErrors.

(** ** The split keeps every input with its target *)

Lemma zip_fmap_same {A B C} (f : A → B) (g : A → C) (l : list A) :
  zip (f <$> l) (g <$> l) = (λ a, (f a, g a)) <$> l.
Proof. induction l as [|a l IH]; [done|]. cbn. by rewrite <- IH. Qed.

Lemma zip_rows_seq (X Y : ndarray) :
  length Y = length X →
  (λ j, (default [] (X !! j), default [] (Y !! j))) <$> seq 0 (length X)
  = zip X Y.
Proof.
  intros Hlen. apply list_eq. intros i.
  destruct (decide (i < length X)%nat) as [Hi|Hi].
  - rewrite lookup_fmap_seq by done.
    destruct (lookup_lt_is_Some_2 X i Hi) as [x Hx].
    destruct (lookup_lt_is_Some_2 Y i ltac:(lia)) as [y Hy].
    rewrite lookup_zip_with, Hx, Hy. reflexivity.
  - rewrite list_lookup_fmap, lookup_seq_ge by lia. cbn. symmetry.
    apply lookup_ge_None_2. rewrite length_zip_with. lia.
Qed.

Section SplitPairs.
Context `{Numpy}.

Lemma split_indices_lt (n : nat) :
  Forall (λ j, j < n)%nat (train_indices n)
  ∧ Forall (λ j, j < n)%nat (test_indices n).
Proof.
  split; [apply Forall_take | apply Forall_drop]; apply np_permutation_lt.
Qed.

Lemma train_test_split_eq (X Y : ndarray) :
  length Y = length X →
  train_test_split X Y
  = Ok {| inputs_training :=
            (λ j, default [] (X !! j)) <$> train_indices (length X);
          targets_training :=
            (λ j, default [] (Y !! j)) <$> train_indices (length X);
          inputs_testing :=
            (λ j, default [] (X !! j)) <$> test_indices (length X);
          targets_testing :=
            (λ j, default [] (Y !! j)) <$> test_indices (length X) |}.
Proof.
  intros Hlen. unfold train_test_split.
  destruct (split_indices_lt (length X)) as [Htr Hte].
  rewrite (take_rows_returns X _ Htr), (take_rows_returns X _ Hte).
  by rewrite (take_rows_returns Y (train_indices (length X)))
               by (by rewrite Hlen);
     rewrite (take_rows_returns Y (test_indices (length X)))
               by (by rewrite Hlen).
Qed.

(** X8.  The split keeps every input row with its target row: row [j]
    of the training inputs and row [j] of the training targets are the
    rows of [X] and [Y] at the same index, the [j]-th of the shuffled
    training indices; the same holds for the test set; and the pairs of
    the two sets together are the pairs of [X] and [Y], each one once. *)
Theorem split_pairs (X Y : ndarray) (d : datasets) :
  length Y = length X → train_test_split X Y = Ok d →
  zip (inputs_training d) (targets_training d)
    ++ zip (inputs_testing d) (targets_testing d) ≡ₚ zip X Y
  ∧ (∀ j i, train_indices (length X) !! j = Some i →
       inputs_training d !! j = X !! i ∧ targets_training d !! j = Y !! i
       ∧ is_Some (X !! i))
  ∧ (∀ j i, test_indices (length X) !! j = Some i →
       inputs_testing d !! j = X !! i ∧ targets_testing d !! j = Y !! i
       ∧ is_Some (X !! i)).
Proof.
  intros Hlen Hsplit. rewrite (train_test_split_eq X Y Hlen) in Hsplit.
  injection Hsplit as <-. cbn [inputs_training targets_training
                               inputs_testing targets_testing].
  destruct (split_indices_lt (length X)) as [Htr Hte].
  assert (Hrow : ∀ (idx : list nat) j i,
            Forall (λ j, j < length X)%nat idx → idx !! j = Some i →
            ((λ j, default [] (X !! j)) <$> idx) !! j = X !! i
            ∧ ((λ j, default [] (Y !! j)) <$> idx) !! j = Y !! i
            ∧ is_Some (X !! i)).
  { intros idx j i Hidx Hj. rewrite !list_lookup_fmap, Hj. cbn.
    rewrite list.Forall_forall in Hidx.
    assert (Hi : (i < length X)%nat).
    { apply Hidx. by eapply list_elem_of_lookup_2. }
    destruct (lookup_lt_is_Some_2 X i Hi) as [x Hx].
    destruct (lookup_lt_is_Some_2 Y i ltac:(lia)) as [y Hy].
    rewrite Hx, Hy. eauto. }
  split_and!.
  - rewrite !zip_fmap_same, <- fmap_app, train_test_app.
    rewrite (np_permutation_perm (length X)). by rewrite zip_rows_seq.
  - intros j i. by apply Hrow.
  - intros j i. by apply Hrow.
Qed.
End SplitPairs.

(** ** The minibatches *)

Lemma chunks_fuel_lookup {A} (fuel k : nat) (l : list A) (i : nat) :
  (0 < k)%nat → (length l ≤ fuel)%nat →
  chunks_fuel fuel k l !! i
  = if decide (i * k < length l)%nat then Some (take k (drop (i * k) l))
    else None.
Proof.
  intros Hk. revert l i.
  induction fuel as [|fuel IH]; intros l i Hlen; cbn [chunks_fuel].
  - by rewrite decide_False by lia.
  - destruct l as [|a l]; [by rewrite decide_False by (cbn; lia)|].
    destruct i as [|i].
    + by rewrite decide_True by (cbn; lia).
    + cbn [lookup list_lookup]. change (chunks_fuel fuel k (drop k (a :: l)) !! i
        = if decide (S i * k < length (a :: l))%nat
          then Some (take k (drop (S i * k) (a :: l))) else None).
      rewrite IH by (rewrite length_drop; cbn in *; lia).
      rewrite length_drop, drop_drop.
      replace (k + i * k)%nat with (S i * k)%nat by lia.
      repeat case_decide; done || lia.
Qed.

Lemma data_loader_lookup (X Y : ndarray) (i : nat) :
  length Y = length X →
  data_loader X Y !! i
  = if decide (i * 64 < length X)%nat
    then Some (take 64 (drop (i * 64) X), take 64 (drop (i * 64) Y))
    else None.
Proof.
  intros Hlen. unfold data_loader, chunks, batch_size.
  rewrite list_lookup_fmap, chunks_fuel_lookup by lia.
  rewrite length_zip_with, Hlen, Nat.min_id.
  case_decide; [|done]. cbn.
  by rewrite !fmap_take, !fmap_drop, fst_zip, snd_zip by lia.
Qed.

Lemma data_loader_length (X Y : ndarray) :
  length Y = length X →
  length (data_loader X Y) = ((length X + 63) / 64)%nat.
Proof.
  intros Hlen.
  pose proof (data_loader_lookup X Y (length (data_loader X Y)) Hlen) as Hend.
  rewrite lookup_ge_None_2 in Hend by lia.
  case_decide as Hm; [done|].
  assert (Hlast : (length (data_loader X Y) = 0
                   ∨ (length (data_loader X Y) - 1) * 64 < length X)%nat).
  { destruct (length (data_loader X Y)) as [|m] eqn:Hm'; [by left|right].
    pose proof (data_loader_lookup X Y m Hlen) as Hm''.
    destruct (lookup_lt_is_Some_2 (data_loader X Y) m ltac:(lia)) as [b Hb].
    rewrite Hb in Hm''. case_decide; [|done].
    replace (S m - 1)%nat with m by lia. done. }
  apply (Nat.div_unique _ _ _
           (length X + 63 - 64 * length (data_loader X Y))); lia.
Qed.

(** X9.  The loader goes through the training rows in their order,
    64 at a time, inputs and targets alike: batch [i] holds the rows
    [64 i] to [64 i + 63]; there are [ceil(n / 64)] batches, none of
    them empty, all of them full but possibly the last. *)
Theorem data_loader_batches (X Y : ndarray) :
  length Y = length X →
  length (data_loader X Y) = ((length X + 63) / 64)%nat
  ∧ (∀ i b, data_loader X Y !! i = Some b →
       b = (take 64 (drop (64 * i) X), take 64 (drop (64 * i) Y))
       ∧ (1 ≤ length b.1 ≤ 64)%nat ∧ length b.2 = length b.1
       ∧ ((S i < length (data_loader X Y))%nat → length b.1 = 64%nat)).
Proof.
  intros Hlen. split; [by apply data_loader_length|].
  intros i b Hb. pose proof (lookup_lt_Some _ _ _ Hb) as Hi.
  rewrite (data_loader_lookup X Y i Hlen) in Hb.
  case_decide as Hlt; [|done]. injection Hb as <-.
  rewrite (Nat.mul_comm 64 i). cbn [fst snd].
  rewrite !length_take, !length_drop, Hlen.
  split_and!; [done | lia | lia | lia |].
  intros Hnext.
  pose proof (data_loader_lookup X Y (S i) Hlen) as Hn.
  destruct (lookup_lt_is_Some_2 (data_loader X Y) (S i) Hnext) as [b' Hb'].
  rewrite Hb' in Hn. case_decide; [lia | done].
Qed.

(** ** Training in two runs *)

Section TrainingResume.
Context `{Torch}.

Lemma epochs_run_add (batches : list (ndarray * ndarray)) (k1 k2 : nat)
    (m : net) :
  epochs_run batches (k1 + k2) m
  = ((epochs_run batches k1 m).1
       ++ (epochs_run batches k2 (epochs_run batches k1 m).2).1,
     (epochs_run batches k2 (epochs_run batches k1 m).2).2).
Proof.
  induction k2 as [|k2 IH].
  - rewrite Nat.add_0_r. cbn [epochs_run fst snd]. rewrite app_nil_r.
    by destruct (epochs_run batches k1 m).
  - rewrite Nat.add_succ_r. cbn [epochs_run]. rewrite IH.
    destruct (epochs_run batches k2 (epochs_run batches k1 m).2) as [l2 m2].
    cbn [fst snd]. destruct (epoch_run m2 batches) as [ls m3].
    cbn [fst snd]. by rewrite app_assoc.
Qed.

(** X14.  Between two epochs the loop keeps nothing but the net (the
    model with the state of its optimizer and scheduler) and the list of
    losses: training for [k1 + k2] epochs gives the net and the losses
    of training for [k1] epochs and then, from the net reached, for [k2]
    more. *)
Theorem training_resume (k1 k2 : nat) (m : net) (X Y : ndarray) :
  tr_net (train_for (k1 + k2) m X Y)
  = tr_net (train_for k2 (tr_net (train_for k1 m X Y)) X Y)
  ∧ tr_losses (train_for (k1 + k2) m X Y)
    = tr_losses (train_for k1 m X Y)
      ++ tr_losses (train_for k2 (tr_net (train_for k1 m X Y)) X Y).
Proof.
  rewrite !train_for_eq. cbn [tr_net tr_losses].
  rewrite epochs_run_add. cbn [fst snd]. by rewrite fmap_app.
Qed.
End TrainingResume.

(** ** The sizes of the two sets at the edges *)

Section SplitSizes.
Context `{Numpy}.

Lemma split_lengths (n : nat) :
  length (train_indices n) = (5 * n / 6)%nat
  ∧ length (test_indices n) = (n - 5 * n / 6)%nat.
Proof.
  pose proof (split_point_le n) as Hle.
  pose proof (np_permutation_length n) as Hperm.
  unfold train_indices, test_indices.
  rewrite length_take, length_drop, Hperm. unfold split_point in *. lia.
Qed.

(** X15.  The test set gets the sixth of the rows, rounded up, so it is
    empty only when there is no row at all; the training set gets the
    rest, and is empty when there is one row or none. *)
Theorem split_sizes_edges (n : nat) :
  length (test_indices n) = ((n + 5) / 6)%nat
  ∧ (test_indices n = [] ↔ n = 0%nat)
  ∧ (train_indices n = [] ↔ (n ≤ 1)%nat)
  ∧ (length (test_indices n) ≤ length (train_indices n) + 1)%nat.
Proof.
  destruct (split_lengths n) as [Htr Hte].
  pose proof (Nat.div_mod_eq (5 * n) 6) as Ha.
  pose proof (Nat.mod_upper_bound (5 * n) 6 ltac:(lia)) as Hr.
  pose proof (Nat.div_mod_eq (n + 5) 6) as Hb.
  pose proof (Nat.mod_upper_bound (n + 5) 6 ltac:(lia)) as Hs.
  rewrite <- !length_zero_iff_nil, Htr, Hte. lia.
Qed.
End SplitSizes.

(** ** The rows of Problem 2 *)

Section Problem2Rows.
Context `{Numpy}.

(** The nine features, one by one. *)
Lemma features2_Ok (entry : json) (xs : list float64) :
  features2 entry = Ok xs
  ↔ ∃ x0 x1 x2 x3 x4 x5 x6 x7 x8,
      xs = [x0; x1; x2; x3; x4; x5; x6; x7; x8]
      ∧ cell_field entry "angle_alpha" = Ok x0
      ∧ cell_field entry "angle_beta" = Ok x1
      ∧ cell_field entry "angle_gamma" = Ok x2
      ∧ cell_field entry "length_a" = Ok x3
      ∧ cell_field entry "length_b" = Ok x4
      ∧ cell_field entry "length_c" = Ok x5
      ∧ group_feature entry = Ok x6
      ∧ table_feature entry = Ok x7
      ∧ mass_feature entry = Ok x8.
Proof.
  unfold features2. split.
  - intros Hxs.
    apply bind_Ok_inv in Hxs as (x0 & H0 & Hxs).
    apply bind_Ok_inv in Hxs as (x1 & H1 & Hxs).
    apply bind_Ok_inv in Hxs as (x2 & H2 & Hxs).
    apply bind_Ok_inv in Hxs as (x3 & H3 & Hxs).
    apply bind_Ok_inv in Hxs as (x4 & H4 & Hxs).
    apply bind_Ok_inv in Hxs as (x5 & H5 & Hxs).
    apply bind_Ok_inv in Hxs as (x6 & H6 & Hxs).
    apply bind_Ok_inv in Hxs as (x7 & H7 & Hxs).
    apply bind_Ok_inv in Hxs as (x8 & H8 & Hxs).
    injection Hxs as <-. exists x0, x1, x2, x3, x4, x5, x6, x7, x8.
    by split_and!.
  - intros (x0 & x1 & x2 & x3 & x4 & x5 & x6 & x7 & x8 & -> & H0 & H1 & H2
            & H3 & H4 & H5 & H6 & H7 & H8).
    by rewrite H0, H1, H2, H3, H4, H5, H6, H7, H8.
Qed.

Lemma problem2_returns_iff (recs : list json) :
  returns (problem2 (JArr recs)) ↔ Forall (λ rec, returns (record2 rec)) recs.
Proof.
  rewrite problem2_eq, <- mapM_result_returns. split.
  - intros [XY (rs & Hrs & _)%bind_Ok_inv]. by eexists.
  - intros [rs Hrs]. rewrite Hrs. by eexists.
Qed.

Lemma problem2_kept_rows (recs : list json) :
  ∀ X Y, problem2 (JArr recs) = Ok (X, Y) →
      (indices <$> problem2_loop (JArr recs)) = Ok (kept2 recs)
      ∧ StronglySorted lt (kept2 recs)
      ∧ length X = length (kept2 recs)
      ∧ length Y = length (kept2 recs)
      ∧ (∀ i, i ∈ kept2 recs ↔
           ∃ rec e c v,
             recs !! i = Some rec ∧ entry_of rec = Some e
             ∧ is_Some (e !! "cell") ∧ crystal_of e = Some c
             ∧ c !! "density_matthews" = Some v)
      ∧ (∀ j i, kept2 recs !! j = Some i →
           ∃ rec e v x0 x1 x2 x3 x4 x5 x6 x7 x8 y,
             recs !! i = Some rec ∧ entry_of rec = Some e
             ∧ cell_and_density rec = Some v
             ∧ cell_field (JObj e) "angle_alpha" = Ok x0
             ∧ cell_field (JObj e) "angle_beta" = Ok x1
             ∧ cell_field (JObj e) "angle_gamma" = Ok x2
             ∧ cell_field (JObj e) "length_a" = Ok x3
             ∧ cell_field (JObj e) "length_b" = Ok x4
             ∧ cell_field (JObj e) "length_c" = Ok x5
             ∧ group_feature (JObj e) = Ok x6
             ∧ table_feature (JObj e) = Ok x7
             ∧ mass_feature (JObj e) = Ok x8
             ∧ np_float np_row_of_object v = Ok y
             ∧ X !! j = Some [x0; x1; x2; x3; x4; x5; x6; x7; x8]
             ∧ Y !! j = Some [y]).
Proof.
  intros X Y HXY.
  assert (Hsel := HXY). unfold problem2 in Hsel.
  rewrite problem2_loop_eq in Hsel |- *.
  destruct (mapM record2 recs) as [rs|ex] eqn:Hrs; [|done].
  cbn [mbind result_bind] in Hsel. cbn [fmap result_fmap mbind result_bind].
  assert (Hlen := mapM_result_length _ _ _ Hrs).
  assert (Hidx := kept2_indices _ _ Hrs).
  assert (HX : length X = length (kept2 recs)
               ∧ length Y = length (kept2 recs)).
  { unfold select in Hsel.
    apply bind_Ok_inv in Hsel as (X' & HX & (Y' & HY & [= <- <-])%bind_Ok_inv).
    apply take_rows_length in HX, HY. cbn [indices state_after] in HX, HY.
    by rewrite <- Hidx. }
  destruct HX as [HXl HYl].
  split_and!; try done.
  - cbn [indices state_after]. by rewrite Hidx.
  - apply kept2_sorted.
  - intros i. unfold kept2. rewrite list_elem_of_filter, elem_of_seq. split.
    + intros [[v Hv] [_ Hi]].
      destruct (recs !! i) as [rec|] eqn:Hrec; [|done]. cbn in Hv.
      apply cell_and_density_inv in Hv as (e & c & ?). exists rec, e, c, v.
      by split.
    + intros (rec & e & c & v & Hrec & Hv).
      split; [|split; [lia | by eapply lookup_lt_Some]].
      rewrite Hrec. cbn. exists v. apply cell_and_density_inv. eauto.
  - intros j i Hj.
    destruct (select_state_after_rows 9 (length recs) fst (λ p, [p.2])
                rs X Y j i Hlen Hsel) as ([xs y] & Hr & HXj & HYj).
    { cbn [indices state_after]. by rewrite Hidx. }
    destruct (lookup_lt_is_Some_2 recs i) as [rec Hrec].
    { rewrite <- Hlen. by eapply lookup_lt_Some. }
    destruct (mapM_result_lookup _ _ _ _ _ Hrs Hrec) as (r & Hr' & Hread).
    assert (r = Some (xs, y)) as -> by congruence.
    apply record2_Some in Hread as (e & v & He & Hv & Hxs & Hy).
    apply features2_Ok in Hxs
      as (x0 & x1 & x2 & x3 & x4 & x5 & x6 & x7 & x8 & -> & Hxs).
    exists rec, e, v, x0, x1, x2, x3, x4, x5, x6, x7, x8, y.
    destruct Hxs as (? & ? & ? & ? & ? & ? & ? & ? & ?). by split_and!.
Qed.

(** X1.  The extraction of Problem 2 returns exactly when the reading of
    every record returns.  When it does, it has one row of nine features
    and one target per kept index, in the order of the indices.  The kept
    indices are in ascending order, and an index is kept exactly when
    the ['entry'] mapping of its record has ['cell'] and its first
    crystal has ['density_matthews'].  The features of a kept record are
    the six cell parameters, [char_to_float] of the space group name, the
    number of the space group as a float and 110 times the length of the
    sequence, in this order; the target is numpy's conversion of the
    Matthews coefficient to a float. *)
Theorem problem2_rows (recs : list json) :
  (returns (problem2 (JArr recs)) ↔ Forall (λ rec, returns (record2 rec)) recs)
  ∧ ∀ X Y, problem2 (JArr recs) = Ok (X, Y) →
      (indices <$> problem2_loop (JArr recs)) = Ok (kept2 recs)
      ∧ StronglySorted lt (kept2 recs)
      ∧ length X = length (kept2 recs)
      ∧ length Y = length (kept2 recs)
      ∧ (∀ i, i ∈ kept2 recs ↔
           ∃ rec e c v,
             recs !! i = Some rec ∧ entry_of rec = Some e
             ∧ is_Some (e !! "cell") ∧ crystal_of e = Some c
             ∧ c !! "density_matthews" = Some v)
      ∧ (∀ j i, kept2 recs !! j = Some i →
           ∃ rec e v x0 x1 x2 x3 x4 x5 x6 x7 x8 y,
             recs !! i = Some rec ∧ entry_of rec = Some e
             ∧ cell_and_density rec = Some v
             ∧ cell_field (JObj e) "angle_alpha" = Ok x0
             ∧ cell_field (JObj e) "angle_beta" = Ok x1
             ∧ cell_field (JObj e) "angle_gamma" = Ok x2
             ∧ cell_field (JObj e) "length_a" = Ok x3
             ∧ cell_field (JObj e) "length_b" = Ok x4
             ∧ cell_field (JObj e) "length_c" = Ok x5
             ∧ group_feature (JObj e) = Ok x6
             ∧ table_feature (JObj e) = Ok x7
             ∧ mass_feature (JObj e) = Ok x8
             ∧ np_float np_row_of_object v = Ok y
             ∧ X !! j = Some [x0; x1; x2; x3; x4; x5; x6; x7; x8]
             ∧ Y !! j = Some [y]).
Proof.
  split; [apply problem2_returns_iff | apply problem2_kept_rows].
Qed.
End Problem2Rows.

(** ** The first record that raises ends the extraction *)

Section Aborts.
Context `{Numpy}.

Lemma problem1_raises_at (recs : list json) (k : nat) (rec : json) (ex : exn) :
  recs !! k = Some rec →
  Forall (λ r, returns (record1 r)) (take k recs) →
  record1 rec = Raise ex →
  problem1 (JArr recs) = Raise ex ∧ problem1_loop (JArr recs) = Raise ex.
Proof.
  intros Hrec Hpre Hex. rewrite problem1_eq, problem1_loop_eq.
  assert (Hm : mapM record1 recs = Raise ex)
    by (apply mapM_result_Raise; eauto).
  by rewrite Hm.
Qed.

Lemma problem2_raises_at (recs : list json) (k : nat) (rec : json) (ex : exn) :
  recs !! k = Some rec →
  Forall (λ r, returns (record2 r)) (take k recs) →
  record2 rec = Raise ex →
  problem2 (JArr recs) = Raise ex ∧ problem2_loop (JArr recs) = Raise ex.
Proof.
  intros Hrec Hpre Hex. rewrite problem2_eq, problem2_loop_eq.
  assert (Hm : mapM record2 recs = Raise ex)
    by (apply mapM_result_Raise; eauto).
  by rewrite Hm.
Qed.

Lemma record1_no_entry (r : gmap string json) :
  r !! "entry" = None → record1 (JObj r) = Raise KeyError.
Proof. intros Hr. unfold record1. cbn [getitem_str]. by rewrite Hr. Qed.

Lemma record2_no_entry (r : gmap string json) :
  r !! "entry" = None → record2 (JObj r) = Raise KeyError.
Proof. intros Hr. unfold record2. cbn [getitem_str]. by rewrite Hr. Qed.

Lemma first_crystal_empty (e : gmap string json) :
  e !! "exptl_crystal" = Some (JArr []) →
  first_crystal (JObj e) = Raise IndexError.
Proof.
  intros He. unfold first_crystal. cbn [getitem_str]. by rewrite He.
Qed.

Lemma record1_empty_crystal (rec : json) (e : gmap string json) :
  entry_of rec = Some e → e !! "exptl_crystal" = Some (JArr []) →
  record1 rec = Raise IndexError.
Proof.
  intros He Hx. rewrite (record1_entry _ _ He).
  unfold problem1_cond, py_and. rewrite (first_crystal_empty _ Hx).
  cbn [py_in mbind result_bind]. by rewrite bool_decide_eq_true_2 by eauto.
Qed.

Lemma record2_no_crystal (rec : json) (e : gmap string json) :
  entry_of rec = Some e → is_Some (e !! "cell") →
  e !! "exptl_crystal" = None → record2 rec = Raise KeyError.
Proof.
  intros He Hcell Hx. rewrite (record2_entry _ _ He).
  by rewrite problem2_cond_no_crystal.
Qed.

Lemma record2_empty_crystal (rec : json) (e : gmap string json) :
  entry_of rec = Some e → is_Some (e !! "cell") →
  e !! "exptl_crystal" = Some (JArr []) → record2 rec = Raise IndexError.
Proof.
  intros He Hcell Hx. rewrite (record2_entry _ _ He).
  unfold problem2_cond, py_and. rewrite (first_crystal_empty _ Hx).
  cbn [py_in mbind result_bind]. by rewrite bool_decide_eq_true_2 by done.
Qed.

Lemma record2_name_raises (rec : json) (e sym : gmap string json)
    (s : string) (ex : exn) :
  entry_of rec = Some e → problem2_cond (JObj e) = Ok true →
  wf_cell e = true →
  e !! "symmetry" = Some (JObj sym) →
  sym !! "space_group_name_hm" = Some (JStr s) →
  char_to_float s = Raise ex →
  record2 rec = Raise ex.
Proof.
  intros He Hc Hcell Hs Hname Hex. rewrite (record2_entry _ _ He), Hc.
  destruct (features2_wf_cell e Hcell) as (x0 & x1 & x2 & x3 & x4 & x5 & ->).
  unfold group_feature. cbn [getitem_str]. rewrite Hs.
  cbn [mbind result_bind getitem_str]. rewrite Hname.
  cbn [mbind result_bind char_to_float_of]. by rewrite Hex.
Qed.

(** X2.  Problem 2 has no membership test for ['exptl_crystal'],
    ['symmetry'] and ['pdbx_seq_one_letter_code'], and it converts the
    space-group name with [char_to_float].  The first record whose
    reading raises ends the whole extraction with that exception; no
    dataset is built.  Such are a record without ['entry'], an entry with
    ['cell'] and without ['exptl_crystal'] or with an empty
    ['exptl_crystal'] list, and, among the entries on which the two tests
    succeed and whose cell has the six numbers, one without ['symmetry'],
    one whose space-group name [char_to_float] cannot convert, and one
    with a well-formed symmetry and without
    ['pdbx_seq_one_letter_code']. *)
Theorem problem2_aborts (recs : list json) (k : nat) (rec : json) :
  recs !! k = Some rec →
  Forall (λ r, returns (record2 r)) (take k recs) →
  (∀ ex, record2 rec = Raise ex →
         problem2 (JArr recs) = Raise ex
         ∧ problem2_loop (JArr recs) = Raise ex)
  ∧ (∀ r, rec = JObj r → r !! "entry" = None →
          problem2 (JArr recs) = Raise KeyError)
  ∧ (∀ e, entry_of rec = Some e → is_Some (e !! "cell") →
       (e !! "exptl_crystal" = None → problem2 (JArr recs) = Raise KeyError)
       ∧ (e !! "exptl_crystal" = Some (JArr []) →
            problem2 (JArr recs) = Raise IndexError)
       ∧ (problem2_cond (JObj e) = Ok true → wf_cell e = true →
            (e !! "symmetry" = None → problem2 (JArr recs) = Raise KeyError)
            ∧ (∀ sym s ex,
                 e !! "symmetry" = Some (JObj sym) →
                 sym !! "space_group_name_hm" = Some (JStr s) →
                 char_to_float s = Raise ex →
                 problem2 (JArr recs) = Raise ex)
            ∧ (wf_symmetry e = true →
                 e !! "pdbx_seq_one_letter_code" = None →
                 problem2 (JArr recs) = Raise KeyError))).
Proof.
  intros Hrec Hpre.
  assert (Hat : ∀ ex, record2 rec = Raise ex → problem2 (JArr recs) = Raise ex).
  { intros ex Hex. by apply (problem2_raises_at recs k rec ex). }
  split_and!.
  - intros ex Hex. by apply (problem2_raises_at recs k rec ex).
  - intros r -> Hr. by apply Hat, record2_no_entry.
  - intros e He Hcell. split_and!.
    + intros Hx. by apply Hat, (record2_no_crystal rec e).
    + intros Hx. by apply Hat, (record2_empty_crystal rec e).
    + intros Hc Hwc. split_and!.
      * intros Hs. by apply Hat, (record2_no_symmetry rec e).
      * intros sym s ex Hs Hname Hex.
        by apply Hat, (record2_name_raises rec e sym s ex).
      * intros Hsym Hq. by apply Hat, (record2_no_sequence rec e).
Qed.

(** X3.  Problem 1 tests every key of the crystal it reads, but not
    ['entry'] and not the length of the ['exptl_crystal'] list.  The
    first record whose reading raises ends the whole extraction with
    that exception: KeyError for a record without ['entry'], IndexError
    for an entry whose ['exptl_crystal'] list is empty. *)
Theorem problem1_aborts (recs : list json) (k : nat) (rec : json) :
  recs !! k = Some rec →
  Forall (λ r, returns (record1 r)) (take k recs) →
  (∀ ex, record1 rec = Raise ex →
         problem1 (JArr recs) = Raise ex
         ∧ problem1_loop (JArr recs) = Raise ex)
  ∧ (∀ r, rec = JObj r → r !! "entry" = None →
          problem1 (JArr recs) = Raise KeyError)
  ∧ (∀ e, entry_of rec = Some e → e !! "exptl_crystal" = Some (JArr []) →
          problem1 (JArr recs) = Raise IndexError).
Proof.
  intros Hrec Hpre.
  assert (Hat : ∀ ex, record1 rec = Raise ex → problem1 (JArr recs) = Raise ex).
  { intros ex Hex. by apply (problem1_raises_at recs k rec ex). }
  split_and!.
  - intros ex Hex. by apply (problem1_raises_at recs k rec ex).
  - intros r -> Hr. by apply Hat, record1_no_entry.
  - intros e He Hx. by apply Hat, (record1_empty_crystal rec e).
Qed.
End Aborts.

(** ** The rows of a dataset put together from two *)

Lemma kept_app {R} (rs1 rs2 : list (option R)) :
  kept (rs1 ++ rs2) = kept rs1 ++ kept rs2.
Proof. unfold kept. apply omap_app. Qed.

Section Concatenation.
Context `{Numpy}.

(** X7.  Every row of either dataset is computed from its own record,
    and the rows come in the order of the records: the extraction from
    two lists of records put one after the other is the extraction from
    the first, then the extraction from the second, and the dataset is
    the rows of the first followed by the rows of the second; an
    exception of the first or else of the second is the exception of the
    whole.  So it is in Problem 1 and in Problem 2. *)
Theorem extraction_app (recs1 recs2 : list json) :
  problem1 (JArr (recs1 ++ recs2))
  = ('(X1, Y1) ← problem1 (JArr recs1);
     '(X2, Y2) ← problem1 (JArr recs2);
     Ok (X1 ++ X2, Y1 ++ Y2))
  ∧ problem2 (JArr (recs1 ++ recs2))
    = ('(X1, Y1) ← problem2 (JArr recs1);
       '(X2, Y2) ← problem2 (JArr recs2);
       Ok (X1 ++ X2, Y1 ++ Y2)).
Proof.
  rewrite !problem1_eq, !problem2_eq, !mapM_result_app. split.
  - destruct (mapM record1 recs1) as [rs1|ex]; cbn [mbind result_bind];
      [|done].
    destruct (mapM record1 recs2) as [rs2|ex]; cbn [mbind result_bind];
      [|done].
    unfold rows1. by rewrite kept_app, !fmap_app.
  - destruct (mapM record2 recs1) as [rs1|ex]; cbn [mbind result_bind];
      [|done].
    destruct (mapM record2 recs2) as [rs2|ex]; cbn [mbind result_bind];
      [|done].
    unfold rows2. by rewrite kept_app, !fmap_app.
Qed.
End Concatenation.

(** ** The optimizer steps of the training *)

Section TrainingSteps.
Variable T : Torch.

Lemma epoch_run_counting (m : @net T) (c : nat)
    (batches : list (ndarray * ndarray)) :
  @epoch_run (counting T) (m, c) batches
  = ((@epoch_run T m batches).1,
     ((@epoch_run T m batches).2, (c + length batches)%nat)).
Proof.
  revert m c. induction batches as [|[inputs targets] rest IH]; intros m c.
  - cbn. by rewrite Nat.add_0_r.
  - cbn [epoch_run length]. cbn [counting zero_grad forward mse_loss backward
      adam_step loss_item fst snd].
    rewrite IH.
    destruct (@epoch_run T _ rest) as [ls m']. cbn [fst snd].
    by replace (c + S (length rest))%nat with (S c + length rest)%nat by lia.
Qed.

Lemma epochs_run_counting (batches : list (ndarray * ndarray)) (k : nat)
    (m : @net T) (c : nat) :
  @epochs_run (counting T) batches k (m, c)
  = ((@epochs_run T batches k m).1,
     ((@epochs_run T batches k m).2, (c + k * length batches)%nat)).
Proof.
  induction k as [|k IH].
  - cbn. by rewrite Nat.add_0_r.
  - cbn [epochs_run]. rewrite IH.
    destruct (@epochs_run T batches k m) as [lss m']. cbn [fst snd].
    rewrite epoch_run_counting.
    destruct (@epoch_run T m' batches) as [ls m'']. cbn [fst snd].
    cbn [counting scheduler_step fst snd].
    by replace (c + S k * length batches)%nat
      with (c + k * length batches + length batches)%nat by lia.
Qed.

(** X10.  Every epoch steps the optimizer once per minibatch: with a
    torch that counts the steps of its optimizer, a training on [n] rows
    ends with [1000 * ceil(n / 64)] steps counted, and with the net and
    the losses of the training without the count. *)
Theorem training_steps (m : @net T) (X Y : ndarray) :
  length Y = length X →
  tr_net (@train (counting T) (m, 0%nat) X Y)
  = (tr_net (@train T m X Y), (1000 * ((length X + 63) / 64))%nat)
  ∧ tr_losses (@train (counting T) (m, 0%nat) X Y)
    = tr_losses (@train T m X Y).
Proof.
  intros Hlen. unfold train. rewrite !train_for_eq.
  cbn [tr_net tr_losses]. rewrite epochs_run_counting. cbn [fst snd].
  by rewrite data_loader_length.
Qed.
End TrainingSteps.

(** ** Both datasets, from the records to the four arrays *)

Section Datasets.
Context `{Numpy}.

Lemma train_test_split_sizes (X Y : ndarray) :
  length Y = length X →
  ∃ d, train_test_split X Y = Ok d
       ∧ length (inputs_training d) = (5 * length X / 6)%nat
       ∧ length (targets_training d) = (5 * length X / 6)%nat
       ∧ length (inputs_testing d) = (length X - 5 * length X / 6)%nat
       ∧ length (targets_testing d) = (length X - 5 * length X / 6)%nat.
Proof.
  intros Hlen. eexists. split; [by apply train_test_split_eq|].
  cbn [inputs_training targets_training inputs_testing targets_testing].
  pose proof (split_point_le (length X)) as Hle.
  pose proof (np_permutation_length (length X)) as Hperm.
  unfold train_indices, test_indices.
  rewrite !length_fmap, length_take, length_drop, Hperm.
  unfold split_point in *. lia.
Qed.

(** X12.  On records on which neither extraction raises, the cells
    that build the datasets return both of them: Problem 1 with one row
    per record that has both densities, Problem 2 with one row per
    record that has ['cell'] and a Matthews coefficient, each split into
    five sixths (rounded down) for the training and the rest for the
    test. *)
Theorem datasets_of_returns (recs : list json) (X1 Y1 X2 Y2 : ndarray) :
  problem1 (JArr recs) = Ok (X1, Y1) → problem2 (JArr recs) = Ok (X2, Y2) →
  ∃ d1 d2,
    datasets_of (JArr recs) = Ok (d1, d2)
    ∧ train_test_split X1 Y1 = Ok d1
    ∧ train_test_split X2 Y2 = Ok d2
    ∧ length (inputs_training d1) = (5 * length (kept1 recs) / 6)%nat
    ∧ length (targets_training d1) = length (inputs_training d1)
    ∧ length (inputs_testing d1)
      = (length (kept1 recs) - 5 * length (kept1 recs) / 6)%nat
    ∧ length (targets_testing d1) = length (inputs_testing d1)
    ∧ length (inputs_training d2) = (5 * length (kept2 recs) / 6)%nat
    ∧ length (targets_training d2) = length (inputs_training d2)
    ∧ length (inputs_testing d2)
      = (length (kept2 recs) - 5 * length (kept2 recs) / 6)%nat
    ∧ length (targets_testing d2) = length (inputs_testing d2).
Proof.
  intros H1 H2.
  destruct (problem1_kept_rows recs X1 Y1 H1) as (_ & _ & HX1 & HY1 & _).
  destruct (problem2_kept_rows recs X2 Y2 H2) as (_ & _ & HX2 & HY2 & _).
  destruct (train_test_split_sizes X1 Y1)
    as (d1 & Hd1 & H11 & H12 & H13 & H14); [congruence|].
  destruct (train_test_split_sizes X2 Y2)
    as (d2 & Hd2 & H21 & H22 & H23 & H24); [congruence|].
  exists d1, d2. unfold datasets_of. rewrite H1, H2.
  cbn [mbind result_bind]. rewrite Hd1. cbn [mbind result_bind]. rewrite Hd2.
  split_and!; try done; congruence.
Qed.

(** X13.  The target of Problem 2 is the input of Problem 1: for a
    record both problems keep, the target row of Problem 2 and the input
    row of Problem 1 hold the same float, numpy's conversion of the
    Matthews coefficient of the record. *)
Theorem problem2_target_problem1_input (recs : list json)
    (X1 Y1 X2 Y2 : ndarray) :
  problem1 (JArr recs) = Ok (X1, Y1) → problem2 (JArr recs) = Ok (X2, Y2) →
  ∀ i j1 j2, kept1 recs !! j1 = Some i → kept2 recs !! j2 = Some i →
    ∃ rec e c dm x,
      recs !! i = Some rec ∧ entry_of rec = Some e ∧ crystal_of e = Some c
      ∧ c !! "density_matthews" = Some dm
      ∧ np_float np_row_of_object dm = Ok x
      ∧ X1 !! j1 = Some [x] ∧ Y2 !! j2 = Some [x].
Proof.
  intros H1 H2 i j1 j2 Hj1 Hj2.
  destruct (problem1_kept_rows recs X1 Y1 H1) as (_ & _ & _ & _ & _ & Hr1).
  destruct (problem2_kept_rows recs X2 Y2 H2) as (_ & _ & _ & _ & _ & Hr2).
  destruct (Hr1 j1 i Hj1)
    as (rec & dm & ds & x & y & Hrec & Hd & Hx & _ & _ & _ & HX1 & _).
  destruct (Hr2 j2 i Hj2)
    as (rec' & e' & v & x0 & x1 & x2 & x3 & x4 & x5 & x6 & x7 & x8 & y'
        & Hrec' & He' & Hv & _ & _ & _ & _ & _ & _ & _ & _ & _ & Hy' & _ & HY2).
  assert (rec' = rec) as -> by congruence.
  apply densities_inv in Hd as (e & c & He & Hc & Hdm & Hds).
  apply cell_and_density_inv in Hv as (e'' & c' & He'' & _ & Hc' & Hv).
  assert (e'' = e) as -> by congruence.
  assert (c' = c) as -> by congruence.
  assert (v = dm) as -> by congruence.
  assert (y' = x) as -> by congruence.
  exists rec, e, c, dm, x. by split_and!.
Qed.
End Datasets.

(* ===================================================================== *)
(** * Part V: the theorems at concrete inputs                             *)
(* ===================================================================== *)

(** ** [char_to_float] *)

Example char_to_float_P1211 :
  @char_to_float sample_numpy "P 1 21 1"
  = Ok (S754_finite false 6699104445713613 (-50)).
Proof. vm_compute. reflexivity. Qed.

(** The mean of 0.8 and -1 as the doubles compute it is
    -0.09999999999999998, not the double nearest to -0.1. *)
Example char_to_float_minus_one :
  @char_to_float sample_numpy "P -1"
  = Ok (S754_finite true 7205759403792792 (-56))
  ∧ dbl (-1) (-1) = S754_finite true 7205759403792794 (-56).
Proof. split; vm_compute; reflexivity. Qed.

(** A numeral of 310 digits is beyond the doubles: its value is an
    infinity, and so is the mean. *)
Example char_to_float_huge_numeral :
  @char_to_float sample_numpy
    "1000000000000000000000000000000000000000000000000000000000000000000000000000000000000000000000000000000000000000000000000000000000000000000000000000000000000000000000000000000000000000000000000000000000000000000000000000000000000000000000000000000000000000000000000000000000000000000000000000000000000000000000"
  = Ok PInf.
Proof. vm_compute. reflexivity. Qed.

Example char_to_float_colon_raises :
  @char_to_float sample_numpy "R 3 :H" = Raise ValueError.
Proof. vm_compute. reflexivity. Qed.

Example char_to_float_signed_inf :
  @char_to_float sample_numpy "P -inf" = Ok NInf
  ∧ @char_to_float sample_numpy "inf" = Raise TypeError.
Proof. split; vm_compute; reflexivity. Qed.



Lemma char_to_float_deterministic_witness :
  @ctf_call sample_numpy globals_a "P 1" globals_a
    (Ok (S754_finite false 8106479329266893 (-53)))
  ∧ @ctf_call sample_numpy globals_b "P 1" globals_b
      (Ok (S754_finite false 8106479329266893 (-53)))
  ∧ (@Ok float64 (S754_finite false 8106479329266893 (-53))
       = Ok (S754_finite false 8106479329266893 (-53))
     ∧ globals_a = globals_a ∧ globals_b = globals_b).
Proof.
  pose proof (@ctf_call_char_to_float sample_numpy globals_a "P 1") as Ha.
  pose proof (@ctf_call_char_to_float sample_numpy globals_b "P 1") as Hb.
  vm_compute in Ha, Hb. fold fzero in Ha, Hb.
  exact (conj Ha (conj Hb
           (@char_to_float_deterministic sample_numpy
              globals_a globals_a globals_b globals_b "P 1" _ _ Ha Hb))).
Defined.

Example char_to_float_P1 :
  @char_to_float sample_numpy "P 1"
  = Ok (S754_finite false 8106479329266893 (-53)).
Proof. vm_compute. reflexivity. Qed.

Lemma char_to_float_partial_witness :
  raises (@char_to_float sample_numpy "Pn 21")
  ∧ raises (@char_to_float sample_numpy "P 21/c")
  ∧ returns (@char_to_float sample_numpy "P 21").
Proof.
  split_and!.
  - apply (proj1 (@char_to_float_partial sample_numpy "Pn 21") "Pn");
      [by apply list_elem_of_In; left | reflexivity | cbn; lia].
  - apply (proj1 (proj2 (@char_to_float_partial sample_numpy "P 21/c")) "21/c");
      [by apply list_elem_of_In; right; left | reflexivity
      | by exists ValueError].
  - destruct (@char_to_float_partial sample_numpy "P 21")
      as (_ & _ & _ & [_ Hret] & _).
    apply Hret. change (Forall convertible ["P"; "21"]).
    constructor; [by left|]. constructor; [|constructor].
    right. split; [reflexivity | eexists; reflexivity].
Defined.

(** C8, counterexample: on the empty string and on a string of blanks
    [char_to_float] raises nothing; it returns NaN. *)
Lemma char_to_float_empty_returns :
  @char_to_float sample_numpy "" = Ok NaN
  ∧ @char_to_float sample_numpy "   " = Ok NaN
  ∧ ¬ raises (@char_to_float sample_numpy "")
  ∧ ¬ raises (@char_to_float sample_numpy "   ").
Proof.
  assert (H1 : @char_to_float sample_numpy "" = Ok NaN) by reflexivity.
  assert (H2 : @char_to_float sample_numpy "   " = Ok NaN) by reflexivity.
  split_and!; [done | done | |].
  - rewrite H1. intros [e He]. discriminate.
  - rewrite H2. intros [e He]. discriminate.
Qed.

Lemma char_to_float_whitespace_witness :
  @char_to_float sample_numpy " P" = @char_to_float sample_numpy "P"
  ∧ @char_to_float sample_numpy "P " = @char_to_float sample_numpy "P"
  ∧ @char_to_float sample_numpy ("P" +:+ String "009" "21")
    = @char_to_float sample_numpy "P 21"
  ∧ @char_to_float sample_numpy ("P" +:+ String " " (String "009" "21"))
    = @char_to_float sample_numpy "P 21".
Proof.
  exact (@char_to_float_whitespace sample_numpy "P" "21" " " "009"
           eq_refl eq_refl).
Defined.

(** ** The extraction loops *)

Example sample_kept :
  kept1 sample_records1 = [0; 2]%nat ∧ kept1 sample_records = [0; 1]%nat
  ∧ kept2 sample_records = [0]%nat.
Proof. split_and!; reflexivity. Qed.

Example sample_problem1 :
  @problem1 sample_numpy (JArr sample_records1) = Ok (sample_X1, sample_Y1)
  ∧ @problem1 sample_numpy (JArr sample_records) = Ok (sample_X1, sample_Y1)
  ∧ sample_X1 = [[S754_finite false 5201657569612923 (-51)];
                 [S754_finite false 5201657569612923 (-51)]].
Proof. split_and!; vm_compute; reflexivity. Qed.

Example sample_problem2 :
  @problem2 sample_numpy (JArr sample_records) = Ok (sample_X2, sample_Y2).
Proof. vm_compute. reflexivity. Qed.

(** An integer no double can hold: the assignment to the array raises. *)
Example problem2_huge_raises :
  @problem2 sample_numpy (JArr [record entry_full; record entry_huge])
  = Raise OverflowError.
Proof. vm_compute. reflexivity. Qed.

Lemma problem1_rows_witness :
  (indices <$> @problem1_loop sample_numpy (JArr sample_records1))
  = Ok (kept1 sample_records1)
  ∧ length sample_X1 = length (kept1 sample_records1).
Proof.
  destruct (proj2 (@problem1_rows sample_numpy sample_records1)
              sample_X1 sample_Y1 ltac:(vm_compute; reflexivity))
    as (Hidx & _ & Hlen & _).
  exact (conj Hidx Hlen).
Defined.

(** C3, counterexample: a dataset whose first record has both densities
    and whose second record has an empty ['exptl_crystal'] list.  The
    extraction gives no row at all: the access
    [entry['exptl_crystal'][0]] of the test raises IndexError. *)
Lemma problem1_empty_crystal_raises :
  densities (record entry_full) = Some (dec 231 (-2), dec 4675 (-2))
  ∧ entry_empty_crystal !! "exptl_crystal" = Some (JArr [])
  ∧ @problem1 sample_numpy
      (JArr [record entry_full; record entry_empty_crystal])
    = Raise IndexError.
Proof. split_and!; vm_compute; reflexivity. Qed.

Lemma feature_matrix_shapes_witness :
  ∃ st, @problem2_loop sample_numpy (JArr sample_records) = Ok st
        ∧ Forall (λ row, length row = 9%nat) sample_X2
        ∧ Forall (λ row, length row = 1%nat) sample_Y2
        ∧ length sample_X2 = length (indices st)
        ∧ length sample_Y2 = length (indices st).
Proof.
  apply (proj2 (@feature_matrix_shapes sample_numpy (JArr sample_records))).
  vm_compute. reflexivity.
Defined.

Lemma problem2_mass_witness :
  ∃ row, sample_X2 !! 0%nat = Some row
         ∧ row !! 8%nat = Some (float_of_int (110 * Z.of_nat (String.length "MKVLA"))).
Proof.
  apply (@problem2_mass sample_numpy sample_records
           {| all_inputs := sample_X2 ++ np_zeros 2 9;
              all_targets := sample_Y2 ++ np_zeros 2 1;
              indices := [0%nat] |}
           sample_X2 sample_Y2
           ltac:(vm_compute; reflexivity) ltac:(vm_compute; reflexivity)
           0%nat 0%nat (record entry_full) entry_full "MKVLA");
    reflexivity.
Defined.

(** Missing fields.  The second sample record has no ['cell']: Problem 1
    keeps it, Problem 2 skips it. *)
Lemma missing_fields_witness :
  returns (@problem1_body sample_numpy (JArr sample_records) (state0 3 9) 1)
  ∧ @problem2_body sample_numpy (JArr sample_records) (state0 3 9) 1
    = Ok (state0 3 9).
Proof.
  pose proof (@missing_fields sample_numpy sample_records (state0 3 9) 1%nat
                (record entry_no_cell) entry_no_cell eq_refl eq_refl) as Hm.
  destruct Hm as (H1 & H2 & _); [cbn; lia | cbn; lia |].
  split.
  - apply (proj1 (H1 ltac:(vm_compute; reflexivity))).
  - apply H2. reflexivity.
Defined.

(** C2, counterexample: an entry that has every field but ['symmetry'].
    The Problem-2 loop does not skip it; the access
    [entry['symmetry']] raises KeyError. *)
Lemma problem2_no_symmetry_raises :
  entry_no_symmetry !! "symmetry" = None
  ∧ @problem2_body sample_numpy (JArr [record entry_no_symmetry]) (state0 1 9) 0
    = Raise KeyError
  ∧ @problem2 sample_numpy (JArr [record entry_no_symmetry]) = Raise KeyError.
Proof. split_and!; vm_compute; reflexivity. Qed.

(** With ['cell'] and without ['exptl_crystal'], Problem 1 skips the entry
    and the test of Problem 2 raises KeyError. *)
Example problem2_no_crystal_raises :
  @problem1 sample_numpy (JArr [record entry_no_crystal]) = Ok ([], [])
  ∧ @problem2 sample_numpy (JArr [record entry_no_crystal]) = Raise KeyError.
Proof. split; vm_compute; reflexivity. Qed.

Lemma problem2_rows_witness :
  (indices <$> @problem2_loop sample_numpy (JArr sample_records))
  = Ok (kept2 sample_records)
  ∧ length sample_X2 = length (kept2 sample_records).
Proof.
  destruct (proj2 (@problem2_rows sample_numpy sample_records)
              sample_X2 sample_Y2 ltac:(vm_compute; reflexivity))
    as (Hidx & _ & Hlen & _).
  exact (conj Hidx Hlen).
Defined.

Lemma problem2_aborts_witness :
  @problem2 sample_numpy (JArr [record entry_full; record entry_no_crystal])
  = Raise KeyError.
Proof.
  destruct (@problem2_aborts sample_numpy
              [record entry_full; record entry_no_crystal] 1
              (record entry_no_crystal) eq_refl
              ltac:(repeat constructor; eexists; vm_compute; reflexivity))
    as (_ & _ & Hk).
  destruct (Hk entry_no_crystal eq_refl) as [Hc _]; [by eexists|].
  exact (Hc eq_refl).
Defined.

Lemma problem1_aborts_witness :
  @problem1 sample_numpy (JArr [record entry_full; JObj ∅]) = Raise KeyError.
Proof.
  destruct (@problem1_aborts sample_numpy [record entry_full; JObj ∅] 1
              (JObj ∅) eq_refl
              ltac:(repeat constructor; eexists; vm_compute; reflexivity))
    as (_ & Hk & _).
  exact (Hk ∅ eq_refl eq_refl).
Defined.

Lemma extraction_app_witness :
  @problem2 sample_numpy
    (JArr ([record entry_full] ++ [record entry_no_cell; record entry_full]))
  = ('(X1, Y1) ← @problem2 sample_numpy (JArr [record entry_full]);
     '(X2, Y2) ← @problem2 sample_numpy
                   (JArr [record entry_no_cell; record entry_full]);
     Ok (X1 ++ X2, Y1 ++ Y2)).
Proof.
  exact (proj2 (@extraction_app sample_numpy [record entry_full]
                  [record entry_no_cell; record entry_full])).
Defined.

Lemma datasets_of_returns_witness :
  ∃ d1 d2, @datasets_of sample_numpy (JArr sample_records) = Ok (d1, d2)
           ∧ length (inputs_training d1)
             = (5 * length (kept1 sample_records) / 6)%nat.
Proof.
  destruct (@datasets_of_returns sample_numpy sample_records
              sample_X1 sample_Y1 sample_X2 sample_Y2
              ltac:(vm_compute; reflexivity) ltac:(vm_compute; reflexivity))
    as (d1 & d2 & Hd & _ & _ & Hlen & _).
  exists d1, d2. exact (conj Hd Hlen).
Defined.

Lemma problem2_target_problem1_input_witness :
  ∃ x, sample_X1 !! 0%nat = Some [x] ∧ sample_Y2 !! 0%nat = Some [x].
Proof.
  destruct (@problem2_target_problem1_input sample_numpy sample_records
              sample_X1 sample_Y1 sample_X2 sample_Y2
              ltac:(vm_compute; reflexivity) ltac:(vm_compute; reflexivity)
              0%nat 0%nat 0%nat eq_refl eq_refl)
    as (_ & _ & _ & _ & x & _ & _ & _ & _ & _ & HX & HY).
  exists x. exact (conj HX HY).
Defined.

(** ** Loading *)

Example sample_load :
  @load_jsons sample_json (sample_content "") = Ok [JArr []; JInt 7]
  ∧ @load_jsons sample_json (sample_content "x") = Raise JSONDecodeError.
Proof. split; reflexivity. Qed.

Lemma loader_first_line_witness :
  @load_data sample_json (sample_content "")
    = @load_data sample_json (sample_content "12")
  ∧ @notebook sample_numpy sample_json (sample_content "")
    = @notebook sample_numpy sample_json (sample_content "12").
Proof.
  apply (proj2 (proj2 (proj2
           (@loader_first_line sample_numpy sample_json (sample_content ""))))
           (sample_content "12") (JArr []) [JInt 7] [JInt 7; JInt 12]);
    reflexivity.
Defined.

(** ** The split *)

Example sample_split :
  @train_indices sample_numpy 7 = [6; 5; 4; 3; 2]%nat
  ∧ @test_indices sample_numpy 7 = [1; 0]%nat.
Proof. split; reflexivity. Qed.

Lemma train_test_partition_witness :
  length (@train_indices sample_numpy 7) = (5 * 7 / 6)%nat
  ∧ length (@test_indices sample_numpy 7) = (7 - 5 * 7 / 6)%nat
  ∧ NoDup (@train_indices sample_numpy 7 ++ @test_indices sample_numpy 7).
Proof.
  destruct (@train_test_partition sample_numpy 7)
    as (_ & Hnodup & _ & Htrain & Htest & _).
  exact (conj Htrain (conj Htest Hnodup)).
Defined.

Lemma split_pairs_witness :
  ∃ d, @train_test_split sample_numpy sample_X sample_Y = Ok d
       ∧ zip (inputs_training d) (targets_training d)
           ++ zip (inputs_testing d) (targets_testing d)
         ≡ₚ zip sample_X sample_Y.
Proof.
  eexists. split; [reflexivity|].
  exact (proj1 (@split_pairs sample_numpy sample_X sample_Y _ eq_refl eq_refl)).
Defined.

(** ** Training *)

Lemma data_loader_batches_witness :
  length (data_loader (np_zeros 70 1) (np_zeros 70 1)) = ((70 + 63) / 64)%nat.
Proof.
  exact (proj1 (data_loader_batches (np_zeros 70 1) (np_zeros 70 1) eq_refl)).
Defined.

Example sample_training :
  tr_losses (@train_for sample_torch 2 0%nat (np_zeros 70 1) (np_zeros 70 1))
  = [float_of_int 70; float_of_int 70]
  ∧ tr_net (@train_for sample_torch 2 0%nat (np_zeros 70 1) (np_zeros 70 1))
    = 4%nat.
Proof. split; vm_compute; reflexivity. Qed.

Lemma training_loop_witness :
  length (tr_losses (@train sample_torch 0%nat (np_zeros 70 1) (np_zeros 70 1)))
  = 1000%nat.
Proof.
  exact (proj1 (proj2
           (@training_loop sample_torch 0%nat (np_zeros 70 1) (np_zeros 70 1)))).
Defined.

Lemma training_steps_witness :
  tr_net (@train (counting sample_torch) (0%nat, 0%nat)
            (np_zeros 70 1) (np_zeros 70 1))
  = (tr_net (@train sample_torch 0%nat (np_zeros 70 1) (np_zeros 70 1)),
     (1000 * ((70 + 63) / 64))%nat).
Proof.
  exact (proj1 (training_steps sample_torch 0%nat (np_zeros 70 1)
                  (np_zeros 70 1) eq_refl)).
Defined.
